(** * LogicLock: the circuit evaluator, the turn handlers and the AI move
    validation of the game, embedded from the TypeScript sources.

  - [Types]        : types.ts
  - [LogicService] : services/logicService.ts
  - [App]          : App.tsx (state, [executeMove], the click handlers and
                     the AI turn effect)

  JavaScript values are modelled as the code meets them at run time: an
  array is a list of cells, a cell that was never written reads as
  [undefined], property access on [undefined] throws a [TypeError], and a
  write past the end of an array grows it (up to the largest array index,
  2^32 - 2; a larger number names an ordinary property). *)

From Stdlib Require Import ZArith String List Bool Lia.
From stdpp Require Import base option list gmap strings.


(* ===================================================================== *)
(** ** types.ts *)
(* ===================================================================== *)

Module Types.

Inductive GateType := AND | OR | XOR | NAND | NOR.

(** The enum members are strings at run time. *)
Definition gateName (g : GateType) : string :=
  match g with
  | AND => "AND" | OR => "OR" | XOR => "XOR" | NAND => "NAND" | NOR => "NOR"
  end%string.

Inductive PlayerId := P1 | P2.

(** [0 | 1] *)
Inductive Bit := Zero | One.

(** What a read of a [0 | 1 | null] place can yield at run time. *)
Inductive Val := VUndefined | VNull | VBit (b : Bit).

(** [BoardNode].  [id] and [value] are [undefined] on the object that
    [{...undefined, gate}] builds; [gate] is [null] ([None]) or a gate. *)
Record BoardNode := mkNode {
  id : option Z;
  gate : option GateType;
  value : Val
}.

(** An array cell; [None] is [undefined]. *)
Abbreviation Cell := (option BoardNode) (only parsing).
Abbreviation Arr := (list (option BoardNode)) (only parsing).

(** [PlayerId | 'DRAW'] *)
Inductive Outcome := Win (p : PlayerId) | DRAW.

(** [AIMove] as it comes out of [JSON.parse]: every field may be missing. *)
Record AIMove := mkAIMove {
  actionType : option string;
  slotId : option Z;
  gateType : option string
}.

Inductive Exn := TypeError | Error (msg : string).

Inductive Res (A : Type) := Ok (a : A) | Throw (e : Exn).
Arguments Ok {A} a.
Arguments Throw {A} e.

#[export] Instance GateType_eq_dec : EqDecision GateType.
Proof. solve_decision. Defined.
#[export] Instance PlayerId_eq_dec : EqDecision PlayerId.
Proof. solve_decision. Defined.
#[export] Instance Bit_eq_dec : EqDecision Bit.
Proof. solve_decision. Defined.
#[export] Instance Val_eq_dec : EqDecision Val.
Proof. solve_decision. Defined.

#[export] Instance Res_ret : MRet Res := fun _ a => Ok a.
#[export] Instance Res_bind : MBind Res := fun _ _ k r =>
  match r with Ok a => k a | Throw e => Throw e end.

(** [a[i]] *)
Definition cellAt (a : Arr) (i : nat) : Cell := default None (a !! i).

(** [a[z]] for a number [z]: a negative number is no index. *)
Definition cellAtZ (a : Arr) (z : Z) : Cell :=
  if decide (0 <= z)%Z then cellAt a (Z.to_nat z) else None.

(** [c.gate], [c.value]: a [TypeError] on [undefined]. *)
Definition gateOf (c : Cell) : Res (option GateType) :=
  match c with Some n => Ok (gate n) | None => Throw TypeError end.
Definition valueOf (c : Cell) : Res Val :=
  match c with Some n => Ok (value n) | None => Throw TypeError end.

(** [{...node, value: v}] *)
Definition withValue (node : BoardNode) (v : Val) : BoardNode :=
  mkNode (id node) (gate node) v.

(** [{...c, gate: g}]; spreading [undefined] copies nothing. *)
Definition withGate (c : Cell) (g : GateType) : BoardNode :=
  match c with
  | Some n => mkNode (id n) (Some g) (value n)
  | None => mkNode None (Some g) VUndefined
  end.

(** [a[i] = x]: in range the cell is replaced, past the end the array
    grows and the cells in between read as [undefined].  A number of
    2^32 - 1 or more is no array index: the write makes an ordinary
    property, the length stays and a spread of the array ([[...a]]) does
    not copy it. *)
Definition arrayStore (a : Arr) (i : nat) (x : BoardNode) : Arr :=
  if decide (i < length a) then <[i := Some x]> a
  else if decide (Z.of_nat i < 4294967295)%Z
       then a ++ replicate (i - length a) None ++ [Some x]
       else a.

End Types.
Import Types.

(* ===================================================================== *)
(** ** services/logicService.ts *)
(* ===================================================================== *)

Module LogicService.

Definition INITIAL_INPUTS_COUNT : nat := 8.
Definition BOARD_SIZE : nat := 7.

(** Truthiness of an operand: only [1] is truthy. *)
Definition truthy (v : Val) : bool :=
  match v with VBit One => true | _ => false end.

(** [a !== b] *)
Definition strictNe (a b : Val) : bool := bool_decide (a ≠ b).

Definition ofBool (b : bool) : Bit := if b then One else Zero.

(** [evaluateGate]; the [default] arm of the switch is out of reach on the
    enum. *)
Definition evaluateGate (type : GateType) (a b : Val) : Bit :=
  match type with
  | AND => ofBool (truthy a && truthy b)
  | OR => ofBool (truthy a || truthy b)
  | XOR => ofBool (strictNe a b)
  | NAND => ofBool (negb (truthy a && truthy b))
  | NOR => ofBool (negb (truthy a || truthy b))
  end.

(** [inputs[k]] *)
Definition inputAt (inputs : list Bit) (k : nat) : Val :=
  match inputs !! k with Some b => VBit b | None => VUndefined end.

(** [v !== null] *)
Definition notNull (v : Val) : bool :=
  match v with VNull => false | _ => true end.

(** The two operands of slot [i], read while the loop is at [i]. *)
Definition operands (inputs : list Bit) (i : nat) (newNodes : Arr)
  : Res (Val * Val) :=
  if 3 <=? i then
    let inputIdx := (i - 3) * 2 in
    Ok (inputAt inputs inputIdx, inputAt inputs (inputIdx + 1))
  else
    valA ← valueOf (cellAt newNodes (i * 2 + 1));
    valB ← valueOf (cellAt newNodes (i * 2 + 2));
    Ok (valA, valB).

(** One turn of the [for] loop of [evaluateBoard].  The cell written is
    the one just read, so the write is in range. *)
Definition loopBody (inputs : list Bit) (i : nat) (newNodes : Arr) : Res Arr :=
  match cellAt newNodes i with
  | None => Throw TypeError
  | Some node =>
    match gate node with
    | None => Ok (<[i := Some (withValue node VNull)]> newNodes)
    | Some g =>
      ab ← operands inputs i newNodes;
      let '(valA, valB) := ab in
      if notNull valA && notNull valB
      then Ok (<[i := Some (withValue node (VBit (evaluateGate g valA valB)))]> newNodes)
      else Ok (<[i := Some (withValue node VNull)]> newNodes)
    end
  end.

(** [for (let i = k - 1; i >= 0; i--)] *)
Fixpoint loopFrom (inputs : list Bit) (k : nat) (newNodes : Arr) : Res Arr :=
  match k with
  | 0 => Ok newNodes
  | S i => newNodes' ← loopBody inputs i newNodes; loopFrom inputs i newNodes'
  end.

(** [evaluateBoard].  [[...nodes]] copies the cells (a hole becomes
    [undefined], which is what a cell [None] already is); the inner helper
    [getValue] of the source is never called. *)
Definition evaluateBoard (nodes : Arr) (inputs : list Bit) : Res Arr :=
  let newNodes := nodes in
  loopFrom inputs BOARD_SIZE newNodes.

(** [nodes.every(n => n.gate !== null)], left to right, stopping at the
    first [false]. *)
Fixpoint everyGateSet (nodes : Arr) : Res bool :=
  match nodes with
  | [] => Ok true
  | c :: rest =>
    g ← gateOf c;
    match g with
    | Some _ => everyGateSet rest
    | None => Ok false
    end
  end.

(** [checkWinCondition] *)
Definition checkWinCondition (nodes : Arr) : Res (option Outcome) :=
  isFull ← everyGateSet nodes;
  if isFull : bool then
    rootVal ← valueOf (cellAt nodes 0);
    match rootVal with
    | VBit One => Ok (Some (Win P1))
    | VBit Zero => Ok (Some (Win P2))
    | _ => Ok (Some DRAW)
    end
  else Ok None.

End LogicService.
Import LogicService.

(* ===================================================================== *)
(** ** [evaluateBoard] on a store of objects *)
(* ===================================================================== *)

(** The same function with its objects in a store: an array holds
    references, [[...nodes]] allocates a new array over the same nodes, and
    [newNodes[i] = { ...node, value }] allocates a new node and writes its
    reference into the new array.  This is the model in which "does not
    mutate its argument" is a statement. *)
Module Heap.

Inductive Obj := ONode (n : BoardNode) | OArr (cells : list (option positive)).

Abbreviation Store := (gmap positive Obj) (only parsing).

(** Computations on the store; the store survives a throw. *)
Definition H (A : Type) : Type := gmap positive Obj -> Res A * gmap positive Obj.

#[global] Instance H_ret : MRet H := fun _ a σ => (Ok a, σ).
#[global] Instance H_bind : MBind H := fun _ _ k m σ =>
  match m σ with
  | (Ok a, σ') => k a σ'
  | (Throw e, σ') => (Throw e, σ')
  end.

(** A new object. *)
Definition alloc (o : Obj) : H positive := fun σ =>
  let r := fresh (dom σ) in (Ok r, <[r := o]> σ).

(** [arr[i]]: the reference in the cell, [None] for [undefined]. *)
Definition readCell (arr : positive) (i : nat) : H (option positive) := fun σ =>
  match σ !! arr with
  | Some (OArr cells) => (Ok (default None (cells !! i)), σ)
  | _ => (Throw TypeError, σ)
  end.

(** The node behind a cell, for a property read: a [TypeError] on
    [undefined].  The cells of a board array refer to nodes; a reference to
    anything else does not arise on such an array and is refused alike. *)
Definition readNode (c : option positive) : H BoardNode := fun σ =>
  match c with
  | Some r =>
    match σ !! r with
    | Some (ONode n) => (Ok n, σ)
    | _ => (Throw TypeError, σ)
    end
  | None => (Throw TypeError, σ)
  end.

(** [arr[i] = r], for [i] in range. *)
Definition writeCell (arr : positive) (i : nat) (r : positive) : H unit := fun σ =>
  match σ !! arr with
  | Some (OArr cells) => (Ok tt, <[arr := OArr (<[i := Some r]> cells)]> σ)
  | _ => (Throw TypeError, σ)
  end.

(** [[...nodes]] *)
Definition copyArray (nodes : positive) : H positive := fun σ =>
  match σ !! nodes with
  | Some (OArr cells) => alloc (OArr cells) σ
  | _ => (Throw TypeError, σ)
  end.

Definition operands (inputs : list Bit) (i : nat) (newNodes : positive)
  : H (Val * Val) :=
  if 3 <=? i then
    let inputIdx := (i - 3) * 2 in
    mret (inputAt inputs inputIdx, inputAt inputs (inputIdx + 1))
  else
    c1 ← readCell newNodes (i * 2 + 1);
    n1 ← readNode c1;
    c2 ← readCell newNodes (i * 2 + 2);
    n2 ← readNode c2;
    mret (value n1, value n2).

(** [newNodes[i] = { ...node, value: v }] *)
Definition storeValue (newNodes : positive) (i : nat) (node : BoardNode) (v : Val)
  : H unit :=
  r ← alloc (ONode (withValue node v));
  writeCell newNodes i r.

Definition loopBody (inputs : list Bit) (i : nat) (newNodes : positive) : H unit :=
  c ← readCell newNodes i;
  node ← readNode c;
  match gate node with
  | None => storeValue newNodes i node VNull
  | Some g =>
    ab ← operands inputs i newNodes;
    let '(valA, valB) := ab in
    if notNull valA && notNull valB
    then storeValue newNodes i node (VBit (evaluateGate g valA valB))
    else storeValue newNodes i node VNull
  end.

Fixpoint loopFrom (inputs : list Bit) (k : nat) (newNodes : positive) : H unit :=
  match k with
  | 0 => mret tt
  | S i => loopBody inputs i newNodes;; loopFrom inputs i newNodes
  end.

Definition evaluateBoard (nodes : positive) (inputs : list Bit) : H positive :=
  newNodes ← copyArray nodes;
  loopFrom inputs BOARD_SIZE newNodes;;
  mret newNodes.

(** What a cell of an array stands for: [undefined], or the node its
    reference leads to. *)
Definition cellOf (σ : gmap positive Obj) (c : option positive)
  : option (option BoardNode) :=
  match c with
  | None => Some None
  | Some r => match σ !! r with Some (ONode n) => Some (Some n) | _ => None end
  end.

(** The array at [arr] holds the board [b]. *)
Definition holds (σ : gmap positive Obj) (arr : positive) (b : Arr) : Prop :=
  exists cells,
    σ !! arr = Some (OArr cells)
    /\ Forall2 (fun c x => cellOf σ c = Some x) cells b.

End Heap.

(* ===================================================================== *)
(** ** App.tsx *)
(* ===================================================================== *)

Module App.

Definition INITIAL_HAND_SIZE : nat := 3.

(** The fields of [Player] the game logic reads; [name] and [color] are
    presentation, [targetValue] is fixed by the id. *)
Record Player := mkPlayer { hand : list GateType }.

Definition targetValue (p : PlayerId) : Bit :=
  match p with P1 => One | P2 => Zero end.

(** [Record<PlayerId, Player>] *)
Record Players := mkPlayers { playerP1 : Player; playerP2 : Player }.

Definition getPlayer (ps : Players) (p : PlayerId) : Player :=
  match p with P1 => playerP1 ps | P2 => playerP2 ps end.

(** [{ ...prev, [playerId]: { ...prev[playerId], hand: newHand } }] *)
Definition withHand (prev : Players) (p : PlayerId) (newHand : list GateType)
  : Players :=
  match p with
  | P1 => mkPlayers (mkPlayer newHand) (playerP2 prev)
  | P2 => mkPlayers (playerP1 prev) (mkPlayer newHand)
  end.

(** [Math.random], as the sequence of gates and of bits it will be turned
    into, and the number of draws made so far. *)
Record World := mkWorld {
  rndGate : nat -> GateType;
  rndBit : nat -> Bit;
  tick : nat
}.

(** The [useState] cells of [App] that the game logic reads or writes
    ([commentary] and [gateImages] are presentation), and the world. *)
Record AppState := mkApp {
  gameStarted : bool;
  isAI : bool;
  board : Arr;
  inputs : list Bit;
  players : Players;
  turn : PlayerId;
  winner : option Outcome;
  selectedCardIndex : option nat;
  isThinking : bool;
  world : World
}.

(** A handler reads the state of the render it was created in (its
    closure, the argument [cl] below) and queues writes; [M] threads the
    state the writes build up, and keeps it when the handler throws. *)
Definition M (A : Type) : Type := AppState -> Res A * AppState.

#[export] Instance M_ret : MRet M := fun _ a s => (Ok a, s).
#[export] Instance M_bind : MBind M := fun _ _ k m s =>
  match m s with
  | (Ok a, s') => k a s'
  | (Throw e, s') => (Throw e, s')
  end.

Definition lift {A} (r : Res A) : M A := fun s => (r, s).
Definition throw {A} (e : Exn) : M A := fun s => (Throw e, s).

(** [try { m } catch (e) { h }] *)
Definition tryCatch {A} (m : M A) (h : M A) : M A := fun s =>
  match m s with
  | (Ok a, s') => (Ok a, s')
  | (Throw _, s') => h s'
  end.

(** A queued write: the state with one cell replaced. *)
Definition withGameStarted (b : bool) (s : AppState) : AppState :=
  mkApp b (isAI s) (board s) (inputs s) (players s) (turn s) (winner s)
        (selectedCardIndex s) (isThinking s) (world s).
Definition withIsAI (b : bool) (s : AppState) : AppState :=
  mkApp (gameStarted s) b (board s) (inputs s) (players s) (turn s) (winner s)
        (selectedCardIndex s) (isThinking s) (world s).
Definition withBoard (b : Arr) (s : AppState) : AppState :=
  mkApp (gameStarted s) (isAI s) b (inputs s) (players s) (turn s) (winner s)
        (selectedCardIndex s) (isThinking s) (world s).
Definition withInputs (i : list Bit) (s : AppState) : AppState :=
  mkApp (gameStarted s) (isAI s) (board s) i (players s) (turn s) (winner s)
        (selectedCardIndex s) (isThinking s) (world s).
Definition withPlayers (ps : Players) (s : AppState) : AppState :=
  mkApp (gameStarted s) (isAI s) (board s) (inputs s) ps (turn s) (winner s)
        (selectedCardIndex s) (isThinking s) (world s).
Definition withTurn (p : PlayerId) (s : AppState) : AppState :=
  mkApp (gameStarted s) (isAI s) (board s) (inputs s) (players s) p (winner s)
        (selectedCardIndex s) (isThinking s) (world s).
Definition withWinner (w : option Outcome) (s : AppState) : AppState :=
  mkApp (gameStarted s) (isAI s) (board s) (inputs s) (players s) (turn s) w
        (selectedCardIndex s) (isThinking s) (world s).
Definition withSelectedCardIndex (i : option nat) (s : AppState) : AppState :=
  mkApp (gameStarted s) (isAI s) (board s) (inputs s) (players s) (turn s)
        (winner s) i (isThinking s) (world s).
Definition withIsThinking (b : bool) (s : AppState) : AppState :=
  mkApp (gameStarted s) (isAI s) (board s) (inputs s) (players s) (turn s)
        (winner s) (selectedCardIndex s) b (world s).
Definition withWorld (w : World) (s : AppState) : AppState :=
  mkApp (gameStarted s) (isAI s) (board s) (inputs s) (players s) (turn s)
        (winner s) (selectedCardIndex s) (isThinking s) w.

Definition setGameStarted (b : bool) : M unit := fun s => (Ok tt, withGameStarted b s).
Definition setIsAI (b : bool) : M unit := fun s => (Ok tt, withIsAI b s).
Definition setBoard (b : Arr) : M unit := fun s => (Ok tt, withBoard b s).
Definition setInputs (i : list Bit) : M unit := fun s => (Ok tt, withInputs i s).
(** [setPlayers(prev => f(prev))] *)
Definition setPlayers (f : Players -> Players) : M unit := fun s =>
  (Ok tt, withPlayers (f (players s)) s).
Definition setTurn (p : PlayerId) : M unit := fun s => (Ok tt, withTurn p s).
Definition setWinner (w : option Outcome) : M unit := fun s => (Ok tt, withWinner w s).
Definition setSelectedCardIndex (i : option nat) : M unit := fun s =>
  (Ok tt, withSelectedCardIndex i s).
Definition setIsThinking (b : bool) : M unit := fun s => (Ok tt, withIsThinking b s).

(** One more draw from [Math.random]. *)
Definition nextDraw (w : World) : World :=
  mkWorld (rndGate w) (rndBit w) (S (tick w)).

(** [getRandomGate] (logicService.ts): one draw. *)
Definition getRandomGate : M GateType := fun s =>
  let w := world s in
  (Ok (rndGate w (tick w)), withWorld (nextDraw w) s).

(** [Math.random() > 0.5 ? 1 : 0] *)
Definition randomBit : M Bit := fun s =>
  let w := world s in
  (Ok (rndBit w (tick w)), withWorld (nextDraw w) s).

(** [n] times [h.push(getRandomGate())] *)
Fixpoint pushRandom (n : nat) (h : list GateType) : M (list GateType) :=
  match n with
  | 0 => mret h
  | S k => g ← getRandomGate; pushRandom k (h ++ [g])
  end.

(** [while (newHand.length < 3) newHand.push(getRandomGate())] *)
Definition refill (newHand : list GateType) : M (list GateType) :=
  pushRandom (3 - length newHand) newHand.

(** [Array.from({ length: INITIAL_HAND_SIZE }, () => getRandomGate())] *)
Definition freshHand : M (list GateType) := pushRandom INITIAL_HAND_SIZE [].

(** [generateInputs] (logicService.ts) *)
Fixpoint pushBits (n : nat) (l : list Bit) : M (list Bit) :=
  match n with
  | 0 => mret l
  | S k => b ← randomBit; pushBits k (l ++ [b])
  end.
Definition generateInputs : M (list Bit) := pushBits INITIAL_INPUTS_COUNT [].

Definition INITIAL_BOARD : Arr :=
  (fun i : nat => Some (mkNode (Some (Z.of_nat i)) None VNull)) <$> seq 0 BOARD_SIZE.

Definition other (p : PlayerId) : PlayerId :=
  match p with P1 => P2 | P2 => P1 end.

(** [startGame] *)
Definition startGame (aiMode : bool) : M unit :=
  setIsAI aiMode;;
  setBoard INITIAL_BOARD;;
  ins ← generateInputs;
  setInputs ins;;
  h1 ← freshHand;
  h2 ← freshHand;
  setPlayers (fun _ => mkPlayers (mkPlayer h1) (mkPlayer h2));;
  setTurn P1;;
  setWinner None;;
  setGameStarted true;;
  setSelectedCardIndex None.

Inductive ActionType := PLACE | DISCARD.

(** What reaches the [slotId] argument of [executeMove]: a number, or (from
    the fallback of the AI turn) a card of the hand, that is its name. *)
Inductive SlotKey := KNum (z : Z) | KName (g : GateType).

(** [newBoard[slotId] = { ...newBoard[slotId], gate }].  A non-negative
    number is an index; a negative number or a name is a property of the
    array object, not one of its cells, and the copy [evaluateBoard]
    makes of the cells does not carry it. *)
Definition storeGate (newBoard : Arr) (slotId : SlotKey) (gate : GateType) : Arr :=
  match slotId with
  | KNum z =>
    if decide (0 <= z)%Z
    then arrayStore newBoard (Z.to_nat z) (withGate (cellAt newBoard (Z.to_nat z)) gate)
    else newBoard
  | KName _ => newBoard
  end.

(** "Common End of Turn Logic" *)
Definition endOfTurn (playerId : PlayerId) : M unit :=
  setSelectedCardIndex None;;
  setTurn (other playerId);;
  setIsThinking false.

(** [executeMove] *)
Definition executeMove (cl : AppState) (actionType : ActionType)
    (playerId : PlayerId) (slotId : option SlotKey) (gate : option GateType)
    (handIndexToRemove : option nat) : M unit :=
  setIsThinking true;;
  _ ← lift (valueOf (cellAt (board cl) 0));
  match actionType, slotId, gate, handIndexToRemove with
  | PLACE, Some slot, Some g, Some idx =>
    let newBoard := storeGate (board cl) slot g in
    evaluatedBoard ← lift (evaluateBoard newBoard (inputs cl));
    setBoard evaluatedBoard;;
    _ ← lift (valueOf (cellAt evaluatedBoard 0));
    winResult ← lift (checkWinCondition evaluatedBoard);
    match winResult with
    | Some w =>
      setWinner (Some w);;
      setIsThinking false
    | None =>
      newHand ← refill (delete idx (hand (getPlayer (players cl) playerId)));
      setPlayers (fun prev => withHand prev playerId newHand);;
      endOfTurn playerId
    end
  | DISCARD, _, _, _ =>
    newHand ← freshHand;
    setPlayers (fun prev => withHand prev playerId newHand);;
    endOfTurn playerId
  | PLACE, _, _, _ => endOfTurn playerId
  end.

(** Truthiness of [winner]: ['P1'], ['P2'] and ['DRAW'] are truthy,
    [null] is not. *)
Definition isSet (w : option Outcome) : bool :=
  match w with Some _ => true | None => false end.

(** [handleCardSelect] *)
Definition handleCardSelect (cl : AppState) (index : nat) : M unit :=
  if isSet (winner cl) || isThinking cl then mret tt
  else if isAI cl && bool_decide (turn cl = P2) then mret tt
  else if bool_decide (selectedCardIndex cl = Some index)
       then setSelectedCardIndex None
       else setSelectedCardIndex (Some index).

(** [handleSlotClick] *)
Definition handleSlotClick (cl : AppState) (slotId : Z) : M unit :=
  if isSet (winner cl) || isThinking cl then mret tt
  else match selectedCardIndex cl with
  | None => mret tt
  | Some sel =>
    g ← lift (gateOf (cellAtZ (board cl) slotId));
    match g with
    | Some _ => mret tt
    | None =>
      let currentPlayer := getPlayer (players cl) (turn cl) in
      let gateToPlace := hand currentPlayer !! sel in
      executeMove cl PLACE (turn cl) (Some (KNum slotId)) gateToPlace (Some sel)
    end
  end.

(** [handleDiscardHand] *)
Definition handleDiscardHand (cl : AppState) : M unit :=
  if isSet (winner cl) || isThinking cl then mret tt
  else executeMove cl DISCARD (turn cl) None None None.

(** What [await getAIMove(...)] gives: the promise rejects, or resolves
    to the parsed reply. *)
Inductive AIReply := Rejected | Returned (aiMove : AIMove).

(** [hand.indexOf(name)]; [None] is [-1]. *)
Fixpoint indexOf (h : list GateType) (name : string) : option nat :=
  match h with
  | [] => None
  | g :: rest =>
    if String.eqb (gateName g) name then Some 0
    else S <$> indexOf rest name
  end.

(** [board.find(n => n.gate === null)] *)
Fixpoint findEmpty (nodes : Arr) : Res Cell :=
  match nodes with
  | [] => Ok None
  | c :: rest =>
    g ← gateOf c;
    match g with
    | None => Ok c
    | Some _ => findEmpty rest
    end
  end.

(** The body of [performAIMove] after the reply has arrived. *)
Definition performAIMove (cl : AppState) (reply : AIReply) : M unit :=
  setIsThinking true;;
  tryCatch
    (aiMove ← match reply with
              | Rejected => throw (Error "No moves possible")
              | Returned m => mret m
              end;
     if bool_decide (actionType aiMove = Some "DISCARD"%string)
     then executeMove cl DISCARD P2 None None None
     else
       slot ← match slotId aiMove with
              | None => throw (Error "Missing slotId")
              | Some z => mret z
              end;
       name ← match gateType aiMove with
              | None => throw (Error "Missing gateType")
              | Some s => if String.eqb s "" then throw (Error "Missing gateType")
                          else mret s
              end;
       g ← lift (gateOf (cellAtZ (board cl) slot));
       let p2hand := hand (getPlayer (players cl) P2) in
       match g with
       | Some _ =>
         empty ← lift (findEmpty (board cl));
         match empty with
         | Some _ =>
           let handIdx := 0 in
           executeMove cl PLACE P2 (KName <$> p2hand !! handIdx)
                       (p2hand !! handIdx) (Some handIdx)
         | None => executeMove cl DISCARD P2 None None None
         end
       | None =>
         let gateIdx := indexOf p2hand name in
         let validIdx := match gateIdx with Some i => i | None => 0 end in
         let validGate := match gateIdx with
                          | Some i => p2hand !! i
                          | None => p2hand !! 0
                          end in
         executeMove cl PLACE P2 (Some (KNum slot)) validGate (Some validIdx)
       end)
    (executeMove cl DISCARD P2 None None None).

(** The "AI Turn Effect": its guard, then [performAIMove]. *)
Definition aiTurnEffect (cl : AppState) (reply : AIReply) : M unit :=
  if gameStarted cl && negb (isSet (winner cl)) && isAI cl
     && bool_decide (turn cl = P2) && negb (isThinking cl)
  then performAIMove cl reply
  else mret tt.

(** A handler run from the state it closes over: the state after it. *)
Definition after (h : AppState -> M unit) (s : AppState) : AppState :=
  snd (h s s).
Definition outcome (h : AppState -> M unit) (s : AppState) : Res unit :=
  fst (h s s).

End App.
Import App.

(* ===================================================================== *)
(** ** The validation policy as the specification words it (section 4.3) *)
(* ===================================================================== *)

Module Spec.

(** The one action a proposal is resolved to. *)
Inductive Action := PlaceGate (slot : nat) (g : GateType) | DiscardHand.

(** "the first empty slot found by ascending id" *)
Fixpoint firstEmptyFrom (i : nat) (b : Arr) : option nat :=
  match b with
  | [] => None
  | c :: rest =>
    match c with
    | Some n => match gate n with
                | None => Some i
                | Some _ => firstEmptyFrom (S i) rest
                end
    | None => firstEmptyFrom (S i) rest
    end
  end.
Definition firstEmpty (b : Arr) : option nat := firstEmptyFrom 0 b.

(** "[slotId] in [0,6] and [board[slotId].gate] unset" *)
Definition slotFree (b : Arr) (z : Z) : bool :=
  bool_decide (0 <= z <= 6)%Z
  && match cellAtZ b z with
     | Some n => match gate n with None => true | Some _ => false end
     | None => false
     end.

(** "[gateKind] present in the acting player's current hand" *)
Definition cardNamed (h : list GateType) (name : string) : option GateType :=
  List.find (fun g => String.eqb (gateName g) name) h.

(** Rules 1, 2, 3a-3d, applied in order.  [None] is "the external call
    failed outright (no proposal obtained)". *)
Definition validate (b : Arr) (h : list GateType) (proposal : option AIMove)
  : Action :=
  match proposal with
  | None => DiscardHand
  | Some m =>
    if bool_decide (actionType m = Some "DISCARD"%string) then DiscardHand
    else if bool_decide (actionType m = Some "PLACE"%string) then
      let slot :=
        match slotId m with
        | Some z => if slotFree b z then Some (Z.to_nat z) else firstEmpty b
        | None => firstEmpty b
        end in
      let card :=
        match gateType m ≫= cardNamed h with
        | Some g => Some g
        | None => h !! 0
        end in
      match slot, card with
      | Some s, Some g => PlaceGate s g
      | _, _ => DiscardHand
      end
    else DiscardHand
  end.

(** The action applied for the player whose turn it is, through
    [executeMove]; [placeGate] removes "one matching gateKind ... (first
    occurrence)" from the hand. *)
Definition apply (cl : AppState) (a : Action) : M unit :=
  match a with
  | PlaceGate s g =>
    executeMove cl PLACE (turn cl) (Some (KNum (Z.of_nat s))) (Some g)
                (indexOf (hand (getPlayer (players cl) (turn cl))) (gateName g))
  | DiscardHand => executeMove cl DISCARD (turn cl) None None None
  end.

(** The preconditions of [placeGate] and [discardHand] (section 4.2). *)
Definition legal (cl : AppState) (a : Action) : Prop :=
  match a with
  | PlaceGate s g =>
    winner cl = None /\ s <= 6
    /\ (exists n, cellAt (board cl) s = Some n /\ gate n = None)
    /\ g ∈ hand (getPlayer (players cl) (turn cl))
  | DiscardHand => winner cl = None
  end.

(** The untrusted proposal a human click on slot [z] with card [g]
    selected amounts to. *)
Definition clickProposal (z : Z) (g : GateType) : AIMove :=
  mkAIMove (Some "PLACE"%string) (Some z) (Some (gateName g)).

End Spec.

(* ===================================================================== *)
(** ** Predicates used to state the properties *)
(* ===================================================================== *)

Module Props.

(** The seven slots of the board are there: cells 0..6 hold nodes. *)
Definition slotsDefined (b : Arr) : Prop :=
  BOARD_SIZE <= length b /\ Forall is_Some (take BOARD_SIZE b).

#[export] Instance slotsDefined_dec b : Decision (slotsDefined b).
Proof. unfold slotsDefined. apply _. Defined.

(** A board as [types.ts] declares it: exactly the seven slots. *)
Definition isBoard (b : Arr) : Prop :=
  length b = BOARD_SIZE /\ slotsDefined b.

#[export] Instance isBoard_dec b : Decision (isBoard b).
Proof. unfold isBoard. apply _. Defined.

(** [b[i].gate] and [b[i].value] as plain reads ([undefined] off the
    board). *)
Definition gateAt (b : Arr) (i : nat) : option GateType :=
  match cellAt b i with Some n => gate n | None => None end.
Definition valueAt (b : Arr) (i : nat) : Val :=
  match cellAt b i with Some n => value n | None => VUndefined end.

(** [n.gate !== null] on a cell that holds a node. *)
Definition gateSet (c : Cell) : bool :=
  match c with
  | Some n => match gate n with Some _ => true | None => false end
  | None => false
  end.

(** Every slot has a gate. *)
Definition full (b : Arr) : Prop :=
  forall i, i < BOARD_SIZE -> is_Some (gateAt b i).

(** What a slot with gate [g] and operands [a], [b] puts out. *)
Definition settle (g : option GateType) (a b : Val) : Val :=
  match g with
  | None => VNull
  | Some t => if notNull a && notNull b then VBit (evaluateGate t a b) else VNull
  end.

(** The boolean tables of the five gates. *)
Definition gateTable (g : GateType) (a b : bool) : bool :=
  match g with
  | AND => a && b
  | OR => a || b
  | XOR => xorb a b
  | NAND => negb (a && b)
  | NOR => negb (a || b)
  end.

Definition toBool (b : Bit) : bool :=
  match b with One => true | Zero => false end.

(** The two operands of slot [i] on board [b]: input bits [(i-3)*2] and
    [(i-3)*2+1] for a leaf, the values of the children otherwise. *)
Definition operandsOf (inputs : list Bit) (b : Arr) (i : nat) : Val * Val :=
  if 3 <=? i then (inputAt inputs ((i - 3) * 2), inputAt inputs ((i - 3) * 2 + 1))
  else (valueAt b (2 * i + 1), valueAt b (2 * i + 2)).

(** The law of slot [i] on an evaluated board: the value is unset exactly
    when the gate is unset or, for an inner slot, a child value is unset;
    otherwise it is the table of the gate on the two operands. *)
Definition slotLaw (inputs : list Bit) (b : Arr) (i : nat) : Prop :=
  (valueAt b i = VNull <->
     gateAt b i = None
     \/ (i < 3 /\ (valueAt b (2 * i + 1) = VNull \/ valueAt b (2 * i + 2) = VNull)))
  /\ (valueAt b i <> VNull ->
      exists g x y,
        gateAt b i = Some g
        /\ operandsOf inputs b i = (VBit x, VBit y)
        /\ valueAt b i = VBit (ofBool (gateTable g (toBool x) (toBool y)))).

Definition boardLaw (inputs : list Bit) (b : Arr) : Prop :=
  forall i, i < BOARD_SIZE -> slotLaw inputs b i.

(** Two boards that differ at most in their [value] fields. *)
Definition sameGates (b1 b2 : Arr) : Prop :=
  Forall2 (fun c1 c2 =>
    match c1, c2 with
    | Some n1, Some n2 => id n1 = id n2 /\ gate n1 = gate n2
    | None, None => True
    | _, _ => False
    end) b1 b2.

(** The next [n] gates [Math.random] will give, and the world after
    [n] draws. *)
Definition drawn (w : World) (n : nat) : list GateType :=
  (fun k => rndGate w (tick w + k)) <$> seq 0 n.
Definition advance (n : nat) (w : World) : World :=
  mkWorld (rndGate w) (rndBit w) (tick w + n).

(** The writes of the "Common End of Turn Logic". *)
Definition endedTurn (p : PlayerId) (s : AppState) : AppState :=
  withIsThinking false (withTurn (other p) (withSelectedCardIndex None s)).

(** The hand of player [p]. *)
Definition handOf (s : AppState) (p : PlayerId) : list GateType :=
  hand (getPlayer (players s) p).

End Props.
Import Props.

(* ===================================================================== *)
(** ** Concrete positions *)
(* ===================================================================== *)

Module Scenario.

Definition world0 : World := mkWorld (fun _ => NOR) (fun _ => One) 0.

Definition slot (i : Z) (g : option GateType) (v : Val) : option BoardNode :=
  Some (mkNode (Some i) g v).

Definition bits1100 : list Bit := [One; One; Zero; Zero; One; One; Zero; Zero].
Definition bits1010 : list Bit := [One; Zero; One; Zero; One; Zero; One; Zero].

(** Slots 0, 1 and 3 hold a gate; slot 2 is the first empty one. *)
Definition boardA : list (option BoardNode) :=
  [slot 0 (Some AND) VNull; slot 1 (Some AND) VNull; slot 2 None VNull;
   slot 3 (Some OR) (VBit One); slot 4 None VNull; slot 5 None VNull;
   slot 6 None VNull].

(** The AI (P2) to move on [boardA] with hand [OR, XOR, NAND]. *)
Definition aiToMove : AppState :=
  mkApp true true boardA bits1100
        (mkPlayers (mkPlayer [AND; AND; NOR]) (mkPlayer [OR; XOR; NAND]))
        P2 None None false world0.

(** All slots but slot 0 hold a gate, as in the scenario of the
    specification with inputs 1,0,1,0,1,0,1,0. *)
Definition boardLast : list (option BoardNode) :=
  [slot 0 None VNull; slot 1 (Some AND) (VBit One);
   slot 2 (Some NAND) (VBit Zero); slot 3 (Some OR) (VBit One);
   slot 4 (Some OR) (VBit One); slot 5 (Some OR) (VBit One);
   slot 6 (Some OR) (VBit One)].

(** P1 to move on [boardLast] with XOR selected. *)
Definition lastMove : AppState :=
  mkApp true false boardLast bits1010
        (mkPlayers (mkPlayer [XOR; AND; OR]) (mkPlayer [OR; XOR; NAND]))
        P1 None (Some 0) false world0.

(** A finished game: full board, P1 has won. *)
Definition boardFull : list (option BoardNode) :=
  [slot 0 (Some XOR) (VBit One); slot 1 (Some AND) (VBit One);
   slot 2 (Some NAND) (VBit Zero); slot 3 (Some OR) (VBit One);
   slot 4 (Some OR) (VBit One); slot 5 (Some OR) (VBit One);
   slot 6 (Some OR) (VBit One)].

Definition finished : AppState :=
  mkApp true false boardFull bits1010
        (mkPlayers (mkPlayer [XOR; AND; OR]) (mkPlayer [OR; XOR; NAND]))
        P1 (Some (Win P1)) None false world0.

(** P2, a human, to move on [boardA] with the second card selected. *)
Definition humanToMove : AppState :=
  mkApp true false boardA bits1100
        (mkPlayers (mkPlayer [AND; AND; NOR]) (mkPlayer [OR; XOR; NAND]))
        P2 None (Some 1) false world0.

(** P2, a human, to move on [boardA] holding two AND cards, the second
    one selected. *)
Definition twoCopies : AppState :=
  mkApp true false boardA bits1100
        (mkPlayers (mkPlayer [AND; AND; NOR]) (mkPlayer [AND; OR; AND]))
        P2 None (Some 2) false world0.

(** A store in which the array at 8 holds [boardA], its nodes at 1..7. *)
Definition storeA : gmap positive Heap.Obj :=
  list_to_map
    [(1%positive, Heap.ONode (mkNode (Some 0%Z) (Some AND) VNull));
     (2%positive, Heap.ONode (mkNode (Some 1%Z) (Some AND) VNull));
     (3%positive, Heap.ONode (mkNode (Some 2%Z) None VNull));
     (4%positive, Heap.ONode (mkNode (Some 3%Z) (Some OR) (VBit One)));
     (5%positive, Heap.ONode (mkNode (Some 4%Z) None VNull));
     (6%positive, Heap.ONode (mkNode (Some 5%Z) None VNull));
     (7%positive, Heap.ONode (mkNode (Some 6%Z) None VNull));
     (8%positive, Heap.OArr [Some 1; Some 2; Some 3; Some 4; Some 5; Some 6;
                             Some 7]%positive)].

(** The empty board of a new match. *)
Definition newMatch : AppState :=
  mkApp true false INITIAL_BOARD bits1100
        (mkPlayers (mkPlayer [AND; AND; NOR]) (mkPlayer [OR; XOR; NAND]))
        P1 None (Some 0) false world0.

End Scenario.

(* ===================================================================== *)
(** ** services/logicService.ts: the helper [getValue] *)
(* ===================================================================== *)

Module LogicHelper.

(** [getValue], the recursive helper declared inside [evaluateBoard].  It
    calls itself on the children [nodeIndex * 2 + 1] and [nodeIndex * 2 + 2]
    of an inner node; [fuel] bounds the depth of these calls and [None] is
    "out of fuel".  Both children are evaluated before either is tested. *)
Fixpoint getValue (fuel : nat) (inputs : list Bit) (newNodes : Arr)
    (nodeIndex : nat) : option (Res Val) :=
  match fuel with
  | 0 => None
  | S fuel' =>
    match cellAt newNodes nodeIndex with
    | None => Some (Throw TypeError)
    | Some node =>
      match gate node with
      | None => Some (Ok VNull)
      | Some g =>
        if 3 <=? nodeIndex then
          let inputIndex := (nodeIndex - 3) * 2 in
          let valA := inputAt inputs inputIndex in
          let valB := inputAt inputs (inputIndex + 1) in
          Some (Ok (if notNull valA && notNull valB
                    then VBit (evaluateGate g valA valB) else VNull))
        else
          let child1 := nodeIndex * 2 + 1 in
          let child2 := nodeIndex * 2 + 2 in
          match getValue fuel' inputs newNodes child1 with
          | None => None
          | Some (Throw e) => Some (Throw e)
          | Some (Ok valA) =>
            match getValue fuel' inputs newNodes child2 with
            | None => None
            | Some (Throw e) => Some (Throw e)
            | Some (Ok valB) =>
              Some (Ok (if notNull valA && notNull valB
                        then VBit (evaluateGate g valA valB) else VNull))
            end
          end
      end
    end
  end.

End LogicHelper.

(* ===================================================================== *)
(** ** services/geminiService.ts: the fallback of [getAIMove] *)
(* ===================================================================== *)

Module GeminiService.

(** [board.filter(n => n.gate === null)] *)
Fixpoint emptySlots (board : Arr) : Res (list BoardNode) :=
  match board with
  | [] => Ok []
  | c :: rest =>
    g ← gateOf c;
    es ← emptySlots rest;
    match c, g with
    | Some n, None => Ok (n :: es)
    | _, _ => Ok es
    end
  end.

(** The [catch] block of [getAIMove], entered when the call to the model
    fails.  [coin] is [Math.random() < 0.1] and [pick] is
    [Math.floor(Math.random() * emptySlots.length)]; an exception in the
    block rejects the promise. *)
Definition getAIMoveFallback (board : Arr) (hand : list GateType)
    (coin : bool) (pick : nat) : AIReply :=
  match emptySlots board with
  | Throw _ => Rejected
  | Ok es =>
    if bool_decide (length es = 0) then Rejected
    else if coin then Returned (mkAIMove (Some "DISCARD"%string) None None)
    else
      match es !! pick with
      | None => Rejected
      | Some randomSlot =>
        let randomGate := hand !! 0 in
        Returned (mkAIMove (Some "PLACE"%string) (id randomSlot)
                           (gateName <$> randomGate))
      end
  end.

End GeminiService.

(* ===================================================================== *)
(** ** components/GameBoard.tsx and App.tsx: which slot a click reaches *)
(* ===================================================================== *)

Module GameBoard.

(** [isValidSlot = (id) => board[id].gate === null] (App.tsx); an
    [undefined] id indexes nothing. *)
Definition isValidSlot (board : Arr) (i : option Z) : Res bool :=
  match i with
  | None => Throw TypeError
  | Some z => g ← gateOf (cellAtZ board z); Ok (bool_decide (g = None))
  end.

(** [board.map(n => n.id)] *)
Fixpoint ids (board : Arr) : Res (list (option Z)) :=
  match board with
  | [] => Ok []
  | c :: rest =>
    match c with
    | None => Throw TypeError
    | Some n => r ← ids rest; Ok (id n :: r)
    end
  end.

(** [l.filter(isValidSlot)] *)
Fixpoint filterValid (board : Arr) (l : list (option Z)) : Res (list (option Z)) :=
  match l with
  | [] => Ok []
  | i :: rest =>
    v ← isValidSlot board i;
    r ← filterValid board rest;
    Ok (if v : bool then i :: r else r)
  end.

(** [validSlots={board.map(n => n.id).filter(isValidSlot)}] (App.tsx) *)
Definition validSlots (board : Arr) : Res (list (option Z)) :=
  l ← ids board; filterValid board l.

(** The [onClick] of the element drawn for [node]:
    [isValid && onSlotClick(node.id)] with
    [isValid = validSlots.includes(node.id)]. *)
Definition onNodeClick (cl : AppState) (node : BoardNode) : M unit :=
  vs ← lift (validSlots (board cl));
  if bool_decide (id node ∈ vs) then
    match id node with
    | Some z => handleSlotClick cl z
    | None => throw TypeError
    end
  else mret tt.

End GameBoard.

(* ===================================================================== *)
(** ** What a position of a running match looks like *)
(* ===================================================================== *)

Module Game.

(** [b[i].id] *)
Definition idAt (b : Arr) (i : nat) : option Z :=
  match cellAt b i with Some n => id n | None => None end.

(** Node [i] carries the id [i], as in [INITIAL_BOARD]. *)
Definition idsInPlace (b : Arr) : Prop :=
  forall i, i < BOARD_SIZE -> idAt b i = Some (Z.of_nat i).

(** The number of slots that hold a gate. *)
Definition gateCount (b : Arr) : nat := length (List.filter gateSet b).

(** [winner] and the board agree: no winner while a slot is empty; a
    winner only on a full board whose root shows the target bit of that
    player; never a draw. *)
Definition winnerFits (s : AppState) : Prop :=
  match winner s with
  | None => ~ full (board s)
  | Some (Win p) => full (board s) /\ valueAt (board s) 0 = VBit (targetValue p)
  | Some DRAW => False
  end.

Definition wellFormed (s : AppState) : Prop :=
  isBoard (board s)
  /\ idsInPlace (board s)
  /\ length (inputs s) = INITIAL_INPUTS_COUNT
  /\ length (handOf s P1) = 3
  /\ length (handOf s P2) = 3
  /\ boardLaw (inputs s) (board s)
  /\ winnerFits s.

(** What no handler but [startGame] writes, and what a move of player [p]
    leaves alone: the inputs, the two mode flags and the hand of the other
    player. *)
Definition sameSetting (p : PlayerId) (s s' : AppState) : Prop :=
  inputs s' = inputs s
  /\ gameStarted s' = gameStarted s
  /\ isAI s' = isAI s
  /\ handOf s' (other p) = handOf s (other p).

(** The gates of [b] are still on [b'], and at most one more. *)
Definition gatesKept (b b' : Arr) : Prop :=
  (forall i g, gateAt b i = Some g -> gateAt b' i = Some g)
  /\ gateCount b <= gateCount b' <= gateCount b + 1.

(** A slot argument a guarded caller hands to [executeMove]: a number only
    if it is an empty slot of the board. *)
Definition playable (b : Arr) (slot : option SlotKey) : Prop :=
  forall z, slot = Some (KNum z) ->
    (0 <= z < 7)%Z /\ gateAt b (Z.to_nat z) = None.

(** What a handler makes of [st]: [st] with another selection, or, with the
    winner unset, what one call of [executeMove] with a playable slot makes
    of it. *)
Definition moveOf (st st' : AppState) : Prop :=
  (exists sel, st' = withSelectedCardIndex sel st)
  \/ (winner st = None
      /\ exists a p slot g idx,
           playable (board st) slot
           /\ st' = snd (executeMove st a p slot g idx st)).

(** The next [n] bits of the oracle. *)
Definition drawnBits (w : World) (n : nat) : list Bit :=
  (fun k => rndBit w (tick w + k)) <$> seq 0 n.

(** The states of a match: what [startGame] leaves, and from there what
    the four handlers leave, each run from the state it closes over. *)
Inductive reachable : AppState -> Prop :=
| reach_start aiMode st0 : reachable (snd (startGame aiMode st0))
| reach_select st index :
    reachable st -> reachable (after (fun c => handleCardSelect c index) st)
| reach_click st z :
    reachable st -> reachable (after (fun c => handleSlotClick c z) st)
| reach_discard st :
    reachable st -> reachable (after handleDiscardHand st)
| reach_ai st reply :
    reachable st -> reachable (after (fun c => aiTurnEffect c reply) st).

End Game.

(* ===================================================================== *)
(** ** The evaluator *)
(* ===================================================================== *)

Section Evaluator.

Implicit Types (nodes b : Arr) (inputs : list Bit) (n : BoardNode).

Lemma slotsDefined_inv b :
  slotsDefined b ->
  exists n0 n1 n2 n3 n4 n5 n6 rest,
    b = Some n0 :: Some n1 :: Some n2 :: Some n3 :: Some n4 :: Some n5
        :: Some n6 :: rest.
Proof.
  intros [Hlen Hall].
  do 7 (destruct b as [|? b]; [simpl in Hlen; unfold BOARD_SIZE in Hlen; lia|]).
  simpl in Hall.
  repeat match goal with
         | H : Forall _ (_ :: _) |- _ => apply Forall_cons in H; destruct H as [[? ->] H]
         end.
  eauto 10.
Qed.

Lemma isBoard_inv b :
  isBoard b ->
  exists n0 n1 n2 n3 n4 n5 n6,
    b = [Some n0; Some n1; Some n2; Some n3; Some n4; Some n5; Some n6].
Proof.
  intros [Hlen Hdef].
  destruct (slotsDefined_inv b Hdef) as (n0&n1&n2&n3&n4&n5&n6&rest&->).
  destruct rest; [eauto 10 | simpl in Hlen; unfold BOARD_SIZE in Hlen; lia].
Qed.

Lemma loopBody_settle inputs i nodes n (va vb : Val) :
  cellAt nodes i = Some n ->
  operands inputs i nodes = Ok (va, vb) ->
  loopBody inputs i nodes
  = Ok (<[i := Some (withValue n (settle (gate n) va vb))]> nodes).
Proof.
  intros Hc Hop. unfold loopBody. rewrite Hc.
  destruct (gate n) as [g|]; simpl; [|done].
  rewrite Hop. simpl. by destruct (notNull va && notNull vb).
Qed.

(** The values [evaluateBoard] writes, slot by slot. *)
Lemma evaluateBoard_seven inputs n0 n1 n2 n3 n4 n5 n6 rest :
  let v6 := settle (gate n6) (inputAt inputs 6) (inputAt inputs 7) in
  let v5 := settle (gate n5) (inputAt inputs 4) (inputAt inputs 5) in
  let v4 := settle (gate n4) (inputAt inputs 2) (inputAt inputs 3) in
  let v3 := settle (gate n3) (inputAt inputs 0) (inputAt inputs 1) in
  let v2 := settle (gate n2) v5 v6 in
  let v1 := settle (gate n1) v3 v4 in
  let v0 := settle (gate n0) v1 v2 in
  evaluateBoard (Some n0 :: Some n1 :: Some n2 :: Some n3 :: Some n4
                 :: Some n5 :: Some n6 :: rest) inputs
  = Ok (Some (withValue n0 v0) :: Some (withValue n1 v1)
        :: Some (withValue n2 v2) :: Some (withValue n3 v3)
        :: Some (withValue n4 v4) :: Some (withValue n5 v5)
        :: Some (withValue n6 v6) :: rest).
Proof.
  intros. unfold evaluateBoard, BOARD_SIZE.
  cbn [loopFrom].
  erewrite (loopBody_settle inputs 6); [|reflexivity|reflexivity].
  cbn [mbind Res_bind]. 
  erewrite (loopBody_settle inputs 5); [|reflexivity|reflexivity].
  cbn [mbind Res_bind].
  erewrite (loopBody_settle inputs 4); [|reflexivity|reflexivity].
  cbn [mbind Res_bind].
  erewrite (loopBody_settle inputs 3); [|reflexivity|reflexivity].
  cbn [mbind Res_bind].
  erewrite (loopBody_settle inputs 2); [|reflexivity|reflexivity].
  cbn [mbind Res_bind].
  erewrite (loopBody_settle inputs 1); [|reflexivity|reflexivity].
  cbn [mbind Res_bind].
  erewrite (loopBody_settle inputs 0); [|reflexivity|reflexivity].
  reflexivity.
Qed.

Lemma notNull_inputAt inputs k : notNull (inputAt inputs k) = true.
Proof. unfold inputAt. by destruct (inputs !! k). Qed.

Lemma inputAt_bit inputs k :
  k < length inputs -> exists x, inputAt inputs k = VBit x.
Proof.
  intros Hk. unfold inputAt.
  destruct (lookup_lt_is_Some_2 inputs k Hk) as [x ->]. eauto.
Qed.

(** On bits, [evaluateGate] is the boolean table of the gate. *)
Lemma evaluateGate_table g x y :
  evaluateGate g (VBit x) (VBit y) = ofBool (gateTable g (toBool x) (toBool y)).
Proof. by destruct g, x, y. Qed.

Lemma settle_shape g va vb :
  settle g va vb = VNull \/ exists r, settle g va vb = VBit r.
Proof.
  destruct g as [t|]; simpl; [|by left].
  destruct (notNull va && notNull vb); eauto.
Qed.

Lemma settle_null g va vb :
  settle g va vb = VNull <-> g = None \/ va = VNull \/ vb = VNull.
Proof.
  destruct g as [t|]; simpl; [|by split; [left|]].
  destruct va, vb; simpl; split; intros H; try discriminate H; auto;
    destruct H as [H|[H|H]]; discriminate H.
Qed.

Lemma settle_bits g va vb :
  va <> VUndefined -> vb <> VUndefined ->
  settle g va vb <> VNull ->
  exists t x y, g = Some t /\ va = VBit x /\ vb = VBit y
    /\ settle g va vb = VBit (ofBool (gateTable t (toBool x) (toBool y))).
Proof.
  intros Ha Hb Hv.
  destruct g as [t|]; [|done].
  destruct va as [| |x]; [done|done|].
  destruct vb as [| |y]; [done|done|].
  exists t, x, y. simpl. by rewrite evaluateGate_table.
Qed.

Lemma settle_defined g va vb : settle g va vb <> VUndefined.
Proof. by destruct (settle_shape g va vb) as [->|[r ->]]. Qed.

Lemma everyGateSet_defined (l : Arr) :
  Forall is_Some l -> everyGateSet l = Ok (forallb gateSet l).
Proof.
  induction 1 as [|c l [n ->] Hl IH]; [done|].
  cbn [everyGateSet gateOf mbind Res_bind forallb gateSet].
  destruct (gate n) as [t|]; [by rewrite IH | done].
Qed.

Lemma full_seven n0 n1 n2 n3 n4 n5 n6 rest :
  full (Some n0 :: Some n1 :: Some n2 :: Some n3 :: Some n4 :: Some n5
        :: Some n6 :: rest)
  <-> forallb gateSet
        [Some n0; Some n1; Some n2; Some n3; Some n4; Some n5; Some n6] = true.
Proof.
  unfold full, BOARD_SIZE, gateAt. split.
  - intros H.
    pose proof (H 0 ltac:(lia)) as [? H0].
    pose proof (H 1 ltac:(lia)) as [? H1].
    pose proof (H 2 ltac:(lia)) as [? H2].
    pose proof (H 3 ltac:(lia)) as [? H3].
    pose proof (H 4 ltac:(lia)) as [? H4].
    pose proof (H 5 ltac:(lia)) as [? H5].
    pose proof (H 6 ltac:(lia)) as [? H6].
    simpl in *. by rewrite H0, H1, H2, H3, H4, H5, H6.
  - intros H i Hi. simpl in H.
    destruct (gate n0) eqn:E0, (gate n1) eqn:E1, (gate n2) eqn:E2,
      (gate n3) eqn:E3, (gate n4) eqn:E4, (gate n5) eqn:E5,
      (gate n6) eqn:E6; try discriminate H.
    do 7 (destruct i as [|i]; [simpl; by eauto|]). lia.
Qed.

Lemma settle_slotLaw g va vb (P : Prop) :
  va <> VUndefined -> vb <> VUndefined ->
  (P <-> va = VNull \/ vb = VNull) ->
  (settle g va vb = VNull <-> g = None \/ P)
  /\ (settle g va vb <> VNull ->
      exists t x y, g = Some t /\ (va, vb) = (VBit x, VBit y)
        /\ settle g va vb = VBit (ofBool (gateTable t (toBool x) (toBool y)))).
Proof.
  intros Ha Hb HP. split.
  - rewrite settle_null, HP. reflexivity.
  - intros Hv. destruct (settle_bits g va vb Ha Hb Hv) as (t&x&y&->&->&->&E).
    exists t, x, y. by rewrite E.
Qed.

(** [evaluateBoard] returns on every board that has its seven slots, keeps
    the gates and the length, and leaves every slot under [slotLaw]. *)
Lemma evaluateBoard_law b inputs :
  slotsDefined b -> length inputs = INITIAL_INPUTS_COUNT ->
  exists b',
    evaluateBoard b inputs = Ok b'
    /\ length b' = length b
    /\ slotsDefined b'
    /\ (forall i, gateAt b' i = gateAt b i)
    /\ boardLaw inputs b'.
Proof.
  intros Hb Hin.
  destruct (slotsDefined_inv b Hb) as (n0&n1&n2&n3&n4&n5&n6&rest&->).
  pose proof (evaluateBoard_seven inputs n0 n1 n2 n3 n4 n5 n6 rest) as He.
  cbv zeta in He. rewrite He. clear He.
  do 8 (destruct inputs as [|? inputs]; [discriminate Hin|]).
  destruct inputs; [|discriminate Hin]. clear Hin.
  change (inputAt [?x0; _; _; _; _; _; _; _] 0) with (VBit x0).
  change (inputAt [_; ?x1; _; _; _; _; _; _] 1) with (VBit x1).
  change (inputAt [_; _; ?x2; _; _; _; _; _] 2) with (VBit x2).
  change (inputAt [_; _; _; ?x3; _; _; _; _] 3) with (VBit x3).
  change (inputAt [_; _; _; _; ?x4; _; _; _] 4) with (VBit x4).
  change (inputAt [_; _; _; _; _; ?x5; _; _] 5) with (VBit x5).
  change (inputAt [_; _; _; _; _; _; ?x6; _] 6) with (VBit x6).
  change (inputAt [_; _; _; _; _; _; _; ?x7] 7) with (VBit x7).
  set (v6 := settle (gate n6) _ _). set (v5 := settle (gate n5) _ _).
  set (v4 := settle (gate n4) _ _). set (v3 := settle (gate n3) _ _).
  set (v2 := settle (gate n2) _ _). set (v1 := settle (gate n1) _ _).
  set (v0 := settle (gate n0) _ _).
  eexists. split; [reflexivity|]. split; [reflexivity|].
  split; [|split].
  - split; [simpl; unfold BOARD_SIZE; lia|].
    unfold BOARD_SIZE; cbn [take]. repeat constructor; eauto.
  - intros i. unfold gateAt.
    do 7 (destruct i as [|i]; [reflexivity|]). reflexivity.
  - intros i Hi. unfold BOARD_SIZE in Hi.
    unfold slotLaw, operandsOf, valueAt, gateAt.
    do 7 (destruct i as [|i];
          [cbn -[settle]; apply settle_slotLaw;
           first [ apply settle_defined | discriminate
                 | split; [intros [_ H]; exact H | intros H; split; [lia|exact H]]
                 | split; [intros [? _]; lia | intros [H|H]; discriminate H] ]
          |]).
    lia.
Qed.

Lemma evaluateBoard_total b inputs :
  slotsDefined b -> exists b', evaluateBoard b inputs = Ok b'.
Proof.
  intros Hb.
  destruct (slotsDefined_inv b Hb) as (n0&n1&n2&n3&n4&n5&n6&rest&->).
  rewrite evaluateBoard_seven. eauto.
Qed.

(** [evaluateBoard] returns only on a board that has its seven slots. *)
Lemma evaluateBoard_Ok_slots b inputs b' :
  evaluateBoard b inputs = Ok b' -> slotsDefined b.
Proof.
  intros He. unfold evaluateBoard, BOARD_SIZE in He.
  assert (Hstep : forall k (l l' : Arr),
             loopFrom inputs k l = Ok l' ->
             forall i, i < k -> is_Some (cellAt l i)).
  { induction k as [|k IH]; intros l l' Hl i Hi; [lia|].
    cbn [loopFrom] in Hl.
    destruct (loopBody inputs k l) as [l1|e] eqn:Hbody; [|discriminate Hl].
    cbn [mbind Res_bind] in Hl.
    assert (Hk : is_Some (cellAt l k)).
    { unfold loopBody in Hbody. destruct (cellAt l k); [eauto|discriminate]. }
    destruct (decide (i = k)) as [->|Hne]; [done|].
    assert (Hsame : cellAt l1 i = cellAt l i).
    { unfold loopBody in Hbody. destruct (cellAt l k) as [n|]; [|discriminate].
      unfold cellAt.
      destruct (gate n); simpl in Hbody.
      - destruct (operands inputs k l) as [[va vb]|]; [|discriminate].
        simpl in Hbody.
        destruct (notNull va && notNull vb); injection Hbody as <-;
          by rewrite list_lookup_insert_ne.
      - injection Hbody as <-. by rewrite list_lookup_insert_ne. }
    rewrite <- Hsame. apply (IH l1 l' Hl). lia. }
  pose proof (Hstep 7 b b' He) as Hall.
  split.
  - unfold BOARD_SIZE. destruct (Hall 6 ltac:(lia)) as [n Hn].
    unfold cellAt in Hn. destruct (b !! 6) eqn:E; [|discriminate Hn].
    apply lookup_lt_Some in E. lia.
  - apply Forall_lookup. intros i c Hc.
    apply lookup_take_Some in Hc as [Hc Hi].
    specialize (Hall i Hi). unfold cellAt in Hall. by rewrite Hc in Hall.
Qed.

Lemma evaluateBoard_idempotent b inputs b' :
  evaluateBoard b inputs = Ok b' -> evaluateBoard b' inputs = Ok b'.
Proof.
  intros He. pose proof (evaluateBoard_Ok_slots _ _ _ He) as Hb.
  destruct (slotsDefined_inv b Hb) as (n0&n1&n2&n3&n4&n5&n6&rest&->).
  rewrite evaluateBoard_seven in He. injection He as <-.
  by rewrite evaluateBoard_seven.
Qed.

Lemma evaluateBoard_keeps_slots b inputs b' :
  evaluateBoard b inputs = Ok b' ->
  slotsDefined b' /\ length b' = length b
  /\ (forall i, gateAt b' i = gateAt b i)
  /\ (forall i, BOARD_SIZE <= i -> cellAt b' i = cellAt b i).
Proof.
  intros He. pose proof (evaluateBoard_Ok_slots _ _ _ He) as Hb.
  destruct (slotsDefined_inv b Hb) as (n0&n1&n2&n3&n4&n5&n6&rest&->).
  rewrite evaluateBoard_seven in He. injection He as <-.
  split; [|split; [reflexivity|split]].
  - split; [simpl; unfold BOARD_SIZE; lia|].
    unfold BOARD_SIZE; cbn [take]. repeat constructor; eauto.
  - intros i. unfold gateAt.
    do 7 (destruct i as [|i]; [reflexivity|]). reflexivity.
  - intros i Hi. unfold BOARD_SIZE in Hi.
    do 7 (destruct i as [|i]; [lia|]). reflexivity.
Qed.

(** Boards that differ only in their value fields evaluate alike. *)
Lemma evaluateBoard_values_irrelevant b1 b2 inputs :
  isBoard b1 -> sameGates b1 b2 ->
  evaluateBoard b1 inputs = evaluateBoard b2 inputs.
Proof.
  intros Hb Hs.
  destruct (isBoard_inv b1 Hb) as (n0&n1&n2&n3&n4&n5&n6&->).
  unfold sameGates in Hs.
  repeat match goal with
         | H : Forall2 _ (_ :: _) _ |- _ =>
             let c := fresh "c" in let Hc := fresh "Hc" in
             apply Forall2_cons_inv_l in H; destruct H as (c & ? & Hc & H & ->);
             destruct c as [[? ? ?]|]; [destruct Hc as [? ?]|destruct Hc]
         end.
  apply Forall2_nil_inv_l in Hs as ->.
  rewrite !evaluateBoard_seven.
  destruct n0, n1, n2, n3, n4, n5, n6. simpl in *. by simplify_eq.
Qed.

End Evaluator.

(* ===================================================================== *)
(** ** Win detection *)
(* ===================================================================== *)

Section WinCondition.

Ltac explicit_board H :=
  let n0 := fresh "n0" in let n1 := fresh "n1" in let n2 := fresh "n2" in
  let n3 := fresh "n3" in let n4 := fresh "n4" in let n5 := fresh "n5" in
  let n6 := fresh "n6" in
  destruct (isBoard_inv _ H) as (n0&n1&n2&n3&n4&n5&n6&->).

Lemma checkWinCondition_seven n0 n1 n2 n3 n4 n5 n6 :
  let nodes := [Some n0; Some n1; Some n2; Some n3; Some n4; Some n5; Some n6] in
  checkWinCondition nodes
  = if forallb gateSet nodes
    then Ok (Some (match value n0 with
                   | VBit One => Win P1
                   | VBit Zero => Win P2
                   | _ => DRAW
                   end))
    else Ok None.
Proof.
  intros nodes. unfold checkWinCondition.
  rewrite everyGateSet_defined by (repeat constructor; eauto).
  cbn [mbind Res_bind]. destruct (forallb gateSet nodes); [|done].
  subst nodes. cbn. by destruct (value n0) as [| |[|]].
Qed.

Lemma checkWinCondition_gap (nodes : Arr) :
  isBoard nodes ->
  (exists i, i < BOARD_SIZE /\ gateAt nodes i = None) ->
  checkWinCondition nodes = Ok None.
Proof.
  intros Hb (i & Hi & Hnone). explicit_board Hb.
  pose proof (checkWinCondition_seven n0 n1 n2 n3 n4 n5 n6) as Hw.
  cbv zeta in Hw. rewrite Hw. clear Hw.
  destruct (forallb gateSet _) eqn:Hall; [|done].
  apply (full_seven _ _ _ _ _ _ _ []) in Hall.
  destruct (Hall i Hi) as [g Hg]. congruence.
Qed.

(** C6.  [checkWinCondition] reports no winner as soon as one of the seven
    slots has no gate; on a board whose seven slots all have a gate it
    returns P1 exactly when the root value is 1 and P2 exactly when the
    root value is 0. *)
Theorem checkWinCondition_decides (nodes : Arr) :
  isBoard nodes ->
  ((exists i, i < BOARD_SIZE /\ gateAt nodes i = None) ->
     checkWinCondition nodes = Ok None)
  /\ (full nodes ->
      (checkWinCondition nodes = Ok (Some (Win P1)) <-> valueAt nodes 0 = VBit One)
      /\ (checkWinCondition nodes = Ok (Some (Win P2)) <-> valueAt nodes 0 = VBit Zero)).
Proof.
  intros Hb. explicit_board Hb.
  pose proof (checkWinCondition_seven n0 n1 n2 n3 n4 n5 n6) as Hw.
  cbv zeta in Hw.
  split.
  - intros Hgap. by apply checkWinCondition_gap.
  - rewrite Hw. intros Hf. apply full_seven in Hf. rewrite Hf.
    unfold valueAt. cbn.
    destruct (value n0) as [| |[|]]; split; split; congruence.
Qed.

(** C7.  On a board whose seven gates are all set, with any 8-bit input
    vector, [evaluateBoard] returns and the root value is 0 or 1, never
    unset; [checkWinCondition] then names a winner and its [DRAW] branch
    is not taken. *)
Theorem full_board_root_is_bit (b : Arr) (inputs : list Bit) :
  isBoard b -> full b -> length inputs = INITIAL_INPUTS_COUNT ->
  exists b' r,
    evaluateBoard b inputs = Ok b'
    /\ valueAt b' 0 = VBit r
    /\ checkWinCondition b'
       = Ok (Some (Win (match r with One => P1 | Zero => P2 end)))
    /\ checkWinCondition b' <> Ok (Some DRAW).
Proof.
  intros Hb Hfull _. explicit_board Hb.
  apply full_seven in Hfull.
  pose proof (evaluateBoard_seven inputs n0 n1 n2 n3 n4 n5 n6 []) as He.
  cbv zeta in He. rewrite He. clear He.
  destruct n0 as [i0 [g0|] w0], n1 as [i1 [g1|] w1], n2 as [i2 [g2|] w2],
    n3 as [i3 [g3|] w3], n4 as [i4 [g4|] w4], n5 as [i5 [g5|] w5],
    n6 as [i6 [g6|] w6]; try discriminate Hfull.
  cbn [gate settle]. rewrite !notNull_inputAt. cbn [andb notNull].
  eexists _, _. split; [reflexivity|].
  split; [reflexivity|].
  pose proof (checkWinCondition_seven) as Hw. cbv zeta in Hw.
  rewrite Hw. cbn.
  by destruct (evaluateGate g0 _ _).
Qed.

Lemma full_boardFull : full Scenario.boardFull.
Proof.
  intros i Hi. unfold BOARD_SIZE in Hi.
  do 7 (destruct i as [|i]; [by eexists|]). lia.
Qed.

Lemma checkWinCondition_decides_witness :
  checkWinCondition Scenario.boardFull = Ok (Some (Win P1))
  <-> valueAt Scenario.boardFull 0 = VBit One.
Proof.
  refine (proj1 (proj2 (checkWinCondition_decides Scenario.boardFull _) _)).
  - apply (bool_decide_unpack _); vm_compute; exact I.
  - apply full_boardFull.
Defined.

Lemma full_board_root_is_bit_witness :
  exists b' r,
    evaluateBoard Scenario.boardFull Scenario.bits1010 = Ok b'
    /\ valueAt b' 0 = VBit r
    /\ checkWinCondition b'
       = Ok (Some (Win (match r with One => P1 | Zero => P2 end)))
    /\ checkWinCondition b' <> Ok (Some DRAW).
Proof.
  apply (full_board_root_is_bit Scenario.boardFull Scenario.bits1010).
  - apply (bool_decide_unpack _); vm_compute; exact I.
  - apply full_boardFull.
  - reflexivity.
Defined.

End WinCondition.

(* ===================================================================== *)
(** ** The scenarios of the specification, run on the code *)
(* ===================================================================== *)

(** Empty board, inputs 1,1,0,0,1,1,0,0: AND on slot 3 gives value 1, AND on
    slot 4 gives value 0, the root stays unset and there is no winner. *)
Example scenario_two_leaves :
  let b1 := storeGate INITIAL_BOARD (KNum 3) AND in
  exists e1 e2,
    evaluateBoard b1 Scenario.bits1100 = Ok e1
    /\ valueAt e1 3 = VBit One
    /\ evaluateBoard (storeGate e1 (KNum 4) AND) Scenario.bits1100 = Ok e2
    /\ valueAt e2 4 = VBit Zero
    /\ valueAt e2 0 = VNull
    /\ checkWinCondition e2 = Ok None.
Proof. eexists _, _. repeat split; reflexivity. Qed.

(** Slots 3..6 OR on inputs 1,0,1,0,1,0,1,0, slot 1 AND, slot 2 NAND, then
    XOR on slot 0: the root is 1 and P1 wins; the turn stays with P1. *)
Example scenario_last_gate :
  let st' := after (fun c => handleSlotClick c 0) Scenario.lastMove in
  valueAt (board st') 0 = VBit One
  /\ valueAt (board st') 2 = VBit Zero
  /\ winner st' = Some (Win P1)
  /\ turn st' = P1.
Proof. repeat split; reflexivity. Qed.



(* ===================================================================== *)
(** ** [executeMove], path by path *)
(* ===================================================================== *)

Section ExecuteMove.

Local Arguments evaluateBoard : simpl never.
Local Arguments checkWinCondition : simpl never.
Local Arguments storeGate : simpl never.
Local Arguments cellAt : simpl never.

Lemma withWorld_advance_0 s : withWorld (advance 0 (world s)) s = s.
Proof.
  destruct s as [? ? ? ? ? ? ? ? ? [rg rb t]]. unfold withWorld, advance.
  simpl. by rewrite Nat.add_0_r.
Qed.

Ltac runM :=
  unfold mbind, M_bind, mret, M_ret, lift, throw, endOfTurn, setIsThinking,
    setBoard, setPlayers, setTurn, setWinner, setSelectedCardIndex;
  cbn beta iota zeta.

Lemma pushRandom_eq n h s :
  pushRandom n h s
  = (Ok (h ++ drawn (world s) n), withWorld (advance n (world s)) s).
Proof.
  revert h s. induction n as [|n IH]; intros h s.
  - cbn. by rewrite app_nil_r, withWorld_advance_0.
  - cbn [pushRandom]. runM. unfold getRandomGate. cbn beta iota zeta.
    rewrite IH.
    unfold drawn, advance, withWorld, nextDraw. cbn [seq fmap list_fmap].
    cbn. rewrite <- app_assoc. cbn.
    rewrite Nat.add_0_r, <- (fmap_S_seq 0), <- list_fmap_compose.
    rewrite <- Nat.add_succ_r. do 4 f_equal.
    apply list_fmap_ext. intros ? k _. cbn. f_equal. lia.
Qed.

Lemma executeMove_discard cl p slot g idx s :
  is_Some (cellAt (board cl) 0) ->
  executeMove cl DISCARD p slot g idx s
  = (Ok tt,
     let s1 := withIsThinking true s in
     endedTurn p
       (withPlayers (withHand (players s1) p (drawn (world s1) 3))
          (withWorld (advance 3 (world s1)) s1))).
Proof.
  intros [n Hn]. unfold executeMove. runM. rewrite Hn. cbn [valueOf].
  unfold freshHand, INITIAL_HAND_SIZE. rewrite pushRandom_eq. reflexivity.
Qed.

Lemma slotsDefined_root b : slotsDefined b -> is_Some (cellAt b 0).
Proof.
  intros Hb. destruct (slotsDefined_inv b Hb) as (n0&?&?&?&?&?&?&?&->).
  by exists n0.
Qed.

Lemma executeMove_place_win cl p k t i s eb w :
  is_Some (cellAt (board cl) 0) ->
  evaluateBoard (storeGate (board cl) k t) (inputs cl) = Ok eb ->
  checkWinCondition eb = Ok (Some w) ->
  executeMove cl PLACE p (Some k) (Some t) (Some i) s
  = (Ok tt,
     withIsThinking false
       (withWinner (Some w) (withBoard eb (withIsThinking true s)))).
Proof.
  intros [n Hn] He Hw.
  destruct (slotsDefined_root eb) as [n' Hn'];
    [by apply (evaluateBoard_keeps_slots _ _ _ He)|].
  unfold executeMove. runM. rewrite Hn. cbn [valueOf].
  rewrite He. cbn beta iota. rewrite Hn'. cbn [valueOf]. rewrite Hw.
  reflexivity.
Qed.

Lemma executeMove_place_on cl p k t i s eb :
  is_Some (cellAt (board cl) 0) ->
  evaluateBoard (storeGate (board cl) k t) (inputs cl) = Ok eb ->
  checkWinCondition eb = Ok None ->
  executeMove cl PLACE p (Some k) (Some t) (Some i) s
  = (Ok tt,
     let s2 := withBoard eb (withIsThinking true s) in
     let h := delete i (handOf cl p) in
     endedTurn p
       (withPlayers
          (withHand (players s2) p (h ++ drawn (world s2) (3 - length h)))
          (withWorld (advance (3 - length h) (world s2)) s2))).
Proof.
  intros [n Hn] He Hw.
  destruct (slotsDefined_root eb) as [n' Hn'];
    [by apply (evaluateBoard_keeps_slots _ _ _ He)|].
  unfold executeMove. runM. rewrite Hn. cbn [valueOf].
  rewrite He. cbn beta iota. rewrite Hn'. cbn [valueOf]. rewrite Hw.
  cbn beta iota. unfold refill. rewrite pushRandom_eq. reflexivity.
Qed.

(** [PLACE] without a slot, a gate or a hand index: neither branch is
    taken and only the end of turn runs. *)
Lemma executeMove_place_missing cl p slot g idx s :
  is_Some (cellAt (board cl) 0) ->
  slot = None \/ g = None \/ idx = None ->
  executeMove cl PLACE p slot g idx s
  = (Ok tt, endedTurn p (withIsThinking true s)).
Proof.
  intros [n Hn] Hmiss. unfold executeMove. runM. rewrite Hn. cbn [valueOf].
  destruct slot, g, idx; try reflexivity.
  destruct Hmiss as [?|[?|?]]; discriminate.
Qed.

Lemma storeGate_slotsDefined b k t :
  slotsDefined b -> slotsDefined (storeGate b k t).
Proof.
  intros Hb. destruct k as [z|g]; [|done]. unfold storeGate.
  destruct (decide (0 <= z)%Z); [|done].
  destruct (slotsDefined_inv b Hb) as (n0&n1&n2&n3&n4&n5&n6&rest&->).
  unfold arrayStore.
  destruct (decide (Z.to_nat z < _)) as [Hlt|Hge].
  - split; [rewrite length_insert; simpl; unfold BOARD_SIZE; lia|].
    unfold BOARD_SIZE.
    destruct (Z.to_nat z) as [|[|[|[|[|[|[|m]]]]]]];
      cbn [take insert list_insert]; repeat constructor; eauto.
  - destruct (decide (Z.of_nat (Z.to_nat z) < 4294967295)%Z); [|exact Hb].
    split; [rewrite length_app; simpl; unfold BOARD_SIZE; lia|].
    unfold BOARD_SIZE. cbn [take app]. repeat constructor; eauto.
Qed.

(** An index in [0,6] on a seven-slot board: the slot takes the gate and
    nothing else changes. *)
Lemma storeGate_in_range b z t :
  isBoard b -> (0 <= z < 7)%Z ->
  isBoard (storeGate b (KNum z) t)
  /\ gateAt (storeGate b (KNum z) t) (Z.to_nat z) = Some t
  /\ (forall i, i <> Z.to_nat z ->
        cellAt (storeGate b (KNum z) t) i = cellAt b i).
Proof.
  intros Hb Hz. destruct (isBoard_inv b Hb) as (n0&n1&n2&n3&n4&n5&n6&->).
  unfold storeGate, arrayStore.
  destruct (decide (0 <= z)%Z); [|lia].
  assert (Hn : Z.to_nat z < 7) by lia.
  destruct (decide (Z.to_nat z < _)) as [_|Hge]; [|simpl in Hge; lia].
  split; [|split].
  - split; [by rewrite length_insert|].
    pose proof (storeGate_slotsDefined _ (KNum z) t (proj2 Hb)) as Hs.
    unfold storeGate, arrayStore in Hs.
    destruct (decide (0 <= z)%Z); [|lia].
    destruct (decide (Z.to_nat z < _)) as [_|Hge]; [|simpl in Hge; lia].
    exact Hs.
  - unfold gateAt, cellAt. rewrite list_lookup_insert_eq by (simpl; lia).
    cbn. by destruct (default None _).
  - intros i Hi. unfold cellAt. by rewrite list_lookup_insert_ne.
Qed.

Lemma checkWinCondition_total b :
  isBoard b -> exists w, checkWinCondition b = Ok w.
Proof.
  intros Hb. destruct (isBoard_inv b Hb) as (n0&n1&n2&n3&n4&n5&n6&->).
  pose proof (checkWinCondition_seven n0 n1 n2 n3 n4 n5 n6) as Hw.
  cbv zeta in Hw. rewrite Hw. destruct (forallb _ _); eauto.
Qed.

(** A placement with a slot index in [0,6] on a seven-slot board, whatever
    the winner, the slot and the hand hold: it returns, the board is the
    evaluation of the board with the gate stored, and it ends on one of
    the two paths. *)
Lemma executeMove_place_in_range cl p z t i s :
  isBoard (board cl) -> (0 <= z < 7)%Z ->
  exists eb,
    evaluateBoard (storeGate (board cl) (KNum z) t) (inputs cl) = Ok eb
    /\ isBoard eb
    /\ gateAt eb (Z.to_nat z) = Some t
    /\ (forall j, j <> Z.to_nat z -> gateAt eb j = gateAt (board cl) j)
    /\ ((exists w, checkWinCondition eb = Ok (Some w)
          /\ executeMove cl PLACE p (Some (KNum z)) (Some t) (Some i) s
             = (Ok tt,
                withIsThinking false
                  (withWinner (Some w) (withBoard eb (withIsThinking true s)))))
        \/ (checkWinCondition eb = Ok None
            /\ executeMove cl PLACE p (Some (KNum z)) (Some t) (Some i) s
               = (Ok tt,
                  let s2 := withBoard eb (withIsThinking true s) in
                  let h := delete i (handOf cl p) in
                  endedTurn p
                    (withPlayers
                       (withHand (players s2) p
                          (h ++ drawn (world s2) (3 - length h)))
                       (withWorld (advance (3 - length h) (world s2)) s2))))).
Proof.
  intros Hb Hz.
  destruct (storeGate_in_range _ z t Hb Hz) as (Hnb & Hgate & Hother).
  destruct (evaluateBoard_total _ (inputs cl) (proj2 Hnb)) as [eb He].
  destruct (evaluateBoard_keeps_slots _ _ _ He) as (Hs & Hlen & Hg & _).
  assert (Heb : isBoard eb).
  { split; [|done]. rewrite Hlen. apply Hnb. }
  pose proof (slotsDefined_root _ (proj2 Hb)) as Hroot.
  exists eb. split; [done|]. split; [done|].
  split; [by rewrite Hg|].
  split.
  { intros j Hj. rewrite Hg. unfold gateAt. by rewrite Hother. }
  destruct (checkWinCondition_total eb Heb) as [[w|] Hw].
  - left. exists w. split; [done|]. by apply executeMove_place_win.
  - right. split; [done|]. by apply executeMove_place_on.
Qed.

(** Once [evaluateBoard] has returned, its result is the board of the state,
    however the call ends. *)
Lemma executeMove_place_board cl p k t i s eb :
  is_Some (cellAt (board cl) 0) ->
  evaluateBoard (storeGate (board cl) k t) (inputs cl) = Ok eb ->
  board (snd (executeMove cl PLACE p (Some k) (Some t) (Some i) s)) = eb.
Proof.
  intros [n Hn] He. unfold executeMove. runM. rewrite Hn. cbn [valueOf].
  rewrite He. cbn beta iota.
  destruct (valueOf (cellAt eb 0)) as [v'|e]; [|done].
  destruct (checkWinCondition eb) as [[w|]|e]; [done| |done].
  cbn beta iota. unfold refill. by rewrite pushRandom_eq.
Qed.

(** A number of 2^32 - 1 or more is no array index: the gate goes to a
    property that the copy made by [evaluateBoard] leaves behind. *)
Lemma storeGate_no_index b z t :
  isBoard b -> (4294967295 <= z)%Z -> storeGate b (KNum z) t = b.
Proof.
  intros [Hlen _] Hz. unfold storeGate, arrayStore, BOARD_SIZE in *.
  destruct (decide (0 <= z)%Z); [|lia].
  destruct (decide (Z.to_nat z < length b)); [lia|].
  destruct (decide (Z.of_nat (Z.to_nat z) < 4294967295)%Z); [lia|done].
Qed.

Lemma storeGate_beyond b z t :
  isBoard b -> (7 <= z < 4294967295)%Z ->
  length (storeGate b (KNum z) t) = Z.to_nat z + 1
  /\ gateAt (storeGate b (KNum z) t) (Z.to_nat z) = Some t.
Proof.
  intros [Hlen _] Hz. unfold storeGate, arrayStore, BOARD_SIZE in *.
  destruct (decide (0 <= z)%Z); [|lia].
  destruct (decide (Z.to_nat z < length b)); [lia|].
  destruct (decide (Z.of_nat (Z.to_nat z) < 4294967295)%Z); [|lia].
  split.
  - rewrite !length_app, length_replicate. simpl. lia.
  - unfold gateAt, cellAt.
    rewrite lookup_app_r by lia. rewrite lookup_app_r by (rewrite length_replicate; lia).
    rewrite length_replicate.
    replace (Z.to_nat z - length b - (Z.to_nat z - length b)) with 0 by lia.
    cbn. unfold withGate. rewrite lookup_ge_None_2 by lia. done.
Qed.

(** C5 (as amended).  [executeMove] checks none of the preconditions of
    a placement and has no InvalidMove failure: with a slot index in [0,6]
    on a seven-slot board it returns normally and leaves the slot holding
    the given gate, the other gates as they were -- whether or not the
    winner is already set, the slot is occupied or the gate is in the
    hand.  A slot index off the board is not rejected either: with a
    negative one the call returns and no slot changes its gate; with one
    from 7 up to 2^32 - 2 the board array of the state grows to hold the
    gate at that index; with one of 2^32 - 1 or more, which is no array
    index, the call returns, the board keeps its seven slots and no slot
    changes its gate. *)
Theorem executeMove_checks_nothing cl p z t i :
  isBoard (board cl) ->
  let r := executeMove cl PLACE p (Some (KNum z)) (Some t) (Some i) cl in
  ((0 <= z < 7)%Z ->
     fst r = Ok tt
     /\ gateAt (board (snd r)) (Z.to_nat z) = Some t
     /\ (forall j, j <> Z.to_nat z ->
           gateAt (board (snd r)) j = gateAt (board cl) j))
  /\ ((z < 0)%Z ->
      fst r = Ok tt
      /\ forall j, gateAt (board (snd r)) j = gateAt (board cl) j)
  /\ ((7 <= z < 4294967295)%Z ->
      length (board (snd r)) = Z.to_nat z + 1
      /\ gateAt (board (snd r)) (Z.to_nat z) = Some t)
  /\ ((4294967295 <= z)%Z ->
      fst r = Ok tt
      /\ length (board (snd r)) = BOARD_SIZE
      /\ forall j, gateAt (board (snd r)) j = gateAt (board cl) j).
Proof.
  intros Hb r.
  assert (Hsame : storeGate (board cl) (KNum z) t = board cl ->
            fst r = Ok tt
            /\ length (board (snd r)) = BOARD_SIZE
            /\ forall j, gateAt (board (snd r)) j = gateAt (board cl) j).
  { intros Hst.
    destruct (evaluateBoard_total _ (inputs cl) (proj2 Hb)) as [eb He].
    destruct (evaluateBoard_keeps_slots _ _ _ He) as (Hs & Hlen & Hg & _).
    assert (Heb : isBoard eb).
    { split; [|done]. rewrite Hlen. apply Hb. }
    pose proof (slotsDefined_root _ (proj2 Hb)) as Hroot.
    rewrite <- Hst in He.
    destruct (checkWinCondition_total eb Heb) as [[w|] Hw]; subst r.
    + rewrite (executeMove_place_win _ _ _ _ _ _ eb w) by done.
      split; [done|]. split; [apply Heb|done].
    + rewrite (executeMove_place_on _ _ _ _ _ _ eb) by done.
      split; [done|]. split; [apply Heb|done]. }
  split; [|split; [|split]].
  - intros Hz.
    destruct (executeMove_place_in_range cl p z t i cl Hb Hz)
      as (eb & He & Heb & Hg & Hother & [(w & Hw & Hr)|[Hw Hr]]);
      subst r; rewrite Hr; done.
  - intros Hz.
    assert (Hst : storeGate (board cl) (KNum z) t = board cl).
    { unfold storeGate. destruct (decide (0 <= z)%Z); [lia|done]. }
    destruct (Hsame Hst) as (? & _ & ?). by split.
  - intros Hz.
    destruct (storeGate_beyond _ z t Hb Hz) as [Hlen Hgate].
    destruct (evaluateBoard_total _ (inputs cl)
                (storeGate_slotsDefined _ (KNum z) t (proj2 Hb))) as [eb He].
    destruct (evaluateBoard_keeps_slots _ _ _ He) as (_ & Hlen' & Hg & _).
    subst r. rewrite (executeMove_place_board _ _ _ _ _ _ eb);
      [|by apply slotsDefined_root, Hb|done].
    by rewrite Hlen', Hg.
  - intros Hz. apply Hsame. by apply storeGate_no_index.
Qed.

Lemma executeMove_checks_nothing_witness :
  isBoard (board Scenario.finished)
  /\ fst (executeMove Scenario.finished PLACE P2 (Some (KNum 3)) (Some AND)
            (Some 0) Scenario.finished) = Ok tt.
Proof.
  assert (H : isBoard (board Scenario.finished))
    by (apply (bool_decide_unpack _); vm_compute; exact I).
  split; [exact H|].
  apply (proj1 (executeMove_checks_nothing Scenario.finished P2 3 AND 0 H)).
  lia.
Defined.

(** C5, as stated, fails: on the finished game (winner set), with slot 3
    occupied and AND not in the hand of P2, [executeMove] raises nothing
    and overwrites the gate of slot 3. *)
Lemma executeMove_no_InvalidMove :
  ~ (forall cl p z t i,
       winner cl <> None
       \/ ~ (0 <= z <= 6)%Z
       \/ is_Some (gateAt (board cl) (Z.to_nat z))
       \/ t ∉ handOf cl p ->
       let r := executeMove cl PLACE p (Some (KNum z)) (Some t) (Some i) cl in
       (exists e, fst r = Throw e) /\ snd r = cl).
Proof.
  intros H.
  assert (Hset : winner Scenario.finished <> None) by discriminate.
  destruct (H Scenario.finished P2 3%Z AND 0 (or_introl Hset)) as [[e He] _].
  vm_compute in He. discriminate He.
Qed.

Lemma handOf_withHand ps p h q s :
  players s = withHand ps p h ->
  handOf s q = if decide (q = p) then h else hand (getPlayer ps q).
Proof.
  intros E. unfold handOf. rewrite E. by destruct p, q.
Qed.

(** C3 (as amended).  A placement (slot index in [0,6], winner unset, the
    card at the played index of a 3-card hand) leaves the hand of the
    acting player at exactly 3 cards and the other hand untouched; when it
    does not set the winner, the card at the played index is removed and
    one freshly drawn gate is appended; when it sets the winner, the hand
    is left as it was. *)
Theorem placement_keeps_hand_at_three cl p z t i :
  isBoard (board cl) -> (0 <= z < 7)%Z -> winner cl = None ->
  length (handOf cl p) = 3 -> handOf cl p !! i = Some t ->
  let st' := after (fun c => executeMove c PLACE p (Some (KNum z)) (Some t) (Some i)) cl in
  length (handOf st' p) = 3
  /\ handOf st' (other p) = handOf cl (other p)
  /\ (winner st' = None ->
      handOf st' p
      = delete i (handOf cl p) ++ [rndGate (world cl) (tick (world cl))])
  /\ (winner st' <> None -> handOf st' p = handOf cl p).
Proof.
  intros Hb Hz Hnone Hlen Hcard st'. subst st'. unfold after.
  assert (Hi : i < 3) by (rewrite <- Hlen; by eapply lookup_lt_Some).
  assert (Hdel : length (delete i (handOf cl p)) = 2).
  { rewrite length_delete by eauto. lia. }
  destruct (executeMove_place_in_range cl p z t i cl Hb Hz)
    as (eb & He & Heb & Hg & Hother & [(w & Hw & Hr)|[Hw Hr]]); rewrite Hr.
  - cbn. split; [done|]. split; [done|]. split; [done|]. done.
  - cbv zeta. rewrite Hdel. cbn [snd].
    set (h' := delete i (handOf cl p) ++ _).
    assert (Hh : h' = delete i (handOf cl p) ++ [rndGate (world cl) (tick (world cl))]).
    { subst h'. unfold drawn. cbn. by rewrite Nat.add_0_r. }
    split; [|split; [|split]].
    + erewrite handOf_withHand by reflexivity.
      rewrite decide_True by done. rewrite Hh, length_app, Hdel. done.
    + erewrite handOf_withHand by reflexivity.
      rewrite decide_False by (by destruct p). done.
    + intros _. erewrite handOf_withHand by reflexivity.
      rewrite decide_True by done. exact Hh.
    + intros Hset. cbn in Hset. congruence.
Qed.

Lemma placement_keeps_hand_at_three_witness :
  length (handOf (after (fun c => executeMove c PLACE P1 (Some (KNum 0))
                                   (Some XOR) (Some 0)) Scenario.lastMove) P1)
  = 3.
Proof.
  apply (placement_keeps_hand_at_three Scenario.lastMove P1 0 XOR 0).
  - apply (bool_decide_unpack _); vm_compute; exact I.
  - lia.
  - reflexivity.
  - reflexivity.
  - reflexivity.
Defined.

(** C3, as stated, fails on the placement that fills the last empty slot:
    XOR played from [XOR, AND, OR] onto slot 0 of [Scenario.boardLast]
    sets the winner and the hand stays [XOR, AND, OR]; no card has been
    removed and none drawn. *)
Lemma winning_placement_keeps_the_card :
  ~ (forall cl p z t i,
       isBoard (board cl) -> (0 <= z < 7)%Z -> winner cl = None ->
       gateAt (board cl) (Z.to_nat z) = None ->
       length (handOf cl p) = 3 -> handOf cl p !! i = Some t ->
       let st' := after (fun c => executeMove c PLACE p (Some (KNum z)) (Some t) (Some i)) cl in
       exists fresh, handOf st' p = delete i (handOf cl p) ++ [fresh]).
Proof.
  intros H.
  destruct (H Scenario.lastMove P1 0%Z XOR 0) as [fresh Hf];
    try reflexivity; try lia.
  - apply (bool_decide_unpack _); vm_compute; exact I.
  - vm_compute in Hf. discriminate Hf.
Qed.

(** Whatever its arguments, [executeMove] either leaves [winner] as it
    was or leaves [turn] as it was: the branch that sets the winner returns
    before the end-of-turn writes. *)
Lemma executeMove_winner_or_turn cl a p slot g idx s :
  let st' := snd (executeMove cl a p slot g idx s) in
  winner st' = winner s \/ turn st' = turn s.
Proof.
  unfold executeMove. runM.
  destruct (valueOf (cellAt (board cl) 0)) as [v|e]; [|by left].
  destruct a; [|by left].
  destruct slot as [k|], g as [t|], idx as [i|]; try (by left).
  destruct (evaluateBoard _ _) as [eb|e]; [|by left].
  cbn beta iota.
  destruct (valueOf (cellAt eb 0)) as [v'|e]; [|by left].
  destruct (checkWinCondition eb) as [[w|]|e]; [by right| |by left].
  cbn beta iota. unfold refill. rewrite pushRandom_eq. by left.
Qed.

(** C10.  Once [winner] is set, a slot click, a discard, a card selection
    and the AI turn effect all return without writing anything: the state
    (board, hands, current player) stays as it is; only [startGame] clears
    the winner.  And the placement that sets the winner leaves [turn] on
    the player who made it. *)
Theorem winner_is_terminal :
  (forall st, winner st <> None ->
     (forall slotId, handleSlotClick st slotId st = (Ok tt, st))
     /\ handleDiscardHand st st = (Ok tt, st)
     /\ (forall index, handleCardSelect st index st = (Ok tt, st))
     /\ (forall reply, aiTurnEffect st reply st = (Ok tt, st)))
  /\ (forall st aiMode, winner (snd (startGame aiMode st)) = None)
  /\ (forall cl p slot g idx,
        let st' := after (fun c => executeMove c PLACE p slot g idx) cl in
        winner cl = None -> winner st' <> None -> turn st' = turn cl).
Proof.
  split; [|split].
  - intros st Hw. destruct (winner st) as [w|] eqn:E; [clear Hw|done].
    unfold handleSlotClick, handleDiscardHand, handleCardSelect, aiTurnEffect.
    rewrite E. cbn [isSet orb negb andb].
    rewrite andb_false_r. cbn [andb]. done.
  - intros st aiMode. unfold startGame. runM.
    unfold setIsAI, setInputs, setGameStarted, generateInputs, freshHand.
    cbn beta iota zeta.
    assert (Hbits : forall n l s, exists l' s', pushBits n l s = (Ok l', s')).
    { induction n as [|n IH]; intros l s; cbn [pushBits]; [by eexists _, _|].
      runM. unfold randomBit. cbn beta iota zeta. apply IH. }
    destruct (Hbits INITIAL_INPUTS_COUNT [] (withBoard INITIAL_BOARD (withIsAI aiMode st)))
      as (l' & s' & ->).
    cbn beta iota. rewrite !pushRandom_eq. reflexivity.
  - intros cl p slot g idx st' Hnone Hset. subst st'. unfold after in *.
    destruct (executeMove_winner_or_turn cl PLACE p slot g idx cl) as [H|H];
      [|exact H].
    rewrite H in Hset. contradiction.
Qed.

Lemma winner_is_terminal_witness :
  handleDiscardHand Scenario.finished Scenario.finished
  = (Ok tt, Scenario.finished).
Proof.
  refine (proj1 (proj2 (proj1 winner_is_terminal Scenario.finished _))).
  discriminate.
Defined.

End ExecuteMove.

(* ===================================================================== *)
(** ** The AI turn: how a reply is resolved *)
(* ===================================================================== *)

Section AITurn.

Local Arguments evaluateBoard : simpl never.
Local Arguments checkWinCondition : simpl never.
Local Arguments storeGate : simpl never.
Local Arguments cellAt : simpl never.

Ltac runM :=
  unfold mbind, M_bind, mret, M_ret, lift, throw, endOfTurn, setIsThinking,
    setBoard, setPlayers, setTurn, setWinner, setSelectedCardIndex;
  cbn beta iota zeta.

(** The state a discard by P2 leads to. *)
Lemma discard_thinking cl s :
  is_Some (cellAt (board cl) 0) ->
  executeMove cl DISCARD P2 None None None (withIsThinking true s)
  = executeMove cl DISCARD P2 None None None s.
Proof. intros H. by rewrite !executeMove_discard. Qed.

(** The replies [performAIMove] answers with a discard: the tag DISCARD,
    a missing slot, a missing or empty gate name, a slot that is no cell
    of the board. *)
Lemma performAIMove_discards cl m s :
  is_Some (cellAt (board cl) 0) ->
  actionType m = Some "DISCARD"%string
  \/ slotId m = None
  \/ gateType m = None
  \/ gateType m = Some ""%string
  \/ (exists z, slotId m = Some z /\ cellAtZ (board cl) z = None) ->
  performAIMove cl (Returned m) s
  = executeMove cl DISCARD P2 None None None s.
Proof.
  intros Hroot Hcase. rewrite <- (discard_thinking cl s Hroot).
  unfold performAIMove, tryCatch. runM.
  pose proof (executeMove_discard cl P2 None None None
                (withIsThinking true s) Hroot) as Hd.
  case_bool_decide as Htag.
  { rewrite Hd. reflexivity. }
  destruct Hcase as [?|Hcase]; [done|].
  destruct (slotId m) as [z|] eqn:Hslot; [|reflexivity].
  destruct Hcase as [?|Hcase]; [done|].
  destruct (gateType m) as [name|] eqn:Hname; [|reflexivity].
  destruct (String.eqb name "") eqn:Hempty; [reflexivity|].
  destruct Hcase as [?|[Hcase|Hcase]]; [done| |].
  { injection Hcase as ->. discriminate Hempty. }
  destruct Hcase as (z' & [= <-] & Hcell). rewrite Hcell. reflexivity.
Qed.

Lemma indexOf_Some h name i :
  indexOf h name = Some i ->
  exists g, h !! i = Some g /\ gateName g = name
            /\ Spec.cardNamed h name = Some g.
Proof.
  revert i. induction h as [|c h IH]; intros i Hi; [discriminate Hi|].
  cbn [indexOf] in Hi. unfold Spec.cardNamed. cbn [List.find].
  destruct (String.eqb (gateName c) name) eqn:E.
  - injection Hi as <-. exists c. by apply String.eqb_eq in E.
  - destruct (indexOf h name) as [j|]; [|discriminate Hi].
    injection Hi as <-. destruct (IH j eq_refl) as (g & ? & ? & ?).
    by exists g.
Qed.

Lemma indexOf_None h name :
  indexOf h name = None -> Spec.cardNamed h name = None.
Proof.
  induction h as [|c h IH]; intros Hi; [done|].
  cbn [indexOf] in Hi. unfold Spec.cardNamed. cbn [List.find].
  destruct (String.eqb (gateName c) name); [discriminate Hi|].
  destruct (indexOf h name); [discriminate Hi|]. by apply IH.
Qed.

Lemma gateName_inj g1 g2 : gateName g1 = gateName g2 -> g1 = g2.
Proof. by destruct g1, g2. Qed.

Lemma indexOf_elem h g :
  g ∈ h -> exists i, indexOf h (gateName g) = Some i /\ h !! i = Some g.
Proof.
  induction 1 as [g h|g c h Hin IH].
  - exists 0. cbn. by rewrite String.eqb_refl.
  - destruct IH as (i & Hi & Hl). cbn [indexOf].
    destruct (String.eqb (gateName c) (gateName g)) eqn:E.
    + apply String.eqb_eq, gateName_inj in E as ->. by exists 0.
    + exists (S i). by rewrite Hi.
Qed.

Lemma gateAt_cellAtZ b z :
  isBoard b -> (0 <= z < 7)%Z ->
  exists n, cellAtZ b z = Some n /\ gate n = gateAt b (Z.to_nat z).
Proof.
  intros Hb Hz. destruct (isBoard_inv b Hb) as (n0&n1&n2&n3&n4&n5&n6&->).
  unfold cellAtZ, gateAt. destruct (decide (0 <= z)%Z); [|lia].
  assert (Hn : Z.to_nat z < 7) by lia.
  destruct (Z.to_nat z) as [|[|[|[|[|[|[|k]]]]]]]; try lia; cbn; eauto.
Qed.

(** A reply that names an empty slot of the board: the gate is placed on
    that slot, with the card [indexOf] finds, or card 0 when it finds
    none. *)
Lemma performAIMove_places cl m z name s :
  isBoard (board cl) ->
  actionType m <> Some "DISCARD"%string ->
  slotId m = Some z -> (0 <= z < 7)%Z ->
  gateAt (board cl) (Z.to_nat z) = None ->
  gateType m = Some name -> name <> ""%string ->
  is_Some (handOf cl P2 !! 0) ->
  let validIdx := default 0 (indexOf (handOf cl P2) name) in
  performAIMove cl (Returned m) s
  = executeMove cl PLACE P2 (Some (KNum z)) (handOf cl P2 !! validIdx)
                (Some validIdx) s.
Proof.
  intros Hb Htag Hslot Hz Hfree Hname Hne [first Hfirst] validIdx.
  destruct (gateAt_cellAtZ _ z Hb Hz) as (n & Hcell & Hgate).
  rewrite Hfree in Hgate.
  assert (Hcard : exists g, handOf cl P2 !! validIdx = Some g).
  { subst validIdx. destruct (indexOf _ name) as [i|] eqn:Hi; cbn.
    - destruct (indexOf_Some _ _ _ Hi) as (g & ? & _). eauto.
    - eauto. }
  destruct Hcard as [g Hg].
  unfold performAIMove, tryCatch. runM.
  rewrite bool_decide_eq_false_2 by done.
  rewrite Hslot, Hname.
  destruct (String.eqb name "") eqn:Hempty;
    [by apply String.eqb_eq in Hempty|].
  rewrite Hcell. cbn [gateOf]. rewrite Hgate.
  fold (handOf cl P2).
  assert (Hsame :
    (match indexOf (handOf cl P2) name with
     | Some i => handOf cl P2 !! i
     | None => handOf cl P2 !! 0
     end) = handOf cl P2 !! validIdx
    /\ (match indexOf (handOf cl P2) name with Some i => i | None => 0 end)
       = validIdx).
  { subst validIdx. by destruct (indexOf _ name). }
  destruct Hsame as [-> ->]. rewrite Hg.
  destruct (executeMove_place_in_range cl P2 z g validIdx
              (withIsThinking true s) Hb Hz)
    as (eb & He & Heb & _ & _ & [(w & Hw & Hr)|[Hw Hr]]); rewrite Hr.
  - by rewrite (executeMove_place_win _ _ _ _ _ _ eb w)
      by (try done; by apply slotsDefined_root, Hb).
  - by rewrite (executeMove_place_on _ _ _ _ _ _ eb)
      by (try done; by apply slotsDefined_root, Hb).
Qed.

Lemma cellAtZ_outside b z :
  isBoard b -> ~ (0 <= z <= 6)%Z -> cellAtZ b z = None.
Proof.
  intros [Hlen _] Hz. unfold cellAtZ, cellAt.
  destruct (decide (0 <= z)%Z); [|done].
  rewrite lookup_ge_None_2; [done|]. rewrite Hlen. unfold BOARD_SIZE. lia.
Qed.

(** C1 (as amended).  For a reply whose tag is not DISCARD: when the slot
    is absent or outside [0,6], or the gate name is absent or empty, the
    turn is resolved to a discard of the hand; when the slot is an empty
    slot of the board and a gate is named, the gate is placed on that very
    slot, the named card if the hand has it (its first copy) and the first
    card of the hand otherwise. *)
Theorem invalid_slot_resolves_to_discard cl m :
  isBoard (board cl) ->
  actionType m <> Some "DISCARD"%string ->
  let resolved := after (fun c => performAIMove c (Returned m)) cl in
  let discarded := after (fun c => executeMove c DISCARD P2 None None None) cl in
  let h := handOf cl P2 in
  ((slotId m = None \/ exists z, slotId m = Some z /\ ~ (0 <= z <= 6)%Z) ->
     resolved = discarded)
  /\ ((gateType m = None \/ gateType m = Some ""%string) ->
      resolved = discarded)
  /\ (forall z name first,
        slotId m = Some z -> (0 <= z <= 6)%Z ->
        gateAt (board cl) (Z.to_nat z) = None ->
        gateType m = Some name -> name <> ""%string ->
        h !! 0 = Some first ->
        resolved
        = after (fun c => executeMove c PLACE P2 (Some (KNum z))
                            (Some (default first (Spec.cardNamed h name)))
                            (Some (default 0 (indexOf h name)))) cl).
Proof.
  intros Hb Htag resolved discarded h. subst resolved discarded h.
  unfold after.
  pose proof (slotsDefined_root _ (proj2 Hb)) as Hroot.
  split; [|split].
  - intros Hslot. rewrite performAIMove_discards; [done|done|].
    destruct Hslot as [->|(z & Hz & Hout)]; [by auto|].
    do 4 right. exists z. split; [done|]. by apply cellAtZ_outside.
  - intros Hg. rewrite performAIMove_discards; [done|done|].
    destruct Hg as [-> | ->]; by auto.
  - intros z name first Hslot Hz Hfree Hname Hne Hfirst.
    rewrite (performAIMove_places cl m z name cl) by (try done; try lia; eauto).
    cbv zeta.
    destruct (indexOf (handOf cl P2) name) as [i|] eqn:Hi;
      cbn [default from_option Datatypes.id].
    + destruct (indexOf_Some _ _ _ Hi) as (g & -> & _ & ->). done.
    + rewrite (indexOf_None _ _ Hi), Hfirst. done.
Qed.

(** The scenario of the specification: slot 99, AND, on [Scenario.boardA]
    (first empty slot 2) with hand [OR, XOR, NAND] is resolved to a
    discard. *)
Lemma invalid_slot_resolves_to_discard_witness :
  after (fun c => performAIMove c
           (Returned (mkAIMove (Some "PLACE"%string) (Some 99%Z)
                               (Some "AND"%string)))) Scenario.aiToMove
  = after (fun c => executeMove c DISCARD P2 None None None) Scenario.aiToMove.
Proof.
  refine (proj1 (invalid_slot_resolves_to_discard Scenario.aiToMove
           (mkAIMove (Some "PLACE"%string) (Some 99%Z) (Some "AND"%string))
           _ _) _).
  - apply (bool_decide_unpack _); vm_compute; exact I.
  - discriminate.
  - right. exists 99%Z. split; [reflexivity|lia].
Defined.

(** C1, as stated, fails on its own scenario: the policy of the
    specification resolves slot 99, AND on [Scenario.boardA] with hand
    [OR, XOR, NAND] to OR on slot 2, while after [performAIMove] slot 2 is
    still empty, the whole hand has been redrawn and the turn has
    passed. *)
Lemma slot_99_is_not_repaired :
  let cl := Scenario.aiToMove in
  let m := mkAIMove (Some "PLACE"%string) (Some 99%Z) (Some "AND"%string) in
  let st' := after (fun c => performAIMove c (Returned m)) cl in
  Spec.firstEmpty (board cl) = Some 2
  /\ Spec.validate (board cl) (handOf cl P2) (Some m) = Spec.PlaceGate 2 OR
  /\ gateAt (board st') 2 = None
  /\ handOf st' P2 = [NOR; NOR; NOR]
  /\ turn st' = P1
  /\ st' <> after (fun c => Spec.apply c (Spec.PlaceGate 2 OR)) cl.
Proof.
  repeat split; try reflexivity.
  intros H. apply (f_equal (fun s => gateAt (board s) 2)) in H.
  vm_compute in H. discriminate H.
Qed.

Lemma findEmpty_gap (l : Arr) :
  Forall is_Some l ->
  (exists j, j < length l /\ gateAt l j = None) ->
  exists n, findEmpty l = Ok (Some n).
Proof.
  induction 1 as [|c l [n ->] Hl IH]; intros (j & Hj & Hnone).
  - simpl in Hj. lia.
  - cbn [findEmpty gateOf mbind Res_bind].
    destruct (gate n) as [t|] eqn:Hg; [|eauto].
    destruct j as [|j].
    + unfold gateAt, cellAt in Hnone. cbn in Hnone. congruence.
    + apply IH. exists j. split; [simpl in Hj; lia|exact Hnone].
Qed.

(** A reply that names an occupied slot while the board has an empty one:
    the call made is [executeMove('PLACE', 'P2', hand[0], hand[0], 0)], the
    first card of the hand standing where the slot should. *)
Lemma performAIMove_occupied cl m z occ name first s :
  isBoard (board cl) ->
  actionType m <> Some "DISCARD"%string ->
  slotId m = Some z -> (0 <= z <= 6)%Z ->
  gateAt (board cl) (Z.to_nat z) = Some occ ->
  gateType m = Some name -> name <> ""%string ->
  (exists j, j < BOARD_SIZE /\ gateAt (board cl) j = None) ->
  handOf cl P2 !! 0 = Some first ->
  exists eb,
    evaluateBoard (board cl) (inputs cl) = Ok eb
    /\ (forall j, gateAt eb j = gateAt (board cl) j)
    /\ performAIMove cl (Returned m) s
       = (Ok tt,
          let s2 := withBoard eb (withIsThinking true s) in
          let h := delete 0 (handOf cl P2) in
          endedTurn P2
            (withPlayers
               (withHand (players s2) P2 (h ++ drawn (world s2) (3 - length h)))
               (withWorld (advance (3 - length h) (world s2)) s2))).
Proof.
  intros Hb Htag Hslot Hz Hocc Hname Hne Hgap Hfirst.
  destruct (gateAt_cellAtZ _ z Hb ltac:(lia)) as (n & Hcell & Hgate).
  rewrite Hocc in Hgate.
  destruct (findEmpty_gap (board cl)) as [e He].
  { destruct Hb as [Hlen [_ Hall]]. rewrite <- Hlen in Hall.
    by rewrite firstn_all in Hall. }
  { destruct Hgap as (j & Hj & Hnone). exists j. split; [|done].
    destruct Hb as [-> _]. done. }
  destruct (evaluateBoard_total _ (inputs cl) (proj2 Hb)) as [eb Heb].
  destruct (evaluateBoard_keeps_slots _ _ _ Heb) as (Hs & Hlen & Hg & _).
  assert (Hboard : isBoard eb).
  { split; [|done]. rewrite Hlen. apply Hb. }
  assert (Hw : checkWinCondition eb = Ok None).
  { apply checkWinCondition_gap; [done|].
    destruct Hgap as (j & Hj & Hnone). exists j. by rewrite Hg. }
  exists eb. split; [done|]. split; [done|].
  unfold performAIMove, tryCatch. runM.
  rewrite bool_decide_eq_false_2 by done.
  rewrite Hslot, Hname.
  destruct (String.eqb name "") eqn:Hempty;
    [by apply String.eqb_eq in Hempty|].
  rewrite Hcell. cbn [gateOf]. rewrite Hgate, He.
  fold (handOf cl P2). rewrite Hfirst. cbn [fmap option_fmap option_map].
  rewrite (executeMove_place_on _ _ _ _ _ _ eb);
    [done|by apply slotsDefined_root, Hb|done|done].
Qed.

(** C2, at the failing input and every one like it.  The AI names an
    occupied slot while the board has an empty slot: the turn is resolved
    without an exception, no slot of the board changes its gate, the first
    card of the hand of P2 is gone and one card is drawn, and the turn passes
    to P1.  The resulting state is the outcome of no legal action: of no
    placement on an empty slot, whatever the gate and the hand index, and
    not of a discard. *)
Theorem occupied_slot_fallback_places_nothing cl m z occ name first c1 c2 :
  isBoard (board cl) -> winner cl = None -> turn cl = P2 ->
  actionType m <> Some "DISCARD"%string ->
  slotId m = Some z -> (0 <= z <= 6)%Z ->
  gateAt (board cl) (Z.to_nat z) = Some occ ->
  gateType m = Some name -> name <> ""%string ->
  (exists j, j < BOARD_SIZE /\ gateAt (board cl) j = None) ->
  handOf cl P2 = [first; c1; c2] ->
  let r := performAIMove cl (Returned m) cl in
  fst r = Ok tt
  /\ (forall j, gateAt (board (snd r)) j = gateAt (board cl) j)
  /\ handOf (snd r) P2 = [c1; c2; rndGate (world cl) (tick (world cl))]
  /\ turn (snd r) = P1
  /\ (forall s g idx,
        s <= 6 -> gateAt (board cl) s = None ->
        snd r <> after (fun c => executeMove c PLACE P2
                                   (Some (KNum (Z.of_nat s))) (Some g)
                                   (Some idx)) cl)
  /\ snd r <> after (fun c => executeMove c DISCARD P2 None None None) cl
  /\ (forall a, Spec.legal cl a ->
        snd r <> after (fun c => Spec.apply c a) cl).
Proof.
  intros Hb Hnone Hturn Htag Hslot Hz Hocc Hname Hne Hgap Hhand r.
  destruct (performAIMove_occupied cl m z occ name first cl)
    as (eb & Heb & Hg & Hr); try done.
  { by rewrite Hhand. }
  subst r. rewrite Hr. rewrite Hhand. cbn [delete list_delete length Nat.sub].
  cbv zeta. cbn [fst snd].
  split; [done|]. split; [exact Hg|].
  split. { unfold handOf, drawn. cbn. by rewrite Nat.add_0_r. }
  split; [done|].
  assert (Hplace : forall s g idx,
            s <= 6 -> gateAt (board cl) s = None ->
            endedTurn P2
              (withPlayers
                 (withHand (players (withBoard eb (withIsThinking true cl))) P2
                    ([c1; c2] ++ drawn (world (withBoard eb (withIsThinking true cl))) 1))
                 (withWorld (advance 1 (world (withBoard eb (withIsThinking true cl))))
                    (withBoard eb (withIsThinking true cl))))
            <> after (fun c => executeMove c PLACE P2
                                 (Some (KNum (Z.of_nat s))) (Some g) (Some idx)) cl).
  { intros s g idx Hs Hfree Heq. unfold after in Heq.
    destruct (executeMove_place_in_range cl P2 (Z.of_nat s) g idx cl Hb
                ltac:(lia))
      as (eb' & _ & _ & Hplaced & _ & [(w & _ & Hr')|[_ Hr']]);
      rewrite Hr' in Heq;
      apply (f_equal (fun st => gateAt (board st) s)) in Heq;
      cbn in Heq; rewrite Hg in Heq; rewrite Nat2Z.id in Hplaced;
      rewrite Hplaced, Hfree in Heq; discriminate Heq. }
  assert (Hdisc :
            endedTurn P2
              (withPlayers
                 (withHand (players (withBoard eb (withIsThinking true cl))) P2
                    ([c1; c2] ++ drawn (world (withBoard eb (withIsThinking true cl))) 1))
                 (withWorld (advance 1 (world (withBoard eb (withIsThinking true cl))))
                    (withBoard eb (withIsThinking true cl))))
            <> after (fun c => executeMove c DISCARD P2 None None None) cl).
  { intros Heq. unfold after in Heq.
    rewrite executeMove_discard in Heq by (by apply slotsDefined_root, Hb).
    apply (f_equal (fun st => tick (world st))) in Heq. cbn in Heq. lia. }
  split; [exact Hplace|]. split; [exact Hdisc|].
  intros a Hlegal. destruct a as [slot g|].
  - destruct Hlegal as (_ & Hs & (n & Hn & Hfree) & Hin).
    rewrite Hturn in Hin. fold (handOf cl P2) in Hin.
    destruct (indexOf_elem _ _ Hin) as (i & Hi & _).
    unfold after. cbn [Spec.apply]. rewrite Hturn.
    fold (handOf cl P2). rewrite Hi.
    apply Hplace; [done|]. unfold gateAt. by rewrite Hn.
  - unfold after. cbn [Spec.apply]. rewrite Hturn. exact Hdisc.
Qed.

Lemma findEmpty_full (l : Arr) :
  Forall is_Some l ->
  (forall j, j < length l -> is_Some (gateAt l j)) ->
  findEmpty l = Ok None.
Proof.
  induction 1 as [|c l [n ->] Hl IH]; intros Hfull; [done|].
  cbn [findEmpty gateOf mbind Res_bind].
  destruct (Hfull 0 ltac:(simpl; lia)) as [t Ht].
  unfold gateAt, cellAt in Ht. cbn in Ht. rewrite Ht.
  apply IH. intros j Hj. apply (Hfull (S j)). simpl. lia.
Qed.

Lemma performAIMove_rejected cl s :
  is_Some (cellAt (board cl) 0) ->
  performAIMove cl Rejected s = executeMove cl DISCARD P2 None None None s.
Proof.
  intros Hroot. rewrite <- (discard_thinking cl s Hroot).
  unfold performAIMove, tryCatch. runM. reflexivity.
Qed.

(** A reply that names an occupied slot of a board that has no empty slot
    is answered with a discard. *)
Lemma performAIMove_occupied_full cl m z name s :
  isBoard (board cl) ->
  actionType m <> Some "DISCARD"%string ->
  slotId m = Some z -> (0 <= z <= 6)%Z ->
  gateType m = Some name -> name <> ""%string ->
  full (board cl) ->
  performAIMove cl (Returned m) s = executeMove cl DISCARD P2 None None None s.
Proof.
  intros Hb Htag Hslot Hz Hname Hne Hfull.
  pose proof (slotsDefined_root _ (proj2 Hb)) as Hroot.
  rewrite <- (discard_thinking cl s Hroot).
  destruct (gateAt_cellAtZ _ z Hb ltac:(lia)) as (n & Hcell & Hgate).
  destruct (Hfull (Z.to_nat z) ltac:(unfold BOARD_SIZE; lia)) as [occ Hocc].
  rewrite Hocc in Hgate.
  assert (He : findEmpty (board cl) = Ok None).
  { apply findEmpty_full.
    - destruct Hb as [Hlen [_ Hall]]. rewrite <- Hlen in Hall.
      by rewrite firstn_all in Hall.
    - intros j Hj. apply Hfull. by rewrite <- (proj1 Hb). }
  unfold performAIMove, tryCatch. runM.
  rewrite bool_decide_eq_false_2 by done.
  rewrite Hslot, Hname.
  destruct (String.eqb name "") eqn:Hempty;
    [by apply String.eqb_eq in Hempty|].
  rewrite Hcell. cbn [gateOf]. rewrite Hgate, He.
  by rewrite (executeMove_discard cl P2 None None None _ Hroot).
Qed.

Lemma full_or_gap b :
  isBoard b -> full b \/ exists j, j < BOARD_SIZE /\ gateAt b j = None.
Proof.
  intros Hb. destruct (isBoard_inv b Hb) as (n0&n1&n2&n3&n4&n5&n6&->).
  destruct (forallb gateSet
              [Some n0; Some n1; Some n2; Some n3; Some n4; Some n5; Some n6])
    eqn:Hall.
  - left. by apply full_seven.
  - right. unfold BOARD_SIZE, gateAt, cellAt. cbn in Hall.
    destruct (gate n0) eqn:E0; [|exists 0; split; [lia|done]].
    destruct (gate n1) eqn:E1; [|exists 1; split; [lia|done]].
    destruct (gate n2) eqn:E2; [|exists 2; split; [lia|done]].
    destruct (gate n3) eqn:E3; [|exists 3; split; [lia|done]].
    destruct (gate n4) eqn:E4; [|exists 4; split; [lia|done]].
    destruct (gate n5) eqn:E5; [|exists 5; split; [lia|done]].
    destruct (gate n6) eqn:E6; [|exists 6; split; [lia|done]].
    discriminate Hall.
Qed.

(** Every other reply -- a rejected call, any tag, missing fields, a slot
    off the board, an empty slot, an occupied slot on a full board -- is
    resolved to one legal action: the state after [performAIMove] is the
    state after a discard, or after a placement on an empty slot of a card
    of the hand. *)
Lemma performAIMove_legal_otherwise cl reply :
  isBoard (board cl) -> winner cl = None -> turn cl = P2 ->
  is_Some (handOf cl P2 !! 0) ->
  ~ (exists m z name,
       reply = Returned m /\ actionType m <> Some "DISCARD"%string
       /\ slotId m = Some z /\ is_Some (gateAt (board cl) (Z.to_nat z))
       /\ (0 <= z <= 6)%Z
       /\ gateType m = Some name /\ name <> ""%string
       /\ exists j, j < BOARD_SIZE /\ gateAt (board cl) j = None) ->
  exists a, Spec.legal cl a
            /\ performAIMove cl reply cl = Spec.apply cl a cl.
Proof.
  intros Hb Hw Hturn Hhand Hnot.
  pose proof (slotsDefined_root _ (proj2 Hb)) as Hroot.
  assert (Hdiscard :
    forall r, r = executeMove cl DISCARD P2 None None None cl ->
              exists a, Spec.legal cl a /\ r = Spec.apply cl a cl).
  { intros r ->. exists Spec.DiscardHand. split; [done|].
    cbn [Spec.apply]. by rewrite Hturn. }
  destruct reply as [|m]; [by apply Hdiscard, performAIMove_rejected|].
  destruct (decide (actionType m = Some "DISCARD"%string)) as [Htag|Htag].
  { apply Hdiscard, performAIMove_discards; auto. }
  destruct (slotId m) as [z|] eqn:Hslot.
  2: { apply Hdiscard, performAIMove_discards; auto. }
  destruct (gateType m) as [name|] eqn:Hname.
  2: { apply Hdiscard, performAIMove_discards; auto. }
  destruct (decide (name = ""%string)) as [->|Hne].
  { apply Hdiscard, performAIMove_discards; auto. }
  destruct (decide (0 <= z <= 6)%Z) as [Hz|Hz].
  2: { apply Hdiscard, performAIMove_discards; [done|].
       do 4 right. exists z. split; [done|]. by apply cellAtZ_outside. }
  destruct (gateAt (board cl) (Z.to_nat z)) as [occ|] eqn:Hocc.
  - destruct (full_or_gap _ Hb) as [Hfull|Hgap].
    + apply Hdiscard. by apply (performAIMove_occupied_full cl m z name).
    + exfalso. apply Hnot. exists m, z, name.
      rewrite Hocc. by repeat (split; [first [done|lia|by eexists]|]).
  - rewrite (performAIMove_places cl m z name cl) by (try done; lia).
    cbv zeta.
    destruct (gateAt_cellAtZ _ z Hb ltac:(lia)) as (n & Hcell & Hgate).
    rewrite Hocc in Hgate.
    assert (Hcard : exists g i,
               handOf cl P2 !! i = Some g
               /\ default 0 (indexOf (handOf cl P2) name) = i
               /\ indexOf (handOf cl P2) (gateName g) = Some i).
    { destruct (indexOf (handOf cl P2) name) as [i|] eqn:Hi.
      - destruct (indexOf_Some _ _ _ Hi) as (g & Hg & <- & _).
        by exists g, i.
      - destruct Hhand as [g Hg]. exists g, 0. split; [done|]. split; [done|].
        destruct (handOf cl P2) as [|c rest]; [done|].
        injection Hg as ->. cbn. by rewrite String.eqb_refl. }
    destruct Hcard as (g & i & Hg & -> & Hidx).
    exists (Spec.PlaceGate (Z.to_nat z) g). split.
    + split; [done|]. split; [lia|]. split.
      * exists n. split; [|done]. unfold cellAtZ in Hcell.
        by destruct (decide (0 <= z)%Z); [|lia].
      * rewrite Hturn. fold (handOf cl P2). by eapply list_elem_of_lookup_2.
    + cbn [Spec.apply]. rewrite Hturn. fold (handOf cl P2).
      by rewrite Hidx, Hg, Z2Nat.id by lia.
Qed.

Lemma occupied_slot_fallback_places_nothing_witness :
  fst (performAIMove Scenario.aiToMove
         (Returned (mkAIMove (Some "PLACE"%string) (Some 3%Z) (Some "OR"%string)))
         Scenario.aiToMove) = Ok tt.
Proof.
  refine (proj1 (occupied_slot_fallback_places_nothing Scenario.aiToMove
            (mkAIMove (Some "PLACE"%string) (Some 3%Z) (Some "OR"%string))
            3%Z OR "OR"%string OR XOR NAND _ _ _ _ _ _ _ _ _ _ _)).
  - apply (bool_decide_unpack _); vm_compute; exact I.
  - reflexivity.
  - reflexivity.
  - discriminate.
  - reflexivity.
  - lia.
  - reflexivity.
  - reflexivity.
  - discriminate.
  - exists 2. split; [unfold BOARD_SIZE; lia|reflexivity].
  - reflexivity.
Defined.

Lemma gateName_nonempty g : gateName g <> ""%string.
Proof. by destruct g. Qed.

Lemma handleSlotClick_empty st z sel :
  isBoard (board st) -> winner st = None -> isThinking st = false ->
  selectedCardIndex st = Some sel -> (0 <= z <= 6)%Z ->
  gateAt (board st) (Z.to_nat z) = None ->
  handleSlotClick st z st
  = executeMove st PLACE (turn st) (Some (KNum z))
                (handOf st (turn st) !! sel) (Some sel) st.
Proof.
  intros Hb Hw Hth Hsel Hz Hfree.
  destruct (gateAt_cellAtZ _ z Hb ltac:(lia)) as (n & Hcell & Hgate).
  rewrite Hfree in Hgate.
  unfold handleSlotClick. rewrite Hw, Hth, Hsel. cbn [isSet orb]. runM.
  rewrite Hcell. cbn [gateOf]. rewrite Hgate. reflexivity.
Qed.

Lemma handleSlotClick_occupied st z :
  isBoard (board st) -> (0 <= z <= 6)%Z ->
  is_Some (gateAt (board st) (Z.to_nat z)) ->
  handleSlotClick st z st = (Ok tt, st).
Proof.
  intros Hb Hz [occ Hocc].
  destruct (gateAt_cellAtZ _ z Hb ltac:(lia)) as (n & Hcell & Hgate).
  rewrite Hocc in Hgate.
  unfold handleSlotClick.
  destruct (isSet (winner st) || isThinking st); [done|].
  destruct (selectedCardIndex st); [|done]. runM.
  rewrite Hcell. cbn [gateOf]. by rewrite Hgate.
Qed.

Lemma slotFree_true b z :
  isBoard b -> (0 <= z <= 6)%Z -> gateAt b (Z.to_nat z) = None ->
  Spec.slotFree b z = true.
Proof.
  intros Hb Hz Hfree.
  destruct (gateAt_cellAtZ _ z Hb ltac:(lia)) as (n & Hcell & Hgate).
  unfold Spec.slotFree. rewrite bool_decide_eq_true_2 by done.
  rewrite Hcell, Hgate, Hfree. done.
Qed.

(** C4 (as amended).  A human click on slot [z] with the card at index [sel]
    selected (winner unset, no turn in progress).  On an empty slot, when
    the selected card is the first copy of its gate in the hand, the
    transition is the one the validation policy of section 4.3 produces for
    the proposal PLACE [z] with that gate, and, when P2 is to move, the one
    [performAIMove] produces for it.  On an occupied slot the click is
    ignored: the state stays as it is, no repair to the first empty slot is
    made. *)
Theorem human_click_follows_policy_on_empty_slots st z sel t :
  isBoard (board st) -> winner st = None -> isThinking st = false ->
  selectedCardIndex st = Some sel ->
  handOf st (turn st) !! sel = Some t -> (0 <= z <= 6)%Z ->
  let clicked := after (fun c => handleSlotClick c z) st in
  let h := handOf st (turn st) in
  (gateAt (board st) (Z.to_nat z) = None ->
   indexOf h (gateName t) = Some sel ->
     Spec.validate (board st) h (Some (Spec.clickProposal z t))
     = Spec.PlaceGate (Z.to_nat z) t
     /\ clicked
        = after (fun c => Spec.apply c
                   (Spec.validate (board st) h (Some (Spec.clickProposal z t)))) st
     /\ (turn st = P2 ->
         clicked
         = after (fun c => performAIMove c (Returned (Spec.clickProposal z t))) st))
  /\ (is_Some (gateAt (board st) (Z.to_nat z)) -> clicked = st).
Proof.
  intros Hb Hw Hth Hsel Hcard Hz clicked h. subst clicked h. unfold after.
  split.
  - intros Hfree Hidx.
    rewrite (handleSlotClick_empty st z sel) by done. rewrite Hcard.
    assert (Hv : Spec.validate (board st) (handOf st (turn st))
                   (Some (Spec.clickProposal z t))
                 = Spec.PlaceGate (Z.to_nat z) t).
    { unfold Spec.validate, Spec.clickProposal. cbn [actionType slotId gateType].
      rewrite bool_decide_eq_false_2 by discriminate.
      rewrite bool_decide_eq_true_2 by reflexivity.
      rewrite slotFree_true by done. cbn [mbind option_bind].
      destruct (indexOf_Some _ _ _ Hidx) as (g & Hg & _ & ->).
      rewrite Hcard in Hg. by injection Hg as <-. }
    split; [exact Hv|]. split.
    + rewrite Hv. cbn [Spec.apply]. fold (handOf st (turn st)).
      rewrite Hidx, Z2Nat.id by lia. reflexivity.
    + intros Hturn.
      rewrite (performAIMove_places st _ z (gateName t) st);
        try done; try lia.
      * cbv zeta. rewrite <- Hturn, Hidx. cbn [default from_option Datatypes.id].
        by rewrite Hcard.
      * apply gateName_nonempty.
      * rewrite <- Hturn. destruct (handOf st (turn st)) as [|c ?] eqn:E;
          [by rewrite lookup_nil in Hcard | by exists c].
  - intros Hocc. by rewrite handleSlotClick_occupied.
Qed.

Lemma human_click_follows_policy_on_empty_slots_witness :
  after (fun c => handleSlotClick c 3) Scenario.humanToMove
  = Scenario.humanToMove.
Proof.
  refine (proj2 (human_click_follows_policy_on_empty_slots Scenario.humanToMove
                   3%Z 1 XOR _ _ _ _ _ _) _).
  - apply (bool_decide_unpack _); vm_compute; exact I.
  - reflexivity.
  - reflexivity.
  - reflexivity.
  - reflexivity.
  - lia.
  - by exists OR.
Defined.

(** Why the first copy: with AND held twice and the second copy selected,
    the click removes the selected copy and the policy path the first one;
    board, winner and turn agree, the order of the hand does not. *)
Example human_click_second_copy :
  let st := Scenario.twoCopies in
  let clicked := after (fun c => handleSlotClick c 2) st in
  let resolved :=
    after (fun c => Spec.apply c
             (Spec.validate (board st) (handOf st P2)
                (Some (Spec.clickProposal 2 AND)))) st in
  handOf clicked P2 = [AND; OR; NOR]
  /\ handOf resolved P2 = [OR; AND; NOR]
  /\ board clicked = board resolved
  /\ winner clicked = winner resolved
  /\ turn clicked = turn resolved.
Proof. repeat split; reflexivity. Qed.

(** C4, as stated, fails on an occupied slot: P2 clicks slot 3 of
    [Scenario.boardA] (occupied) with XOR selected; the policy of section
    4.3 repairs the proposal to XOR on slot 2, the first empty slot, while
    the click leaves the state as it is. *)
Lemma human_click_on_occupied_slot_is_not_repaired :
  ~ (forall st z sel t,
       isBoard (board st) -> winner st = None -> isThinking st = false ->
       selectedCardIndex st = Some sel ->
       handOf st (turn st) !! sel = Some t -> (0 <= z <= 6)%Z ->
       after (fun c => handleSlotClick c z) st
       = after (fun c => Spec.apply c
                  (Spec.validate (board st) (handOf st (turn st))
                     (Some (Spec.clickProposal z t)))) st).
Proof.
  intros H.
  specialize (H Scenario.humanToMove 3%Z 1 XOR).
  assert (Hb : isBoard (board Scenario.humanToMove))
    by (apply (bool_decide_unpack _); vm_compute; exact I).
  specialize (H Hb eq_refl eq_refl eq_refl eq_refl ltac:(lia)).
  apply (f_equal (fun s => gateAt (board s) 2)) in H.
  vm_compute in H. discriminate H.
Qed.

End AITurn.

(* ===================================================================== *)
(** ** The evaluator on the store *)
(* ===================================================================== *)

Section HeapEvaluator.

Implicit Types (σ : gmap positive Heap.Obj) (arr : positive) (b : Arr).

Ltac runH :=
  unfold mbind, Heap.H_bind, mret, Heap.H_ret; cbn beta iota zeta.

Lemma readCell_store arr i σ r σ' : Heap.readCell arr i σ = (r, σ') -> σ' = σ.
Proof.
  unfold Heap.readCell. destruct (σ !! arr) as [[?|?]|]; congruence.
Qed.

Lemma readNode_store c σ r σ' : Heap.readNode c σ = (r, σ') -> σ' = σ.
Proof.
  unfold Heap.readNode. destruct c as [q|]; [|congruence].
  destruct (σ !! q) as [[?|?]|]; congruence.
Qed.

Lemma operands_store inputs i arr σ r σ' :
  Heap.operands inputs i arr σ = (r, σ') -> σ' = σ.
Proof.
  unfold Heap.operands. destruct (3 <=? i); runH; [congruence|].
  destruct (Heap.readCell arr (i * 2 + 1) σ) as [[c1|e] σ1] eqn:E1;
    apply readCell_store in E1 as ->; [|congruence].
  destruct (Heap.readNode c1 σ) as [[n1|e] σ1] eqn:E2;
    apply readNode_store in E2 as ->; [|congruence].
  destruct (Heap.readCell arr (i * 2 + 2) σ) as [[c2|e] σ1] eqn:E3;
    apply readCell_store in E3 as ->; [|congruence].
  destruct (Heap.readNode c2 σ) as [[n2|e] σ1] eqn:E4;
    apply readNode_store in E4 as ->; congruence.
Qed.

(** A write of a value touches the array written and nothing that was in
    the store before. *)
Lemma storeValue_frame arr i node v σ r σ' :
  Heap.storeValue arr i node v σ = (r, σ') ->
  forall l o, l <> arr -> σ !! l = Some o -> σ' !! l = Some o.
Proof.
  unfold Heap.storeValue, Heap.alloc, Heap.writeCell. runH.
  set (q := fresh (dom σ)).
  assert (Hq : σ !! q = None) by (apply not_elem_of_dom, is_fresh).
  intros Hrun l o Hl Hlook.
  assert (l <> q) by congruence.
  destruct (<[q:=_]> σ !! arr) as [[?|?]|]; injection Hrun as _ <-;
    rewrite ?lookup_insert_ne by done; done.
Qed.

Lemma loopBody_frame inputs i arr σ r σ' :
  Heap.loopBody inputs i arr σ = (r, σ') ->
  forall l o, l <> arr -> σ !! l = Some o -> σ' !! l = Some o.
Proof.
  unfold Heap.loopBody. runH.
  destruct (Heap.readCell arr i σ) as [[c|e] σ1] eqn:E1;
    apply readCell_store in E1 as ->; [|by intros [= _ <-]].
  destruct (Heap.readNode c σ) as [[n|e] σ1] eqn:E2;
    apply readNode_store in E2 as ->; [|by intros [= _ <-]].
  destruct (gate n) as [g|]; [|apply storeValue_frame].
  destruct (Heap.operands inputs i arr σ) as [[[va vb]|e] σ1] eqn:E3;
    apply operands_store in E3 as ->; [|by intros [= _ <-]].
  destruct (notNull va && notNull vb); apply storeValue_frame.
Qed.

Lemma loopFrom_frame inputs k arr σ r σ' :
  Heap.loopFrom inputs k arr σ = (r, σ') ->
  forall l o, l <> arr -> σ !! l = Some o -> σ' !! l = Some o.
Proof.
  revert σ. induction k as [|k IH]; intros σ; cbn [Heap.loopFrom]; runH.
  { by intros [= _ <-]. }
  destruct (Heap.loopBody inputs k arr σ) as [[[]|e] σ1] eqn:E1.
  - intros Hrun l o Hl Hlook. eapply IH; [done|done|].
    by eapply loopBody_frame.
  - intros [= _ <-] l o Hl Hlook. by eapply loopBody_frame.
Qed.

(** Nothing that was in the store is changed by [evaluateBoard]: not the
    array it is given, not the nodes this array refers to. *)
Lemma evaluateBoard_frame nodes inputs σ :
  σ ⊆ snd (Heap.evaluateBoard nodes inputs σ).
Proof.
  apply map_subseteq_spec. intros l o Hlook.
  unfold Heap.evaluateBoard, Heap.copyArray, Heap.alloc. runH.
  destruct (σ !! nodes) as [[?|cells]|] eqn:Hn; try done.
  set (q := fresh (dom σ)).
  assert (Hq : σ !! q = None) by (apply not_elem_of_dom, is_fresh).
  assert (l <> q) by congruence.
  destruct (Heap.loopFrom inputs BOARD_SIZE q _) as [[[]|e] σ1] eqn:E1;
    cbn [snd]; (eapply loopFrom_frame; [exact E1|done|]);
    by rewrite lookup_insert_ne.
Qed.

Lemma holds_read σ arr b i :
  Heap.holds σ arr b ->
  (c ← Heap.readCell arr i; Heap.readNode c) σ
  = (match cellAt b i with Some n => Ok n | None => Throw TypeError end, σ).
Proof.
  intros (cells & Harr & Hall). runH. unfold Heap.readCell. rewrite Harr.
  unfold cellAt, Heap.readNode.
  destruct (cells !! i) as [c|] eqn:Hc.
  - destruct (Forall2_lookup_l _ _ _ _ _ Hall Hc) as (x & -> & Hx).
    cbn. destruct c as [q|]; cbn in Hx.
    + destruct (σ !! q) as [[n|?]|]; try discriminate Hx. by injection Hx as <-.
    + by injection Hx as <-.
  - apply Forall2_length in Hall. apply lookup_ge_None in Hc.
    rewrite lookup_ge_None_2 by lia. done.
Qed.

Lemma holds_operands inputs i σ arr b :
  Heap.holds σ arr b ->
  Heap.operands inputs i arr σ = (operands inputs i b, σ).
Proof.
  intros Hh. unfold Heap.operands, operands.
  destruct (3 <=? i); [done|].
  pose proof (holds_read σ arr b (i * 2 + 1) Hh) as H1.
  pose proof (holds_read σ arr b (i * 2 + 2) Hh) as H2.
  revert H1 H2. runH. unfold mbind, Res_bind.
  destruct (Heap.readCell arr (i * 2 + 1) σ) as [[c1|e] σ1] eqn:E1;
    apply readCell_store in E1 as ->.
  2: { destruct (cellAt b (i * 2 + 1)); intros H1 _; [discriminate H1|].
       by injection H1 as ->. }
  intros ->. destruct (cellAt b (i * 2 + 1)) as [n1|]; [|done].
  cbn [valueOf].
  destruct (Heap.readCell arr (i * 2 + 2) σ) as [[c2|e] σ1] eqn:E2;
    apply readCell_store in E2 as ->.
  2: { destruct (cellAt b (i * 2 + 2)); intros H2; [discriminate H2|].
       by injection H2 as ->. }
  intros ->. by destruct (cellAt b (i * 2 + 2)) as [n2|].
Qed.

Lemma holds_storeValue σ arr b i node v :
  Heap.holds σ arr b ->
  exists σ', Heap.storeValue arr i node v σ = (Ok tt, σ')
    /\ Heap.holds σ' arr (<[i := Some (withValue node v)]> b).
Proof.
  intros (cells & Harr & Hall).
  unfold Heap.storeValue, Heap.alloc, Heap.writeCell. runH.
  set (q := fresh (dom σ)).
  assert (Hq : σ !! q = None) by (apply not_elem_of_dom, is_fresh).
  assert (Hne : arr <> q) by congruence.
  rewrite lookup_insert_ne by done. rewrite Harr.
  eexists. split; [reflexivity|].
  exists (<[i := Some q]> cells). split; [by rewrite lookup_insert_eq|].
  apply Forall2_insert.
  - eapply Forall2_impl; [exact Hall|].
    intros [l|] x Hx; [|done]. cbn in Hx |- *.
    destruct (σ !! l) as [[n|?]|] eqn:Hl; try discriminate Hx.
    rewrite lookup_insert_ne by congruence.
    rewrite lookup_insert_ne by congruence. by rewrite Hl.
  - cbn. rewrite lookup_insert_ne by done. by rewrite lookup_insert_eq.
Qed.

Lemma holds_loopBody inputs i σ arr b :
  Heap.holds σ arr b ->
  exists σ',
    Heap.loopBody inputs i arr σ
    = (match loopBody inputs i b with Ok _ => Ok tt | Throw e => Throw e end, σ')
    /\ forall b', loopBody inputs i b = Ok b' -> Heap.holds σ' arr b'.
Proof.
  intros Hh. unfold Heap.loopBody, loopBody.
  pose proof (holds_read σ arr b i Hh) as Hread. revert Hread. runH.
  destruct (Heap.readCell arr i σ) as [[c|e] σ1] eqn:E1;
    apply readCell_store in E1 as ->; intros Hread.
  2: { exists σ. destruct (cellAt b i); [discriminate Hread|].
       injection Hread as ->. split; [done|discriminate]. }
  rewrite Hread. destruct (cellAt b i) as [node|]; [|by exists σ].
  destruct (gate node) as [g|].
  - rewrite (holds_operands inputs i σ arr b Hh).
    destruct (operands inputs i b) as [[va vb]|e]; [|by exists σ].
    cbn [mbind Res_bind].
    destruct (notNull va && notNull vb);
      (edestruct (holds_storeValue σ arr b i node) as (σ' & -> & Hh');
       [exact Hh|]; exists σ'; split; [done|]; by intros b' [= <-]).
  - edestruct (holds_storeValue σ arr b i node) as (σ' & -> & Hh');
      [exact Hh|]. exists σ'. split; [done|]. by intros b' [= <-].
Qed.

Lemma holds_loopFrom inputs k σ arr b :
  Heap.holds σ arr b ->
  exists σ',
    Heap.loopFrom inputs k arr σ
    = (match loopFrom inputs k b with Ok _ => Ok tt | Throw e => Throw e end, σ')
    /\ forall b', loopFrom inputs k b = Ok b' -> Heap.holds σ' arr b'.
Proof.
  revert σ b. induction k as [|k IH]; intros σ b Hh;
    cbn [Heap.loopFrom loopFrom].
  { exists σ. split; [done|]. by intros b' [= <-]. }
  destruct (holds_loopBody inputs k σ arr b Hh) as (σ1 & Hrun & Hnext).
  runH. rewrite Hrun.
  destruct (loopBody inputs k b) as [b1|e]; cbn [mbind Res_bind].
  - apply IH. by apply Hnext.
  - exists σ1. split; [done|discriminate].
Qed.

(** On a store where [nodes] holds the board [b], [evaluateBoard] on the
    store throws when [evaluateBoard b inputs] throws, and otherwise returns
    a new array that holds the board [evaluateBoard b inputs] returns. *)
Lemma holds_evaluateBoard nodes inputs σ b :
  Heap.holds σ nodes b ->
  match evaluateBoard b inputs with
  | Ok b' =>
    exists newNodes σ',
      Heap.evaluateBoard nodes inputs σ = (Ok newNodes, σ')
      /\ σ !! newNodes = None
      /\ Heap.holds σ' newNodes b'
  | Throw e => fst (Heap.evaluateBoard nodes inputs σ) = Throw e
  end.
Proof.
  intros (cells & Harr & Hall).
  unfold Heap.evaluateBoard, Heap.copyArray, Heap.alloc, evaluateBoard.
  runH. rewrite Harr.
  set (q := fresh (dom σ)).
  assert (Hq : σ !! q = None) by (apply not_elem_of_dom, is_fresh).
  assert (Hh : Heap.holds (<[q := Heap.OArr cells]> σ) q b).
  { exists cells. split; [by rewrite lookup_insert_eq|].
    eapply Forall2_impl; [exact Hall|].
    intros [l|] x Hx; [|done]. cbn in Hx |- *.
    destruct (σ !! l) as [[n|?]|] eqn:Hl; try discriminate Hx.
    rewrite lookup_insert_ne by congruence. by rewrite Hl. }
  destruct (holds_loopFrom inputs BOARD_SIZE _ q b Hh) as (σ' & -> & Hnext).
  destruct (loopFrom inputs BOARD_SIZE b) as [b'|e]; [|done].
  exists q, σ'. split; [done|]. split; [done|]. by apply Hnext.
Qed.

Lemma holds_mono σ σ' arr b :
  σ ⊆ σ' -> Heap.holds σ arr b -> Heap.holds σ' arr b.
Proof.
  intros Hsub (cells & Harr & Hall). exists cells.
  split; [by eapply lookup_weaken|].
  eapply Forall2_impl; [exact Hall|].
  intros [l|] x Hx; [|done]. cbn in Hx |- *.
  destruct (σ !! l) as [[n|?]|] eqn:Hl; try discriminate Hx.
  by rewrite (lookup_weaken _ _ _ _ Hl Hsub).
Qed.

(** C9.  [evaluateBoard] is a function of the gates and the inputs, and
    evaluating twice changes nothing.  On the store: every object that was
    there before the call (the argument array and its nodes among them) is
    there unchanged after it, and the array returned is a new one that holds
    what [evaluateBoard] computes from the board the argument holds.  On
    boards: it returns on every seven-slot board; two boards that differ
    only in their value fields give the same result; and evaluating a result
    again returns it unchanged. *)
Theorem evaluateBoard_pure_and_idempotent :
  (forall σ nodes inputs, σ ⊆ snd (Heap.evaluateBoard nodes inputs σ))
  /\ (forall σ nodes inputs b,
        Heap.holds σ nodes b -> isBoard b ->
        exists newNodes σ' b',
          Heap.evaluateBoard nodes inputs σ = (Ok newNodes, σ')
          /\ σ !! newNodes = None
          /\ evaluateBoard b inputs = Ok b'
          /\ Heap.holds σ' newNodes b'
          /\ Heap.holds σ' nodes b)
  /\ (forall b inputs, isBoard b ->
        exists b', evaluateBoard b inputs = Ok b' /\ isBoard b')
  /\ (forall b1 b2 inputs,
        isBoard b1 -> sameGates b1 b2 ->
        evaluateBoard b1 inputs = evaluateBoard b2 inputs)
  /\ (forall b inputs b',
        evaluateBoard b inputs = Ok b' -> evaluateBoard b' inputs = Ok b').
Proof.
  split; [|split; [|split; [|split]]].
  - intros σ nodes inputs. apply evaluateBoard_frame.
  - intros σ nodes inputs b Hh Hb.
    pose proof (holds_evaluateBoard nodes inputs σ b Hh) as Hrun.
    destruct (evaluateBoard_total b inputs (proj2 Hb)) as [b' Hb'].
    rewrite Hb' in Hrun. destruct Hrun as (newNodes & σ' & Hrun & Hfresh & Hnew).
    exists newNodes, σ', b'. repeat split; try done.
    eapply holds_mono; [|exact Hh].
    pose proof (evaluateBoard_frame nodes inputs σ) as Hsub.
    by rewrite Hrun in Hsub.
  - intros b inputs Hb.
    destruct (evaluateBoard_total b inputs (proj2 Hb)) as [b' Hb'].
    exists b'. split; [done|].
    destruct (evaluateBoard_keeps_slots _ _ _ Hb') as (Hs & Hlen & _).
    split; [|done]. rewrite Hlen. apply Hb.
  - apply evaluateBoard_values_irrelevant.
  - apply evaluateBoard_idempotent.
Qed.

Lemma holds_storeA : Heap.holds Scenario.storeA 8 Scenario.boardA.
Proof.
  eexists. split; [by vm_compute|]. repeat constructor.
Qed.

Lemma evaluateBoard_pure_and_idempotent_witness :
  exists newNodes σ' b',
    Heap.evaluateBoard 8 Scenario.bits1100 Scenario.storeA = (Ok newNodes, σ')
    /\ Scenario.storeA !! newNodes = None
    /\ evaluateBoard Scenario.boardA Scenario.bits1100 = Ok b'
    /\ Heap.holds σ' newNodes b'
    /\ Heap.holds σ' 8 Scenario.boardA.
Proof.
  refine (proj1 (proj2 evaluateBoard_pure_and_idempotent)
            Scenario.storeA 8%positive Scenario.bits1100 Scenario.boardA _ _).
  - apply holds_storeA.
  - apply (bool_decide_unpack _); vm_compute; exact I.
Defined.

End HeapEvaluator.

(* ===================================================================== *)
(** ** The board of the game state stays evaluated *)
(* ===================================================================== *)

Section BoardLaw.

Local Arguments evaluateBoard : simpl never.
Local Arguments checkWinCondition : simpl never.
Local Arguments storeGate : simpl never.
Local Arguments cellAt : simpl never.

Ltac runM :=
  unfold mbind, M_bind, mret, M_ret, lift, throw, endOfTurn, setIsThinking,
    setBoard, setPlayers, setTurn, setWinner, setSelectedCardIndex;
  cbn beta iota zeta.

(** [executeMove] never writes [inputs], and writes [board] only with what
    [evaluateBoard] returned. *)
Lemma executeMove_board cl a p slot g idx s :
  let st' := snd (executeMove cl a p slot g idx s) in
  inputs st' = inputs s
  /\ (board st' = board s
      \/ exists k t, evaluateBoard (storeGate (board cl) k t) (inputs cl)
                     = Ok (board st')).
Proof.
  unfold executeMove. runM.
  destruct (valueOf (cellAt (board cl) 0)) as [v|e]; [|by split; [|left]].
  destruct a.
  2: { unfold freshHand. rewrite pushRandom_eq. by split; [|left]. }
  destruct slot as [k|], g as [t|], idx as [i|]; try (by split; [|left]).
  destruct (evaluateBoard _ _) as [eb|e] eqn:He; [|by split; [|left]].
  cbn beta iota.
  destruct (valueOf (cellAt eb 0)) as [v'|e]; [|split; [done|right; by eauto]].
  destruct (checkWinCondition eb) as [[w|]|e];
    [split; [done|right; by eauto]| |split; [done|right; by eauto]].
  cbn beta iota. unfold refill. rewrite pushRandom_eq.
  split; [done|right; by eauto].
Qed.

Lemma boardLaw_INITIAL_BOARD inputs : boardLaw inputs INITIAL_BOARD.
Proof.
  intros i Hi. unfold BOARD_SIZE in Hi.
  unfold slotLaw, valueAt, gateAt, cellAt.
  do 7 (destruct i as [|i]; [cbn; split; [split; auto|done]|]). lia.
Qed.

(** C8.  After every run of [evaluateBoard] on a board with its seven slots
    and 8 input bits, every slot i in [0,6] keeps its gate and obeys the
    slot law: its value is unset exactly when its gate is unset or (for
    i < 3) the value of a child 2i+1, 2i+2 is unset; otherwise it is the
    boolean table of its gate applied to its two operands (input bits
    (i-3)*2 and (i-3)*2+1 for i >= 3, the values of the children for i < 3).
    The initial board obeys the law, and every [executeMove] -- placement or
    discard -- leaves the inputs alone and the board under the law. *)
Theorem board_obeys_slot_law :
  (forall b inputs,
     slotsDefined b -> length inputs = INITIAL_INPUTS_COUNT ->
     exists b',
       evaluateBoard b inputs = Ok b'
       /\ forall i, i < BOARD_SIZE ->
            gateAt b' i = gateAt b i
            /\ (valueAt b' i = VNull <->
                  gateAt b' i = None
                  \/ (i < 3 /\ (valueAt b' (2 * i + 1) = VNull
                                \/ valueAt b' (2 * i + 2) = VNull)))
            /\ (valueAt b' i <> VNull ->
                exists g x y,
                  gateAt b' i = Some g
                  /\ operandsOf inputs b' i = (VBit x, VBit y)
                  /\ valueAt b' i
                     = VBit (ofBool (gateTable g (toBool x) (toBool y)))))
  /\ (forall inputs, boardLaw inputs INITIAL_BOARD)
  /\ (forall cl a p slot g idx,
        slotsDefined (board cl) ->
        length (inputs cl) = INITIAL_INPUTS_COUNT ->
        boardLaw (inputs cl) (board cl) ->
        let st' := after (fun c => executeMove c a p slot g idx) cl in
        inputs st' = inputs cl /\ boardLaw (inputs st') (board st')).
Proof.
  split; [|split].
  - intros b inputs Hb Hin.
    destruct (evaluateBoard_law b inputs Hb Hin) as (b' & He & _ & _ & Hg & Hlaw).
    exists b'. split; [done|]. intros i Hi.
    split; [apply Hg|]. apply (Hlaw i Hi).
  - apply boardLaw_INITIAL_BOARD.
  - intros cl a p slot g idx Hb Hin Hlaw st'. subst st'. unfold after.
    destruct (executeMove_board cl a p slot g idx cl) as [Hi [Hsame|(k & t & He)]].
    + rewrite Hi, Hsame. done.
    + rewrite Hi. split; [done|].
      destruct (evaluateBoard_law _ (inputs cl) (storeGate_slotsDefined _ k t Hb) Hin)
        as (b' & He' & _ & _ & _ & Hlaw').
      rewrite He in He'. by injection He' as ->.
Qed.

Lemma board_obeys_slot_law_witness :
  let st' := after (fun c => executeMove c PLACE P1 (Some (KNum 3)) (Some AND)
                               (Some 0)) Scenario.newMatch in
  inputs st' = inputs Scenario.newMatch /\ boardLaw (inputs st') (board st').
Proof.
  refine (proj2 (proj2 board_obeys_slot_law) Scenario.newMatch PLACE P1
            (Some (KNum 3)) (Some AND) (Some 0) _ _ _).
  - apply (bool_decide_unpack _); vm_compute; exact I.
  - reflexivity.
  - apply (proj1 (proj2 board_obeys_slot_law)).
Defined.

End BoardLaw.

(* ===================================================================== *)
(** ** More on the evaluator: failure, missing gates, missing inputs *)
(* ===================================================================== *)

Section EvaluatorEdges.

Implicit Types (b : Arr) (inputs : list Bit).

Lemma operands_throws inputs i b e :
  operands inputs i b = Throw e -> e = TypeError.
Proof.
  unfold operands. destruct (3 <=? i); [discriminate|].
  destruct (cellAt b (i * 2 + 1)) as [n1|]; cbn; [|congruence].
  destruct (cellAt b (i * 2 + 2)) as [n2|]; cbn; congruence.
Qed.

Lemma loopBody_throws inputs i b e :
  loopBody inputs i b = Throw e -> e = TypeError.
Proof.
  unfold loopBody. destruct (cellAt b i) as [n|]; [|congruence].
  destruct (gate n); [|discriminate].
  destruct (operands inputs i b) as [[va vb]|e'] eqn:Hop; cbn.
  - destruct (notNull va && notNull vb); discriminate.
  - intros [= <-]. by eapply operands_throws.
Qed.

Lemma loopFrom_throws inputs k b e :
  loopFrom inputs k b = Throw e -> e = TypeError.
Proof.
  revert b. induction k as [|k IH]; intros b; cbn [loopFrom]; [discriminate|].
  destruct (loopBody inputs k b) as [b1|e'] eqn:Hb; cbn.
  - apply IH.
  - intros [= <-]. by eapply loopBody_throws.
Qed.

Lemma evaluateBoard_keeps_ids b inputs b' :
  evaluateBoard b inputs = Ok b' -> forall i, Game.idAt b' i = Game.idAt b i.
Proof.
  intros He. pose proof (evaluateBoard_Ok_slots _ _ _ He) as Hb.
  destruct (slotsDefined_inv b Hb) as (n0&n1&n2&n3&n4&n5&n6&rest&->).
  rewrite evaluateBoard_seven in He. injection He as <-.
  intros i. unfold Game.idAt.
  do 7 (destruct i as [|i]; [reflexivity|]). reflexivity.
Qed.

(** X1.  [evaluateBoard] returns exactly on the arrays whose cells 0..6 hold
    nodes, and then keeps the length, every id and gate, and every cell
    from index 7 on; on any other array (too short, or with an [undefined]
    cell among the first seven) it throws a [TypeError]. *)
Theorem evaluateBoard_returns_iff_seven_slots b inputs :
  (slotsDefined b ->
     exists b',
       evaluateBoard b inputs = Ok b'
       /\ length b' = length b
       /\ (forall i, gateAt b' i = gateAt b i)
       /\ (forall i, Game.idAt b' i = Game.idAt b i)
       /\ (forall i, BOARD_SIZE <= i -> cellAt b' i = cellAt b i))
  /\ (~ slotsDefined b -> evaluateBoard b inputs = Throw TypeError).
Proof.
  split.
  - intros Hb. destruct (evaluateBoard_total b inputs Hb) as [b' He].
    destruct (evaluateBoard_keeps_slots _ _ _ He) as (_ & Hlen & Hg & Hrest).
    exists b'. repeat split; try done. by eapply evaluateBoard_keeps_ids.
  - intros Hb. destruct (evaluateBoard b inputs) as [b'|e] eqn:He.
    + exfalso. by eapply Hb, evaluateBoard_Ok_slots.
    + f_equal. by eapply loopFrom_throws.
Qed.

Lemma evaluateBoard_returns_iff_seven_slots_witness :
  (exists b',
     evaluateBoard Scenario.boardA Scenario.bits1100 = Ok b'
     /\ length b' = length Scenario.boardA
     /\ (forall i, gateAt b' i = gateAt Scenario.boardA i)
     /\ (forall i, Game.idAt b' i = Game.idAt Scenario.boardA i)
     /\ (forall i, BOARD_SIZE <= i -> cellAt b' i = cellAt Scenario.boardA i))
  /\ evaluateBoard (take 6 Scenario.boardA) Scenario.bits1100 = Throw TypeError.
Proof.
  split.
  - refine (proj1 (evaluateBoard_returns_iff_seven_slots Scenario.boardA
                     Scenario.bits1100) _).
    apply (bool_decide_unpack _); vm_compute; exact I.
  - refine (proj2 (evaluateBoard_returns_iff_seven_slots
                     (take 6 Scenario.boardA) Scenario.bits1100) _).
    intros [Hlen _]. vm_compute in Hlen. lia.
Defined.

(** X2.  After [evaluateBoard], whatever the inputs: the root value is set
    exactly when all seven gates are placed, and a slot without a gate
    leaves itself, its parent and the root unset. *)
Theorem root_is_set_iff_board_full b inputs b' :
  slotsDefined b -> evaluateBoard b inputs = Ok b' ->
  (valueAt b' 0 <> VNull <-> full b)
  /\ (forall i, i < BOARD_SIZE -> gateAt b i = None ->
        valueAt b' i = VNull
        /\ valueAt b' ((i - 1) / 2) = VNull
        /\ valueAt b' 0 = VNull).
Proof.
  intros Hb He.
  destruct (slotsDefined_inv b Hb) as (n0&n1&n2&n3&n4&n5&n6&rest&->).
  rewrite evaluateBoard_seven in He. injection He as <-.
  rewrite full_seven.
  unfold valueAt, gateAt, cellAt, BOARD_SIZE. cbn -[settle Nat.div].
  destruct n0 as [i0 g0 w0], n1 as [i1 g1 w1], n2 as [i2 g2 w2],
    n3 as [i3 g3 w3], n4 as [i4 g4 w4], n5 as [i5 g5 w5], n6 as [i6 g6 w6].
  cbn [gate]. split.
  - destruct g0, g1, g2, g3, g4, g5, g6; cbn; rewrite ?notNull_inputAt; cbn;
      split; intros H; try done; try discriminate H.
  - intros i Hi Hnone.
    do 7 (destruct i as [|i];
          [cbn -[settle] in Hnone |- *;
           destruct g0, g1, g2, g3, g4, g5, g6; try discriminate Hnone; cbn;
           rewrite ?notNull_inputAt; cbn; done|]).
    lia.
Qed.

Lemma root_is_set_iff_board_full_witness :
  valueAt Scenario.boardFull 0 <> VNull <-> full Scenario.boardFull.
Proof.
  refine (proj1 (root_is_set_iff_board_full Scenario.boardFull
                   Scenario.bits1010 Scenario.boardFull _ _)).
  - apply (bool_decide_unpack _); vm_compute; exact I.
  - reflexivity.
Defined.

Lemma inputAt_missing inputs k :
  length inputs <= k -> inputAt inputs k = VUndefined.
Proof. intros Hk. unfold inputAt. by rewrite lookup_ge_None_2. Qed.

(** X3.  A leaf slot with a gate never comes out unset, whatever the length
    of the input array: a missing input reads as [undefined], which is not
    [null].  When both inputs of the leaf are missing the value is that of
    the gate on 0, 0; with the first input present and the second missing,
    XOR gives 1 whatever the first input is. *)
Theorem leaf_with_gate_is_never_unset b inputs b' i g :
  slotsDefined b -> evaluateBoard b inputs = Ok b' ->
  3 <= i < BOARD_SIZE -> gateAt b i = Some g ->
  (exists r, valueAt b' i = VBit r)
  /\ (length inputs <= (i - 3) * 2 ->
      valueAt b' i = VBit (ofBool (gateTable g false false)))
  /\ (length inputs = (i - 3) * 2 + 1 -> g = XOR -> valueAt b' i = VBit One).
Proof.
  intros Hb He Hi Hg.
  destruct (slotsDefined_inv b Hb) as (n0&n1&n2&n3&n4&n5&n6&rest&->).
  rewrite evaluateBoard_seven in He. injection He as <-.
  unfold BOARD_SIZE in Hi.
  assert (Hleaf : forall (n : BoardNode) k,
            gate n = Some g ->
            let v := settle (gate n) (inputAt inputs k) (inputAt inputs (k + 1)) in
            (exists r, v = VBit r)
            /\ (length inputs <= k -> v = VBit (ofBool (gateTable g false false)))
            /\ (length inputs = k + 1 -> g = XOR -> v = VBit One)).
  { intros n k -> v. subst v. cbn [settle]. rewrite !notNull_inputAt. cbn [andb].
    split; [by eexists|]. split.
    - intros Hk. rewrite !inputAt_missing by lia. by destruct g.
    - intros Hk ->. rewrite (inputAt_missing inputs (k + 1)) by lia.
      destruct (inputAt_bit inputs k ltac:(lia)) as [x ->]. by destruct x. }
  unfold gateAt, valueAt, cellAt in *.
  destruct i as [|[|[|[|[|[|[|i]]]]]]]; try lia; cbn -[settle] in Hg |- *.
  - apply (Hleaf n3 0 Hg).
  - apply (Hleaf n4 2 Hg).
  - apply (Hleaf n5 4 Hg).
  - apply (Hleaf n6 6 Hg).
Qed.

Lemma leaf_with_gate_is_never_unset_witness :
  exists b',
    evaluateBoard Scenario.boardA [] = Ok b'
    /\ valueAt b' 3 = VBit (ofBool (gateTable OR false false)).
Proof.
  eexists. split; [reflexivity|].
  refine (proj1 (proj2 (leaf_with_gate_is_never_unset Scenario.boardA []
                          _ 3 OR _ _ _ _)) _).
  - apply (bool_decide_unpack _); vm_compute; exact I.
  - reflexivity.
  - unfold BOARD_SIZE. lia.
  - reflexivity.
  - simpl. lia.
Defined.

Lemma getValue_leaf fuel inputs b i n :
  3 <= i -> cellAt b i = Some n ->
  LogicHelper.getValue (S fuel) inputs b i
  = Some (Ok (settle (gate n) (inputAt inputs ((i - 3) * 2))
                     (inputAt inputs ((i - 3) * 2 + 1)))).
Proof.
  intros Hi Hc. cbn [LogicHelper.getValue]. rewrite Hc.
  destruct (gate n); [|done].
  by rewrite (proj2 (Nat.leb_le 3 i) Hi).
Qed.

Lemma getValue_inner fuel inputs b i n va vb :
  i < 3 -> cellAt b i = Some n ->
  LogicHelper.getValue fuel inputs b (i * 2 + 1) = Some (Ok va) ->
  LogicHelper.getValue fuel inputs b (i * 2 + 2) = Some (Ok vb) ->
  LogicHelper.getValue (S fuel) inputs b i = Some (Ok (settle (gate n) va vb)).
Proof.
  intros Hi Hc Ha Hv. cbn [LogicHelper.getValue]. rewrite Hc.
  destruct (gate n); [|done].
  rewrite (proj2 (Nat.leb_gt 3 i) Hi). by rewrite Ha, Hv.
Qed.

(** X4.  The recursive helper [getValue] and the loop of [evaluateBoard]
    agree: on a board with its seven slots, [getValue] at any slot returns,
    with three levels of calls at most, the value the loop writes there --
    asked before the loop has run or after.  One level is too few for an
    inner slot with a gate, and an index past the board is a [TypeError]. *)
Theorem getValue_agrees_with_loop b inputs b' :
  isBoard b -> evaluateBoard b inputs = Ok b' ->
  (forall i k, i < BOARD_SIZE ->
     LogicHelper.getValue (3 + k) inputs b i = Some (Ok (valueAt b' i))
     /\ LogicHelper.getValue (3 + k) inputs b' i = Some (Ok (valueAt b' i)))
  /\ (forall i, i < 3 -> is_Some (gateAt b i) ->
        LogicHelper.getValue 1 inputs b i = None)
  /\ (forall i k, BOARD_SIZE <= i ->
        LogicHelper.getValue (S k) inputs b i = Some (Throw TypeError)).
Proof.
  intros Hb He.
  destruct (isBoard_inv b Hb) as (n0&n1&n2&n3&n4&n5&n6&->).
  rewrite evaluateBoard_seven in He. injection He as <-.
  split; [|split].
  - assert (Hall : forall (m0 m1 m2 m3 m4 m5 m6 : BoardNode) i k,
              i < 7 ->
              let l := [Some m0; Some m1; Some m2; Some m3; Some m4; Some m5;
                        Some m6] in
              let v6 := settle (gate m6) (inputAt inputs 6) (inputAt inputs 7) in
              let v5 := settle (gate m5) (inputAt inputs 4) (inputAt inputs 5) in
              let v4 := settle (gate m4) (inputAt inputs 2) (inputAt inputs 3) in
              let v3 := settle (gate m3) (inputAt inputs 0) (inputAt inputs 1) in
              let v2 := settle (gate m2) v5 v6 in
              let v1 := settle (gate m1) v3 v4 in
              let v0 := settle (gate m0) v1 v2 in
              LogicHelper.getValue (3 + k) inputs l i
              = Some (Ok (nth i [v0; v1; v2; v3; v4; v5; v6] VNull))).
    { intros m0 m1 m2 m3 m4 m5 m6 i k Hi l v6 v5 v4 v3 v2 v1 v0.
      assert (H3 : forall f, LogicHelper.getValue (S f) inputs l 3 = Some (Ok v3))
        by (intros f; rewrite (getValue_leaf f inputs l 3 m3); [reflexivity|lia|reflexivity]).
      assert (H4 : forall f, LogicHelper.getValue (S f) inputs l 4 = Some (Ok v4))
        by (intros f; rewrite (getValue_leaf f inputs l 4 m4); [reflexivity|lia|reflexivity]).
      assert (H5 : forall f, LogicHelper.getValue (S f) inputs l 5 = Some (Ok v5))
        by (intros f; rewrite (getValue_leaf f inputs l 5 m5); [reflexivity|lia|reflexivity]).
      assert (H6 : forall f, LogicHelper.getValue (S f) inputs l 6 = Some (Ok v6))
        by (intros f; rewrite (getValue_leaf f inputs l 6 m6); [reflexivity|lia|reflexivity]).
      assert (H1 : forall f, LogicHelper.getValue (S (S f)) inputs l 1 = Some (Ok v1)).
      { intros f. apply (getValue_inner _ inputs l 1 m1); [lia|done|apply H3|apply H4]. }
      assert (H2 : forall f, LogicHelper.getValue (S (S f)) inputs l 2 = Some (Ok v2)).
      { intros f. apply (getValue_inner _ inputs l 2 m2); [lia|done|apply H5|apply H6]. }
      assert (H0 : forall f, LogicHelper.getValue (S (S (S f))) inputs l 0 = Some (Ok v0)).
      { intros f. apply (getValue_inner _ inputs l 0 m0); [lia|done|apply H1|apply H2]. }
      change (3 + k) with (S (S (S k))).
      destruct i as [|[|[|[|[|[|[|i]]]]]]]; try lia; cbn [nth]; auto. }
    intros i k Hi. unfold BOARD_SIZE in Hi. split.
    + rewrite (Hall n0 n1 n2 n3 n4 n5 n6 i k Hi). unfold valueAt, cellAt.
      destruct i as [|[|[|[|[|[|[|i]]]]]]]; try lia; reflexivity.
    + rewrite (Hall _ _ _ _ _ _ _ i k Hi). unfold valueAt, cellAt.
      destruct i as [|[|[|[|[|[|[|i]]]]]]]; try lia; reflexivity.
  - intros i Hi [g Hg]. unfold gateAt, cellAt in Hg.
    destruct i as [|[|[|i]]]; try lia; cbn in Hg |- *; by rewrite Hg.
  - intros i k Hi. unfold BOARD_SIZE in Hi. cbn [LogicHelper.getValue].
    unfold cellAt. by rewrite lookup_ge_None_2 by (simpl; lia).
Qed.

Lemma getValue_agrees_with_loop_witness :
  LogicHelper.getValue 3 Scenario.bits1010 Scenario.boardFull 0
  = Some (Ok (VBit One)).
Proof.
  refine (proj1 (proj1 (getValue_agrees_with_loop Scenario.boardFull
            Scenario.bits1010 Scenario.boardFull _ _) 0 0 _)).
  - apply (bool_decide_unpack _); vm_compute; exact I.
  - reflexivity.
  - unfold BOARD_SIZE. lia.
Defined.

(** X5.  The five gates do not tell their operands apart, on every operand
    value the code can meet ([undefined] included), and NAND and NOR are
    the complements of AND and OR. *)
Theorem evaluateGate_symmetric g (a c : Val) :
  evaluateGate g a c = evaluateGate g c a
  /\ toBool (evaluateGate NAND a c) = negb (toBool (evaluateGate AND a c))
  /\ toBool (evaluateGate NOR a c) = negb (toBool (evaluateGate OR a c)).
Proof.
  split; [|split].
  - destruct g, a as [| |[|]], c as [| |[|]]; reflexivity.
  - destruct a as [| |[|]], c as [| |[|]]; reflexivity.
  - destruct a as [| |[|]], c as [| |[|]]; reflexivity.
Qed.

(** X6.  [checkWinCondition] on an array of any length: the empty array is
    a [TypeError] (every gate is vacuously set, then [nodes[0]] is read);
    on a non-empty array of nodes the result is "no winner" as soon as one
    gate is missing, and otherwise decided by the value of node 0 alone:
    P1 for 1, P2 for 0, DRAW for anything else. *)
Theorem checkWinCondition_any_length :
  checkWinCondition [] = Throw TypeError
  /\ (forall (n : BoardNode) (rest : Arr),
        Forall is_Some rest ->
        checkWinCondition (Some n :: rest)
        = Ok (if forallb gateSet (Some n :: rest)
              then Some (match value n with
                         | VBit One => Win P1
                         | VBit Zero => Win P2
                         | _ => DRAW
                         end)
              else None)).
Proof.
  split; [reflexivity|].
  intros n rest Hrest. unfold checkWinCondition.
  rewrite everyGateSet_defined by (constructor; eauto).
  cbn [mbind Res_bind].
  destruct (forallb gateSet (Some n :: rest)); [|done].
  cbn. by destruct (value n) as [| |[|]].
Qed.

Lemma checkWinCondition_any_length_witness :
  checkWinCondition [Some (mkNode None (Some AND) VUndefined)]
  = Ok (Some DRAW).
Proof.
  refine (proj2 checkWinCondition_any_length
            (mkNode None (Some AND) VUndefined) [] _).
  constructor.
Defined.

End EvaluatorEdges.

(* ===================================================================== *)
(** ** [executeMove] on the board of a match *)
(* ===================================================================== *)

Section Moves.

Local Arguments evaluateBoard : simpl never.
Local Arguments checkWinCondition : simpl never.
Local Arguments storeGate : simpl never.
Local Arguments cellAt : simpl never.

Ltac runM :=
  unfold mbind, M_bind, mret, M_ret, lift, throw, endOfTurn, setIsThinking,
    setBoard, setPlayers, setTurn, setWinner, setSelectedCardIndex;
  cbn beta iota zeta.

(** [executeMove] starts with [setIsThinking(true)]: whether the flag was
    already set makes no difference. *)
Lemma executeMove_thinking cl a p slot g idx s :
  executeMove cl a p slot g idx (withIsThinking true s)
  = executeMove cl a p slot g idx s.
Proof. reflexivity. Qed.

Lemma checkWinCondition_Some_inv eb w :
  isBoard eb -> checkWinCondition eb = Ok (Some w) ->
  full eb
  /\ w = match valueAt eb 0 with
         | VBit One => Win P1
         | VBit Zero => Win P2
         | _ => DRAW
         end.
Proof.
  intros Hb Hw. destruct (isBoard_inv eb Hb) as (n0&n1&n2&n3&n4&n5&n6&->).
  pose proof (checkWinCondition_seven n0 n1 n2 n3 n4 n5 n6) as H.
  cbv zeta in H. rewrite H in Hw. clear H.
  destruct (forallb gateSet _) eqn:Hall; [|discriminate Hw].
  split; [by apply full_seven|]. by injection Hw as <-.
Qed.

Lemma checkWinCondition_None_inv eb :
  isBoard eb -> checkWinCondition eb = Ok None -> ~ full eb.
Proof.
  intros Hb Hw Hfull. destruct (isBoard_inv eb Hb) as (n0&n1&n2&n3&n4&n5&n6&->).
  pose proof (checkWinCondition_seven n0 n1 n2 n3 n4 n5 n6) as H.
  cbv zeta in H. rewrite H in Hw. clear H.
  apply full_seven in Hfull. rewrite Hfull in Hw. discriminate Hw.
Qed.

(** On an evaluated full board the root is a bit. *)
Lemma full_root_bit b inputs b' :
  slotsDefined b -> evaluateBoard b inputs = Ok b' -> full b' ->
  exists r, valueAt b' 0 = VBit r.
Proof.
  intros Hb He Hfull.
  destruct (slotsDefined_inv b Hb) as (n0&n1&n2&n3&n4&n5&n6&rest&->).
  rewrite evaluateBoard_seven in He. injection He as <-.
  apply full_seven in Hfull.
  destruct n0 as [i0 [g0|] w0], n1 as [i1 [g1|] w1], n2 as [i2 [g2|] w2],
    n3 as [i3 [g3|] w3], n4 as [i4 [g4|] w4], n5 as [i5 [g5|] w5],
    n6 as [i6 [g6|] w6]; try discriminate Hfull.
  unfold valueAt, cellAt. cbn. rewrite !notNull_inputAt. cbn. eauto.
Qed.

(** A placement, once the board with the gate stored is again a seven-slot
    board: what [evaluateBoard] returns, and the two ways the call ends. *)
Lemma executeMove_place_on_board cl p k t i s :
  isBoard (board cl) -> isBoard (storeGate (board cl) k t) ->
  exists eb,
    evaluateBoard (storeGate (board cl) k t) (inputs cl) = Ok eb
    /\ isBoard eb
    /\ (forall j, gateAt eb j = gateAt (storeGate (board cl) k t) j)
    /\ (forall j, Game.idAt eb j = Game.idAt (storeGate (board cl) k t) j)
    /\ ((exists w, checkWinCondition eb = Ok (Some w)
          /\ executeMove cl PLACE p (Some k) (Some t) (Some i) s
             = (Ok tt,
                withIsThinking false
                  (withWinner (Some w) (withBoard eb (withIsThinking true s)))))
        \/ (checkWinCondition eb = Ok None
            /\ executeMove cl PLACE p (Some k) (Some t) (Some i) s
               = (Ok tt,
                  let s2 := withBoard eb (withIsThinking true s) in
                  let h := delete i (handOf cl p) in
                  endedTurn p
                    (withPlayers
                       (withHand (players s2) p
                          (h ++ drawn (world s2) (3 - length h)))
                       (withWorld (advance (3 - length h) (world s2)) s2))))).
Proof.
  intros Hb Hnb.
  destruct (evaluateBoard_total _ (inputs cl) (proj2 Hnb)) as [eb He].
  destruct (evaluateBoard_keeps_slots _ _ _ He) as (Hs & Hlen & Hg & _).
  assert (Heb : isBoard eb).
  { split; [|done]. rewrite Hlen. apply Hnb. }
  pose proof (slotsDefined_root _ (proj2 Hb)) as Hroot.
  exists eb. split; [done|]. split; [done|]. split; [done|].
  split; [by eapply evaluateBoard_keeps_ids|].
  destruct (checkWinCondition_total eb Heb) as [[w|] Hw].
  - left. exists w. split; [done|]. by apply executeMove_place_win.
  - right. split; [done|]. by apply executeMove_place_on.
Qed.

(** The slot argument keeps the array a seven-slot board whenever it is
    not a number of 7 or more. *)
Lemma storeGate_isBoard b k t :
  isBoard b -> (forall z, k = KNum z -> (z < 7)%Z) -> isBoard (storeGate b k t).
Proof.
  intros Hb Hk. destruct k as [z|g]; [|done].
  specialize (Hk z eq_refl).
  destruct (decide (0 <= z)%Z).
  - by apply storeGate_in_range.
  - unfold storeGate. by rewrite decide_False.
Qed.

(** On a seven-slot board, [executeMove] returns normally whenever it is
    not handed a slot number of 7 or more. *)
Lemma executeMove_returns cl a p slot g idx s :
  isBoard (board cl) ->
  (forall z, slot = Some (KNum z) -> (z < 7)%Z) ->
  fst (executeMove cl a p slot g idx s) = Ok tt.
Proof.
  intros Hb Hk.
  pose proof (slotsDefined_root _ (proj2 Hb)) as Hroot.
  destruct a; [|by rewrite executeMove_discard].
  destruct slot as [k|]; [|by rewrite executeMove_place_missing; auto].
  destruct g as [t|]; [|by rewrite executeMove_place_missing; auto].
  destruct idx as [i|]; [|by rewrite executeMove_place_missing; auto].
  destruct (executeMove_place_on_board cl p k t i s Hb)
    as (eb & _ & _ & _ & _ & [(w & _ & ->)|[_ ->]]); try done.
  apply storeGate_isBoard; [done|]. intros z ->. by apply Hk.
Qed.

(** Whenever [executeMove] returns normally, the turn in progress is over:
    [isThinking] is false again, and the turn has passed to the other
    player unless the move has set the winner. *)
Lemma executeMove_ends cl a p slot g idx s :
  fst (executeMove cl a p slot g idx s) = Ok tt ->
  let st' := snd (executeMove cl a p slot g idx s) in
  isThinking st' = false /\ (turn st' = other p \/ is_Some (winner st')).
Proof.
  unfold executeMove. runM.
  destruct (valueOf (cellAt (board cl) 0)) as [v|e]; [|discriminate].
  destruct a.
  2: { unfold freshHand. rewrite pushRandom_eq. cbn. auto. }
  destruct slot as [k|], g as [t|], idx as [i|]; try (cbn; by auto).
  destruct (evaluateBoard _ _) as [eb|e]; [|discriminate].
  cbn beta iota.
  destruct (valueOf (cellAt eb 0)) as [v'|e]; [|discriminate].
  destruct (checkWinCondition eb) as [[w|]|e]; [cbn; by eauto| |discriminate].
  cbn beta iota. unfold refill. rewrite pushRandom_eq. cbn. auto.
Qed.

(** [executeMove] for player [p] writes neither the inputs nor the mode
    flags nor the hand of the other player, however it ends. *)
Lemma executeMove_sameSetting cl a p slot g idx s :
  Game.sameSetting p s (snd (executeMove cl a p slot g idx s)).
Proof.
  unfold executeMove, Game.sameSetting, handOf. runM.
  destruct (valueOf (cellAt (board cl) 0)) as [v|e]; [|done].
  destruct a.
  2: { unfold freshHand. rewrite pushRandom_eq. cbn. by destruct p. }
  destruct slot as [k|], g as [t|], idx as [i|]; try done.
  destruct (evaluateBoard _ _) as [eb|e]; [|done].
  cbn beta iota.
  destruct (valueOf (cellAt eb 0)) as [v'|e]; [|done].
  destruct (checkWinCondition eb) as [[w|]|e]; [done| |done].
  cbn beta iota. unfold refill. rewrite pushRandom_eq. cbn. by destruct p.
Qed.

(** The shape of [performAIMove]: either the [try] block throws before
    any call of [executeMove] and the [catch] block discards, or the [try]
    block is one call of [executeMove] for P2, with the discard of the
    [catch] block behind it. *)
Lemma performAIMove_shape cl reply s :
  performAIMove cl reply s = executeMove cl DISCARD P2 None None None s
  \/ exists a slot g idx,
       performAIMove cl reply s
       = tryCatch (executeMove cl a P2 slot g idx)
                  (executeMove cl DISCARD P2 None None None)
                  (withIsThinking true s).
Proof.
  rewrite <- (executeMove_thinking cl DISCARD P2 None None None s).
  unfold performAIMove. runM.
  destruct reply as [|m]; [by left|]. unfold tryCatch at 1. runM.
  case_bool_decide; [right; by eexists _, _, _, _|].
  destruct (slotId m) as [z|]; [|by left].
  destruct (gateType m) as [name|]; [|by left].
  destruct (String.eqb name ""); [by left|].
  destruct (gateOf (cellAtZ (board cl) z)) as [[occ|]|e]; [| |by left].
  - destruct (findEmpty (board cl)) as [[n|]|e]; [| |by left];
      right; by eexists _, _, _, _.
  - right. by eexists _, _, _, _.
Qed.

(** X17.  The AI turn never stalls and never rejects: on any board that has
    its node 0, whatever the proposer returns (or if it fails),
    [performAIMove] returns normally with [isThinking] false again, and the
    turn is with P1 unless a winner is set. *)
Theorem performAIMove_always_completes cl reply s :
  is_Some (cellAt (board cl) 0) ->
  let r := performAIMove cl reply s in
  fst r = Ok tt
  /\ isThinking (snd r) = false
  /\ (turn (snd r) = P1 \/ is_Some (winner (snd r))).
Proof.
  intros Hroot r. subst r.
  assert (Hd : forall s0,
            let r := executeMove cl DISCARD P2 None None None s0 in
            fst r = Ok tt /\ isThinking (snd r) = false
            /\ (turn (snd r) = P1 \/ is_Some (winner (snd r)))).
  { intros s0. rewrite executeMove_discard by done. cbn. auto. }
  destruct (performAIMove_shape cl reply s)
    as [->|(a & slot & g & idx & ->)]; [apply Hd|].
  unfold tryCatch.
  pose proof (executeMove_ends cl a P2 slot g idx (withIsThinking true s)) as He.
  destruct (executeMove cl a P2 slot g idx (withIsThinking true s))
    as [[[]|e] s1]; [|apply Hd].
  cbn [fst snd] in *. destruct (He eq_refl) as [? ?]. auto.
Qed.

Lemma performAIMove_always_completes_witness :
  fst (performAIMove Scenario.aiToMove Rejected Scenario.aiToMove) = Ok tt.
Proof.
  refine (proj1 (performAIMove_always_completes Scenario.aiToMove Rejected
                   Scenario.aiToMove _)).
  by eexists.
Defined.

Lemma sameSetting_trans p s1 s2 s3 :
  Game.sameSetting p s1 s2 -> Game.sameSetting p s2 s3 ->
  Game.sameSetting p s1 s3.
Proof.
  intros (?&?&?&?) (?&?&?&?). unfold Game.sameSetting. repeat split; congruence.
Qed.

Lemma performAIMove_sameSetting cl reply s :
  Game.sameSetting P2 s (snd (performAIMove cl reply s)).
Proof.
  destruct (performAIMove_shape cl reply s)
    as [->|(a & slot & g & idx & ->)]; [apply executeMove_sameSetting|].
  unfold tryCatch.
  pose proof (executeMove_sameSetting cl a P2 slot g idx (withIsThinking true s))
    as H1.
  destruct (executeMove cl a P2 slot g idx (withIsThinking true s))
    as [[[]|e] s1]; cbn [snd] in *; [exact H1|].
  eapply sameSetting_trans; [exact H1|apply executeMove_sameSetting].
Qed.

(** X8.  What the handlers never write.  A slot click, a discard, a card
    selection and the AI turn effect leave the inputs and the two mode flags
    ([gameStarted], [isAI]) as they are, in every state and however they
    end; a click or a discard leaves the hand of the player who is not to
    move alone, the AI turn effect never touches the hand of P1, and a card
    selection changes nothing but the selection. *)
Theorem handlers_keep_the_setting st :
  (forall z, Game.sameSetting (turn st) st
               (after (fun c => handleSlotClick c z) st))
  /\ Game.sameSetting (turn st) st (after handleDiscardHand st)
  /\ (forall reply, Game.sameSetting P2 st
                      (after (fun c => aiTurnEffect c reply) st))
  /\ (forall index,
        exists sel,
          after (fun c => handleCardSelect c index) st
          = withSelectedCardIndex sel st).
Proof.
  assert (Hrefl : forall p, Game.sameSetting p st st) by done.
  unfold after. split; [|split; [|split]].
  - intros z. unfold handleSlotClick.
    destruct (isSet (winner st) || isThinking st); [apply Hrefl|].
    destruct (selectedCardIndex st); [|apply Hrefl]. runM.
    destruct (gateOf (cellAtZ (board st) z)) as [[occ|]|e]; try apply Hrefl.
    apply executeMove_sameSetting.
  - unfold handleDiscardHand.
    destruct (isSet (winner st) || isThinking st); [apply Hrefl|].
    apply executeMove_sameSetting.
  - intros reply. unfold aiTurnEffect.
    destruct (_ && _); [|apply Hrefl]. apply performAIMove_sameSetting.
  - intros index. unfold handleCardSelect.
    assert (Hid : st = withSelectedCardIndex (selectedCardIndex st) st)
      by (by destruct st).
    destruct (isSet (winner st) || isThinking st); [by eexists|].
    destruct (isAI st && _); [by eexists|].
    case_bool_decide; by eexists.
Qed.

(** X7.  A discard by the player to move (winner unset, no turn in
    progress).  On a board that has its node 0 it returns normally: board,
    inputs and winner are as before, the hand of the player is replaced by
    the next three draws, the other hand is untouched, the turn passes, the
    selection is cleared and [isThinking] is false again.  On an array
    without node 0 it throws a [TypeError] having written only
    [isThinking = true], which no later write undoes. *)
Theorem discard_redraws_the_hand st :
  winner st = None -> isThinking st = false ->
  let r := handleDiscardHand st st in
  (is_Some (cellAt (board st) 0) ->
     fst r = Ok tt
     /\ board (snd r) = board st
     /\ inputs (snd r) = inputs st
     /\ winner (snd r) = None
     /\ handOf (snd r) (turn st) = drawn (world st) 3
     /\ length (handOf (snd r) (turn st)) = 3
     /\ handOf (snd r) (other (turn st)) = handOf st (other (turn st))
     /\ turn (snd r) = other (turn st)
     /\ selectedCardIndex (snd r) = None
     /\ isThinking (snd r) = false)
  /\ (cellAt (board st) 0 = None ->
      r = (Throw TypeError, withIsThinking true st)).
Proof.
  intros Hw Hth r. subst r. unfold handleDiscardHand.
  rewrite Hw, Hth. cbn [isSet orb]. split.
  - intros Hroot. rewrite executeMove_discard by done.
    unfold handOf. cbn. rewrite Hw.
    repeat split; try done; by destruct (turn st).
  - intros Hroot. unfold executeMove. runM. by rewrite Hroot.
Qed.

Lemma discard_redraws_the_hand_witness :
  handOf (snd (handleDiscardHand Scenario.humanToMove Scenario.humanToMove)) P2
  = [NOR; NOR; NOR].
Proof.
  refine (proj1 (proj2 (proj2 (proj2 (proj2
            (proj1 (discard_redraws_the_hand Scenario.humanToMove _ _) _)))))).
  - reflexivity.
  - reflexivity.
  - by eexists.
Defined.

(** X16.  The edges of a slot click (winner unset, no turn in progress).
    With no card selected nothing happens.  With a card selected, a slot
    number off the seven-slot board throws a [TypeError] before anything is
    written: the state is untouched.  With a selection that points past the
    hand, a click on an empty slot places nothing and draws nothing, yet the
    turn passes to the other player. *)
Theorem slot_click_edges st z :
  winner st = None -> isThinking st = false ->
  (selectedCardIndex st = None -> handleSlotClick st z st = (Ok tt, st))
  /\ (forall sel,
        selectedCardIndex st = Some sel -> isBoard (board st) ->
        (~ (0 <= z <= 6)%Z ->
           handleSlotClick st z st = (Throw TypeError, st))
        /\ ((0 <= z <= 6)%Z -> gateAt (board st) (Z.to_nat z) = None ->
            handOf st (turn st) !! sel = None ->
            handleSlotClick st z st
            = (Ok tt, endedTurn (turn st) (withIsThinking true st)))).
Proof.
  intros Hw Hth. split.
  - intros Hsel. unfold handleSlotClick. by rewrite Hw, Hth, Hsel.
  - intros sel Hsel Hb. split.
    + intros Hz. unfold handleSlotClick. rewrite Hw, Hth, Hsel.
      cbn [isSet orb]. runM. by rewrite (cellAtZ_outside _ _ Hb Hz).
    + intros Hz Hfree Hcard.
      rewrite (handleSlotClick_empty st z sel) by done. rewrite Hcard.
      apply executeMove_place_missing; [by apply slotsDefined_root, Hb|auto].
Qed.

Lemma slot_click_edges_witness :
  handleSlotClick Scenario.humanToMove 7 Scenario.humanToMove
  = (Throw TypeError, Scenario.humanToMove).
Proof.
  refine (proj1 (proj2 (slot_click_edges Scenario.humanToMove 7 _ _) 1 _ _) _).
  - reflexivity.
  - reflexivity.
  - reflexivity.
  - apply (bool_decide_unpack _); vm_compute; exact I.
  - lia.
Defined.

(** X12.  Card selection is a toggle.  When it is a human's turn (winner
    unset, no turn in progress), selecting the selected card clears the
    selection and selecting any other card moves it there.  Selecting the
    same card twice therefore brings the state back when that card or no
    card was selected before, and ends with no card selected when another
    card was.  On the turn of the AI, with a winner set or with a turn in
    progress the call does nothing. *)
Theorem card_selection_toggles st index :
  (winner st = None -> isThinking st = false ->
   (isAI st = false \/ turn st = P1) ->
     let st1 := after (fun c => handleCardSelect c index) st in
     (selectedCardIndex st = Some index -> st1 = withSelectedCardIndex None st)
     /\ (selectedCardIndex st <> Some index ->
         st1 = withSelectedCardIndex (Some index) st)
     /\ (selectedCardIndex st = None \/ selectedCardIndex st = Some index ->
         after (fun c => handleCardSelect c index) st1 = st)
     /\ (forall j, selectedCardIndex st = Some j -> j <> index ->
         after (fun c => handleCardSelect c index) st1
         = withSelectedCardIndex None st))
  /\ (is_Some (winner st) \/ isThinking st = true
      \/ (isAI st = true /\ turn st = P2) ->
      handleCardSelect st index st = (Ok tt, st)).
Proof.
  split.
  - intros Hw Hth Hhuman st1.
    assert (Hguard : isAI st && bool_decide (turn st = P2) = false).
    { destruct Hhuman as [-> | ->]; [done|]. by rewrite andb_false_r. }
    assert (H1 : st1 = if bool_decide (selectedCardIndex st = Some index)
                       then withSelectedCardIndex None st
                       else withSelectedCardIndex (Some index) st).
    { subst st1. unfold after, handleCardSelect.
      rewrite Hw, Hth, Hguard. cbn [isSet orb].
  by destruct (bool_decide (selectedCardIndex st = Some index)). }
    split; [|split; [|split]].
    + intros Hsel. by rewrite H1, bool_decide_eq_true_2.
    + intros Hsel. by rewrite H1, bool_decide_eq_false_2.
    + intros Hsel. rewrite H1. clear H1 st1. unfold after, handleCardSelect.
      destruct st as [gs ai b ins ps t w sel th wd]. cbn in *. subst w th.
      destruct Hsel as [-> | ->].
      * rewrite bool_decide_eq_false_2 by discriminate. cbn.
        rewrite Hguard. by rewrite bool_decide_eq_true_2.
      * rewrite bool_decide_eq_true_2 by done. cbn.
        rewrite Hguard. by rewrite bool_decide_eq_false_2.
    + intros j Hsel Hne. rewrite H1. clear H1 st1.
      unfold after, handleCardSelect.
      destruct st as [gs ai b ins ps t w sel th wd]. cbn in *. subst w th sel.
      rewrite bool_decide_eq_false_2 by congruence. cbn.
      rewrite Hguard. by rewrite bool_decide_eq_true_2.
  - intros Hblock. unfold handleCardSelect.
    destruct Hblock as [[w Hw]|[Hth|[Hai Ht]]].
    + by rewrite Hw.
    + rewrite Hth. by rewrite orb_true_r.
    + destruct (isSet (winner st) || isThinking st); [done|].
      by rewrite Hai, Ht.
Qed.

Lemma card_selection_toggles_witness :
  after (fun c => handleCardSelect c 1)
    (after (fun c => handleCardSelect c 1) Scenario.humanToMove)
  = Scenario.humanToMove.
Proof.
  refine (proj1 (proj2 (proj2 (proj1 (card_selection_toggles
                                        Scenario.humanToMove 1) _ _ _))) _).
  - reflexivity.
  - reflexivity.
  - by left.
  - by right.
Defined.



Lemma gateOf_cellAtZ_Ok b z g :
  isBoard b -> gateOf (cellAtZ b z) = Ok g ->
  (0 <= z < 7)%Z /\ gateAt b (Z.to_nat z) = g.
Proof.
  intros Hb H. destruct (decide (0 <= z <= 6)%Z) as [Hz|Hz].
  - destruct (gateAt_cellAtZ b z Hb ltac:(lia)) as (n & Hn & Hg).
    rewrite Hn in H. cbn in H. injection H as <-. split; [lia|done].
  - rewrite cellAtZ_outside in H by done. discriminate H.
Qed.

(** On a seven-slot board the [catch] block of [performAIMove] is never
    entered after [executeMove] has begun: the AI turn is one call of
    [executeMove] for P2, and a slot number reaches it only if it is an
    empty slot of the board. *)
Lemma performAIMove_is_executeMove cl reply s :
  isBoard (board cl) ->
  exists a slot g idx,
    Game.playable (board cl) slot
    /\ performAIMove cl reply s = executeMove cl a P2 slot g idx s.
Proof.
  intros Hb.
  assert (Hnone : Game.playable (board cl) None) by (intros z; discriminate).
  assert (Hcatch : forall a slot g idx,
            Game.playable (board cl) slot ->
            tryCatch (executeMove cl a P2 slot g idx)
                     (executeMove cl DISCARD P2 None None None)
                     (withIsThinking true s)
            = executeMove cl a P2 slot g idx s).
  { intros a slot g idx Hp. unfold tryCatch.
    rewrite executeMove_thinking.
    pose proof (executeMove_returns cl a P2 slot g idx s Hb) as Hr.
    destruct (executeMove cl a P2 slot g idx s) as [[[]|e] s1]; [done|].
    cbn in Hr. discriminate Hr. intros z Hz. destruct (Hp z Hz). lia. }
  assert (Hd : exists a slot g idx,
            Game.playable (board cl) slot
            /\ executeMove cl DISCARD P2 None None None (withIsThinking true s)
               = executeMove cl a P2 slot g idx s).
  { by exists DISCARD, None, None, None. }
  unfold performAIMove. runM.
  destruct reply as [|m]; [exact Hd|]. unfold tryCatch at 1. runM.
  case_bool_decide.
  { eexists _, _, _, _. split; [|apply Hcatch]; done. }
  destruct (slotId m) as [z|]; [|exact Hd].
  destruct (gateType m) as [name|]; [|exact Hd].
  destruct (String.eqb name ""); [exact Hd|].
  destruct (gateOf (cellAtZ (board cl) z)) as [[occ|]|e] eqn:Hg; [| |exact Hd].
  - destruct (findEmpty (board cl)) as [[n|]|e]; [| |exact Hd].
    + eexists _, _, _, _. split; [|apply Hcatch].
      all: intros z'; by destruct (hand (getPlayer (players cl) P2) !! 0).
    + eexists _, _, _, _. split; [|apply Hcatch]; done.
  - assert (Hp : Game.playable (board cl) (Some (KNum z))).
    { intros z' [= <-]. by apply gateOf_cellAtZ_Ok. }
    eexists _, _, _, _. split; [|apply Hcatch]; done.
Qed.

Lemma gateCount_insert (l : Arr) i n n' :
  l !! i = Some (Some n) -> gate n = None -> is_Some (gate n') ->
  Game.gateCount (<[i := Some n']> l) = S (Game.gateCount l).
Proof.
  unfold Game.gateCount. revert i.
  induction l as [|c l IH]; intros [|i] Hl Hn [t Hn']; try discriminate Hl.
  - cbn in Hl. injection Hl as ->. cbn. by rewrite Hn, Hn'.
  - cbn in Hl. cbn [insert list_insert List.filter].
    destruct (gateSet c); cbn [length]; [f_equal|]; apply IH; eauto.
Qed.

Lemma gateCount_cons c (l : Arr) :
  Game.gateCount (c :: l) = (if gateSet c then 1 else 0) + Game.gateCount l.
Proof. unfold Game.gateCount. cbn [List.filter]. by destruct (gateSet c). Qed.

Lemma gateCount_ext b b' :
  isBoard b -> isBoard b' -> (forall j, gateAt b' j = gateAt b j) ->
  Game.gateCount b' = Game.gateCount b.
Proof.
  intros Hb Hb' H.
  destruct (isBoard_inv b Hb) as (n0&n1&n2&n3&n4&n5&n6&->).
  destruct (isBoard_inv b' Hb') as (m0&m1&m2&m3&m4&m5&m6&->).
  pose proof (H 0) as H0. pose proof (H 1) as H1. pose proof (H 2) as H2.
  pose proof (H 3) as H3. pose proof (H 4) as H4. pose proof (H 5) as H5.
  pose proof (H 6) as H6. clear H.
  unfold gateAt, cellAt in *. cbn in H0, H1, H2, H3, H4, H5, H6.
  rewrite !gateCount_cons. cbn [gateSet].
  by rewrite H0, H1, H2, H3, H4, H5, H6.
Qed.

Lemma isBoard_lookup b i :
  isBoard b -> i < 7 -> exists n, b !! i = Some (Some n).
Proof.
  intros Hb Hi. destruct (isBoard_inv b Hb) as (n0&n1&n2&n3&n4&n5&n6&->).
  do 7 (destruct i as [|i]; [by eexists|]). lia.
Qed.

(** Storing a gate under a playable slot argument: still a seven-slot
    board, with the ids and the gates it had, and at most one gate more. *)
Lemma storeGate_playable b k t :
  isBoard b -> Game.playable b (Some k) ->
  isBoard (storeGate b k t)
  /\ (forall j, Game.idAt (storeGate b k t) j = Game.idAt b j)
  /\ (forall j g, gateAt b j = Some g -> gateAt (storeGate b k t) j = Some g)
  /\ Game.gateCount b <= Game.gateCount (storeGate b k t)
     <= Game.gateCount b + 1.
Proof.
  intros Hb Hk. destruct k as [z|name].
  2: { change (storeGate b (KName name) t) with b.
       split; [done|]. split; [done|]. split; [done|]. lia. }
  destruct (Hk z eq_refl) as [Hz Hfree].
  split; [by apply storeGate_in_range|].
  assert (Hlt : Z.to_nat z < length b).
  { destruct Hb as [-> _]. unfold BOARD_SIZE. lia. }
  destruct (isBoard_lookup b (Z.to_nat z) Hb ltac:(lia)) as [n Hn].
  assert (Hgn : gate n = None).
  { unfold gateAt, cellAt in Hfree. by rewrite Hn in Hfree. }
  assert (Heq : storeGate b (KNum z) t
                = <[Z.to_nat z := Some (mkNode (id n) (Some t) (value n))]> b).
  { unfold storeGate, arrayStore, cellAt.
    rewrite decide_True by lia. rewrite decide_True by done.
    by rewrite Hn. }
  rewrite Heq. split; [|split].
  - intros j. unfold Game.idAt, cellAt.
    destruct (decide (j = Z.to_nat z)) as [->|Hj].
    + rewrite list_lookup_insert_eq by done. by rewrite Hn.
    + by rewrite list_lookup_insert_ne.
  - intros j g Hj. unfold gateAt, cellAt in *.
    destruct (decide (j = Z.to_nat z)) as [->|Hne].
    + rewrite Hn in Hj. cbn in Hj. congruence.
    + by rewrite list_lookup_insert_ne.
  - rewrite (gateCount_insert b _ n) by (done || by eexists). lia.
Qed.

Lemma length_drawn w n : length (drawn w n) = n.
Proof. unfold drawn. by rewrite length_fmap, length_seq. Qed.

Lemma length_delete_le {A} (l : list A) i : length (delete i l) <= length l.
Proof.
  revert i. induction l as [|x l IH]; intros [|i]; cbn; try lia.
  specialize (IH i). apply le_n_S. exact IH.
Qed.

(** What [executeMove] writes on the board, for a playable slot
    argument. *)
Lemma executeMove_playable cl a p slot g idx :
  isBoard (board cl) -> Game.playable (board cl) slot ->
  let st' := snd (executeMove cl a p slot g idx cl) in
  inputs st' = inputs cl
  /\ (st' = endedTurn p (withIsThinking true cl)
      \/ (board st' = board cl /\ winner st' = winner cl
          /\ handOf st' p = drawn (world cl) 3
          /\ handOf st' (other p) = handOf cl (other p))
      \/ exists k t eb,
           slot = Some k
           /\ isBoard (storeGate (board cl) k t)
           /\ evaluateBoard (storeGate (board cl) k t) (inputs cl) = Ok eb
           /\ isBoard eb
           /\ (forall j, gateAt eb j = gateAt (storeGate (board cl) k t) j)
           /\ (forall j, Game.idAt eb j
                         = Game.idAt (storeGate (board cl) k t) j)
           /\ board st' = eb
           /\ ((exists w, checkWinCondition eb = Ok (Some w)
                  /\ winner st' = Some w /\ players st' = players cl)
               \/ (checkWinCondition eb = Ok None
                   /\ winner st' = winner cl
                   /\ (exists h, length h <= length (handOf cl p)
                                 /\ handOf st' p
                                    = h ++ drawn (world cl) (3 - length h))
                   /\ handOf st' (other p) = handOf cl (other p)))).
Proof.
  intros Hb Hslot st'. subst st'.
  pose proof (slotsDefined_root _ (proj2 Hb)) as Hroot.
  destruct a.
  2: { rewrite executeMove_discard by done. cbn. split; [done|].
       right; left. unfold handOf. cbn. by destruct p. }
  destruct slot as [k|];
    [|rewrite executeMove_place_missing by auto; split; [done|by left]].
  destruct g as [t|];
    [|rewrite executeMove_place_missing by auto; split; [done|by left]].
  destruct idx as [i|];
    [|rewrite executeMove_place_missing by auto; split; [done|by left]].
  destruct (storeGate_playable (board cl) k t Hb Hslot) as (Hnb & _).
  destruct (executeMove_place_on_board cl p k t i cl Hb Hnb)
    as (eb & He & Heb & Hge & Hie & [(w & Hcw & ->)|[Hcw ->]]).
  - split; [done|]. right; right. exists k, t, eb.
    do 7 (split; [done|]). left. by exists w.
  - split; [done|]. right; right. exists k, t, eb.
    do 7 (split; [done|]). right. split; [done|]. split; [done|].
    unfold handOf. cbn.
    pose proof (length_delete_le (hand (getPlayer (players cl) p)) i).
    destruct p; cbn; (split; [by eexists|done]).
Qed.

Lemma with_selection_eta st :
  st = withSelectedCardIndex (selectedCardIndex st) st.
Proof. by destruct st. Qed.

(** Each handler, run from the state it closes over on a seven-slot board,
    changes the selection only or makes one guarded call of
    [executeMove]. *)
Lemma handlers_are_moves st :
  isBoard (board st) ->
  (forall z, Game.moveOf st (after (fun c => handleSlotClick c z) st))
  /\ Game.moveOf st (after handleDiscardHand st)
  /\ (forall reply, Game.moveOf st (after (fun c => aiTurnEffect c reply) st))
  /\ (forall index,
        Game.moveOf st (after (fun c => handleCardSelect c index) st)).
Proof.
  intros Hb.
  assert (Hsame : Game.moveOf st st).
  { left. eexists. apply with_selection_eta. }
  assert (Hguard : isSet (winner st) || isThinking st = false ->
                   winner st = None).
  { intros H. destruct (winner st); [discriminate H|done]. }
  split; [|split; [|split]].
  - intros z. unfold after, handleSlotClick.
    destruct (isSet (winner st) || isThinking st) eqn:G; [exact Hsame|].
    destruct (selectedCardIndex st) as [sel|]; [|exact Hsame].
    runM.
    destruct (gateOf (cellAtZ (board st) z)) as [[occ|]|e] eqn:Hg;
      [exact Hsame| |exact Hsame].
    right. split; [auto|].
    eexists PLACE, (turn st), (Some (KNum z)), _, (Some sel).
    split; [|reflexivity]. intros z' [= <-]. by apply gateOf_cellAtZ_Ok.
  - unfold after, handleDiscardHand.
    destruct (isSet (winner st) || isThinking st) eqn:G; [exact Hsame|].
    right. split; [auto|].
    exists DISCARD, (turn st), None, None, None.
    split; [|done]. intros z; discriminate.
  - intros reply. unfold after, aiTurnEffect.
    destruct (gameStarted st && negb (isSet (winner st)) && isAI st
              && bool_decide (turn st = P2) && negb (isThinking st)) eqn:G;
      [|exact Hsame].
    right. split.
    { destruct (winner st); [|done]. cbn in G.
      rewrite andb_false_r in G. discriminate G. }
    destruct (performAIMove_is_executeMove st reply st Hb)
      as (a & slot & g & idx & Hp & ->).
    by exists a, P2, slot, g, idx.
  - intros index. left. unfold after, handleCardSelect.
    destruct (isSet (winner st) || isThinking st);
      [eexists; apply with_selection_eta|].
    destruct (isAI st && bool_decide (turn st = P2));
      [eexists; apply with_selection_eta|].
    destruct (bool_decide (selectedCardIndex st = Some index));
      by eexists.
Qed.

Lemma gatesKept_refl b : Game.gatesKept b b.
Proof. split; [auto|lia]. Qed.

Lemma moveOf_gatesKept st st' :
  isBoard (board st) -> Game.moveOf st st' ->
  Game.gatesKept (board st) (board st').
Proof.
  intros Hb [[sel ->]|(Hw & a & p & slot & g & idx & Hp & ->)].
  { apply gatesKept_refl. }
  pose proof (executeMove_playable st a p slot g idx Hb Hp) as H.
  cbv zeta in H.
  destruct H as (_ & [->|[(Eb & _)
                         |(k & t & eb & -> & Hnb & He & Heb & Hge & _
                           & Ebd & _)]]).
  - apply gatesKept_refl.
  - rewrite Eb. apply gatesKept_refl.
  - rewrite Ebd.
    destruct (storeGate_playable (board st) k t Hb Hp) as (_ & _ & Hg & Hcnt).
    split.
    + intros j g0 Hj. rewrite Hge. by apply Hg.
    + by rewrite (gateCount_ext _ eb Hnb Heb Hge).
Qed.

Lemma moveOf_wellFormed st st' :
  Game.wellFormed st -> Game.moveOf st st' -> Game.wellFormed st'.
Proof.
  intros (Hb & Hid & Hin & H1 & H2 & Hlaw & Hfit)
    [[sel ->]|(Hw & a & p & slot & g & idx & Hp & ->)].
  { done. }
  pose proof (executeMove_playable st a p slot g idx Hb Hp) as H.
  cbv zeta in H.
  set (st' := snd (executeMove st a p slot g idx st)) in *.
  assert (Hhands : length (handOf st' p) = 3 ->
                   handOf st' (other p) = handOf st (other p) ->
                   length (handOf st' P1) = 3 /\ length (handOf st' P2) = 3).
  { intros E3 Eo. destruct p; cbn [other] in Eo; rewrite Eo; done. }
  destruct H as (Hin' & [E|[(Eb & Ew & Ep & Eo)
                           |(k & t & eb & -> & Hnb & He & Heb & Hge & Hie
                             & Ebd & Hend)]]).
  - rewrite E. done.
  - destruct Hhands as [? ?]; [by rewrite Ep, length_drawn|done|].
    unfold Game.wellFormed, Game.winnerFits. rewrite Eb, Hin', Ew. done.
  - destruct (storeGate_playable (board st) k t Hb Hp) as (_ & Hids & _).
    assert (Hlaw' : boardLaw (inputs st) eb).
    { destruct (evaluateBoard_law _ (inputs st) (proj2 Hnb) Hin)
        as (b' & He' & _ & _ & _ & L).
      rewrite He in He'. by injection He' as ->. }
    assert (Hid' : Game.idsInPlace eb).
    { intros j Hj. rewrite Hie, Hids. by apply Hid. }
    unfold Game.wellFormed, Game.winnerFits. rewrite Ebd, Hin'.
    do 3 (split; [done|]).
    destruct Hend as [(w & Hcw & Ew & Eps)|(Hcw & Ew & (h & Hh & Ep) & Eo)].
    + unfold handOf. rewrite Eps, Ew. do 3 (split; [done|]).
      destruct (checkWinCondition_Some_inv eb w Heb Hcw) as [Hfull ->].
      destruct (full_root_bit _ _ _ (proj2 Hnb) He Hfull) as [r Hr].
      rewrite Hr. by destruct r.
    + destruct Hhands as [? ?]; [|done|].
      { assert (length (handOf st p) = 3) by (by destruct p).
        rewrite Ep, length_app, length_drawn. lia. }
      rewrite Ew, Hw. do 3 (split; [done|]).
      by apply checkWinCondition_None_inv.
Qed.

Lemma wellFormed_fresh b ins ps gs ai t sel th w :
  b = INITIAL_BOARD -> length ins = INITIAL_INPUTS_COUNT ->
  length (hand (playerP1 ps)) = 3 -> length (hand (playerP2 ps)) = 3 ->
  Game.wellFormed (mkApp gs ai b ins ps t None sel th w).
Proof.
  intros -> Hin H1 H2. unfold Game.wellFormed, Game.winnerFits, handOf. cbn.
  split; [apply (bool_decide_unpack _); vm_compute; exact I|].
  split. { intros i Hi. unfold BOARD_SIZE in Hi.
           do 7 (destruct i as [|i]; [reflexivity|]). lia. }
  do 3 (split; [done|]). split; [apply boardLaw_INITIAL_BOARD|].
  intros Hfull. by destruct (Hfull 0 ltac:(unfold BOARD_SIZE; lia)).
Qed.

Lemma pushBits_eq n l s :
  pushBits n l s
  = (Ok (l ++ Game.drawnBits (world s) n), withWorld (advance n (world s)) s).
Proof.
  revert l s. induction n as [|n IH]; intros l s.
  - cbn. by rewrite app_nil_r, withWorld_advance_0.
  - cbn [pushBits]. runM. unfold randomBit. cbn beta iota zeta.
    rewrite IH.
    unfold Game.drawnBits, advance, withWorld, nextDraw.
    cbn [seq fmap list_fmap].
    cbn. rewrite <- app_assoc. cbn.
    rewrite Nat.add_0_r, <- (fmap_S_seq 0), <- list_fmap_compose.
    rewrite <- Nat.add_succ_r. do 4 f_equal.
    apply list_fmap_ext. intros ? k _. cbn. f_equal. lia.
Qed.

Lemma length_drawnBits w n : length (Game.drawnBits w n) = n.
Proof. unfold Game.drawnBits. by rewrite length_fmap, length_seq. Qed.

(** The state [startGame] leaves. *)
Lemma startGame_eq aiMode st :
  startGame aiMode st
  = (Ok tt,
     let w := world st in
     mkApp true aiMode INITIAL_BOARD (Game.drawnBits w 8)
           (mkPlayers (mkPlayer (drawn (advance 8 w) 3))
                      (mkPlayer (drawn (advance 3 (advance 8 w)) 3)))
           P1 None None (isThinking st)
           (advance 3 (advance 3 (advance 8 w)))).
Proof.
  unfold startGame, generateInputs, freshHand, INITIAL_INPUTS_COUNT,
    INITIAL_HAND_SIZE, setIsAI, setInputs, setGameStarted.
  runM. rewrite pushBits_eq. cbn beta iota zeta.
  rewrite pushRandom_eq. cbn beta iota zeta. rewrite pushRandom_eq.
  reflexivity.
Qed.

Lemma reachable_wellFormed st : Game.reachable st -> Game.wellFormed st.
Proof.
  induction 1 as [aiMode st0|st index _ IH|st z _ IH|st _ IH|st reply _ IH].
  - rewrite startGame_eq. cbn.
    apply wellFormed_fresh; cbn;
      by rewrite ?length_drawnBits, ?length_drawn.
  - eapply moveOf_wellFormed; [exact IH|]. by apply handlers_are_moves, IH.
  - eapply moveOf_wellFormed; [exact IH|]. by apply handlers_are_moves, IH.
  - eapply moveOf_wellFormed; [exact IH|]. by apply handlers_are_moves, IH.
  - eapply moveOf_wellFormed; [exact IH|]. by apply handlers_are_moves, IH.
Qed.

(** X9.  A gate, once on the board, stays.  On a seven-slot board no
    handler -- slot click, discard, AI turn effect with any reply, card
    selection -- removes or replaces a gate that is on the board, and none
    adds more than one. *)
Theorem placed_gates_are_permanent st :
  isBoard (board st) ->
  (forall z, Game.gatesKept (board st)
               (board (after (fun c => handleSlotClick c z) st)))
  /\ Game.gatesKept (board st) (board (after handleDiscardHand st))
  /\ (forall reply, Game.gatesKept (board st)
                      (board (after (fun c => aiTurnEffect c reply) st)))
  /\ (forall index, Game.gatesKept (board st)
                      (board (after (fun c => handleCardSelect c index) st))).
Proof.
  intros Hb. destruct (handlers_are_moves st Hb) as (Hc & Hd & Ha & Hs).
  split; [|split; [|split]]; intros; by apply moveOf_gatesKept.
Qed.

Lemma placed_gates_are_permanent_witness :
  Game.gatesKept (board Scenario.aiToMove)
    (board (after (fun c => aiTurnEffect c
                     (Returned (mkAIMove (Some "PLACE"%string) (Some 0%Z)
                                         (Some "XOR"%string))))
              Scenario.aiToMove)).
Proof.
  refine (proj1 (proj2 (proj2 (placed_gates_are_permanent Scenario.aiToMove _)))
            _).
  apply (bool_decide_unpack _); vm_compute; exact I.
Defined.

(** X10.  The handlers keep a position well formed.  If the board has its
    seven slots with ids 0..6, there are 8 inputs, each hand has 3 cards,
    every slot obeys the slot law and the winner agrees with the board (set
    only on a full board whose root shows the target bit of that player,
    never a draw), then the same holds after a slot click, a discard, the AI
    turn effect with any reply, and a card selection. *)
Theorem handlers_keep_the_position_well_formed st :
  Game.wellFormed st ->
  (forall z, Game.wellFormed (after (fun c => handleSlotClick c z) st))
  /\ Game.wellFormed (after handleDiscardHand st)
  /\ (forall reply,
        Game.wellFormed (after (fun c => aiTurnEffect c reply) st))
  /\ (forall index,
        Game.wellFormed (after (fun c => handleCardSelect c index) st)).
Proof.
  intros Hwf.
  destruct (handlers_are_moves st (proj1 Hwf)) as (Hc & Hd & Ha & Hs).
  split; [|split; [|split]]; intros; by eapply moveOf_wellFormed.
Qed.

Lemma handlers_keep_the_position_well_formed_witness :
  Game.wellFormed (after (fun c => handleSlotClick c 3) Scenario.newMatch).
Proof.
  refine (proj1 (handlers_keep_the_position_well_formed Scenario.newMatch _) 3%Z).
  by apply wellFormed_fresh.
Defined.

(** X18.  [startGame] deals a new match from any state: it returns
    normally with the empty board of seven slots, 8 input bits drawn first,
    then three cards for P1 and three for P2, P1 to move, no winner, no
    selection, [gameStarted] set and [isAI] as asked; it draws 14 times and
    leaves [isThinking] as it was.  The position it leaves is well
    formed. *)
Theorem startGame_deals_a_new_match aiMode st :
  let r := startGame aiMode st in
  let w := world st in
  fst r = Ok tt
  /\ isAI (snd r) = aiMode
  /\ gameStarted (snd r) = true
  /\ board (snd r) = INITIAL_BOARD
  /\ inputs (snd r) = Game.drawnBits w 8
  /\ handOf (snd r) P1 = drawn (advance 8 w) 3
  /\ handOf (snd r) P2 = drawn (advance 3 (advance 8 w)) 3
  /\ turn (snd r) = P1
  /\ winner (snd r) = None
  /\ selectedCardIndex (snd r) = None
  /\ isThinking (snd r) = isThinking st
  /\ tick (world (snd r)) = tick w + 14
  /\ Game.wellFormed (snd r).
Proof.
  intros r w. subst r w. rewrite startGame_eq. cbn.
  do 11 (split; [done|]). split; [lia|].
  apply wellFormed_fresh; cbn; by rewrite ?length_drawnBits, ?length_drawn.
Qed.

(** X19.  In every state of a match -- what [startGame] leaves and what
    the handlers, each run from the state it closes over, make of it -- the
    position is well formed; in particular the winner is set exactly when
    the board is full, it is never a draw, and the player named has the
    root of the board at the target bit. *)
Theorem every_position_is_well_formed st :
  Game.reachable st ->
  Game.wellFormed st
  /\ (is_Some (winner st) <-> full (board st))
  /\ (forall o, winner st = Some o ->
        exists p, o = Win p /\ valueAt (board st) 0 = VBit (targetValue p)).
Proof.
  intros Hr. pose proof (reachable_wellFormed st Hr) as Hwf.
  split; [done|]. destruct Hwf as (_ & _ & _ & _ & _ & _ & Hfit).
  unfold Game.winnerFits in Hfit. split.
  - split.
    + intros [o Ho]. rewrite Ho in Hfit. destruct o as [p|]; [|done].
      apply Hfit.
    + intros Hfull. destruct (winner st); [done|]. by destruct Hfit.
  - intros o Ho. rewrite Ho in Hfit. destruct o as [p|]; [|done].
    exists p. split; [done|apply Hfit].
Qed.

Lemma every_position_is_well_formed_witness :
  Game.wellFormed
    (after (fun c => handleSlotClick c 3)
       (after (fun c => handleCardSelect c 0)
          (snd (startGame false Scenario.newMatch)))).
Proof.
  refine (proj1 (every_position_is_well_formed _ _)).
  apply Game.reach_click, Game.reach_select, Game.reach_start.
Defined.

Lemma isBoard_Forall b : isBoard b -> Forall is_Some b.
Proof.
  intros Hb. destruct (isBoard_inv b Hb) as (n0&n1&n2&n3&n4&n5&n6&->).
  repeat constructor; eauto.
Qed.

(** The node of slot [j] on a seven-slot board with its ids in place. *)
Lemma node_at b j :
  isBoard b -> Game.idsInPlace b -> j < 7 ->
  exists n, b !! j = Some (Some n) /\ id n = Some (Z.of_nat j)
            /\ gate n = gateAt b j.
Proof.
  intros Hb Hid Hj. destruct (isBoard_lookup b j Hb Hj) as [n Hn].
  exists n. split; [done|]. specialize (Hid j Hj).
  unfold Game.idAt, gateAt, cellAt in *. rewrite Hn in *. by split.
Qed.

Lemma gateCount_le (l : Arr) : Game.gateCount l <= length l.
Proof.
  induction l as [|c l IH]; [done|]. rewrite gateCount_cons. cbn [length].
  destruct (gateSet c); lia.
Qed.

Lemma gateCount_all (l : Arr) :
  Game.gateCount l = length l -> forallb gateSet l = true.
Proof.
  induction l as [|c l IH]; [done|]. rewrite gateCount_cons. cbn [length forallb].
  pose proof (gateCount_le l).
  destruct (gateSet c); [|lia]. intros E. apply IH. lia.
Qed.

Lemma not_full_gateCount b : isBoard b -> ~ full b -> Game.gateCount b < 7.
Proof.
  intros Hb Hnf. pose proof (gateCount_le b) as Hle.
  pose proof (gateCount_all b) as Hall.
  destruct (isBoard_inv b Hb) as (n0&n1&n2&n3&n4&n5&n6&->).
  cbn [length] in *.
  destruct (decide (Game.gateCount
                      [Some n0; Some n1; Some n2; Some n3; Some n4; Some n5;
                       Some n6] = 7)) as [E|E]; [|lia].
  exfalso. apply Hnf, full_seven, Hall, E.
Qed.

(** [board.filter(n => n.gate === null)] on an array without holes: it
    returns the nodes without a gate, as many as there are. *)
Lemma emptySlots_spec (l : Arr) :
  Forall is_Some l ->
  exists es,
    GeminiService.emptySlots l = Ok es
    /\ length es + Game.gateCount l = length l
    /\ forall k n, es !! k = Some n ->
         gate n = None /\ exists j, l !! j = Some (Some n).
Proof.
  induction 1 as [|c l [n ->] _ (es & He & Hlen & Hes)].
  { exists []. by repeat split. }
  cbn [GeminiService.emptySlots gateOf]. rewrite He.
  rewrite gateCount_cons. cbn [gateSet length].
  unfold mbind, option_bind. cbn.
  destruct (gate n) as [g|] eqn:Hg.
  - exists es. split; [done|]. split; [lia|].
    intros k m Hk. destruct (Hes k m Hk) as [? [j Hj]].
    split; [done|]. by exists (S j).
  - exists (n :: es). split; [done|]. split; [cbn; lia|].
    intros [|k] m Hk.
    + injection Hk as <-. split; [done|]. by exists 0.
    + destruct (Hes k m Hk) as [? [j Hj]]. split; [done|]. by exists (S j).
Qed.

Lemma indexOf_head g h : indexOf (g :: h) (gateName g) = Some 0.
Proof. cbn. by rewrite String.eqb_refl. Qed.

(** X13.  The fallback of [getAIMove] always proposes a playable move.  In
    a well-formed position with the winner unset, [emptySlots] has one node
    for each slot without a gate and is not empty, so the fallback never
    throws for a [pick] below their number: when [coin] falls it proposes a
    discard, and otherwise it names an empty slot of the board and the first
    card of the hand, and [performAIMove] places that very card on that very
    slot. *)
Theorem fallback_move_is_playable st coin pick :
  Game.wellFormed st -> winner st = None ->
  let reply :=
    GeminiService.getAIMoveFallback (board st) (handOf st P2) coin pick in
  (exists es, GeminiService.emptySlots (board st) = Ok es
              /\ length es = 7 - Game.gateCount (board st)
              /\ 0 < length es)
  /\ (coin = true ->
      reply = Returned (mkAIMove (Some "DISCARD"%string) None None))
  /\ (coin = false -> pick < 7 - Game.gateCount (board st) ->
      exists z first,
        (0 <= z <= 6)%Z
        /\ gateAt (board st) (Z.to_nat z) = None
        /\ handOf st P2 !! 0 = Some first
        /\ reply = Returned (mkAIMove (Some "PLACE"%string) (Some z)
                                      (Some (gateName first)))
        /\ performAIMove st reply st
           = executeMove st PLACE P2 (Some (KNum z)) (Some first) (Some 0) st).
Proof.
  intros (Hb & Hid & _ & _ & H2 & _ & Hfit) Hw reply.
  unfold Game.winnerFits in Hfit. rewrite Hw in Hfit.
  pose proof (not_full_gateCount _ Hb Hfit) as Hcount.
  destruct (emptySlots_spec (board st) (isBoard_Forall _ Hb))
    as (es & Hes & Hlen & Hnodes).
  rewrite (proj1 Hb) in Hlen. unfold BOARD_SIZE in Hlen.
  split; [exists es; split; [done|lia]|].
  subst reply. unfold GeminiService.getAIMoveFallback. rewrite Hes.
  rewrite bool_decide_eq_false_2 by lia.
  split; [by intros ->|]. intros -> Hpick.
  destruct (lookup_lt_is_Some_2 es pick ltac:(lia)) as [n Hn].
  rewrite Hn. destruct (Hnodes pick n Hn) as (Hgate & j & Hj).
  assert (Hjlt : j < 7).
  { apply lookup_lt_Some in Hj. by rewrite (proj1 Hb) in Hj. }
  destruct (node_at _ j Hb Hid Hjlt) as (n' & Hn' & Hidn & Hgn).
  rewrite Hj in Hn'. injection Hn' as <-.
  destruct (handOf st P2) as [|first rest] eqn:Hhand; [discriminate H2|].
  exists (Z.of_nat j), first.
  rewrite Nat2Z.id, <- Hgn, Hidn. split; [lia|]. do 3 (split; [done|]).
  cbn [lookup list_lookup fmap option_fmap option_map].
  rewrite (performAIMove_places st _ (Z.of_nat j) (gateName first) st);
    cbn [actionType slotId gateType]; try done.
  - cbv zeta. by rewrite Hhand, indexOf_head.
  - lia.
  - by rewrite Nat2Z.id, <- Hgn.
  - apply gateName_nonempty.
  - rewrite Hhand. by eexists.
Qed.

Lemma fallback_move_is_playable_witness :
  GeminiService.getAIMoveFallback (board Scenario.newMatch)
    (handOf Scenario.newMatch P2) true 0
  = Returned (mkAIMove (Some "DISCARD"%string) None None).
Proof.
  refine (proj1 (proj2 (fallback_move_is_playable Scenario.newMatch true 0 _ _))
            _).
  - by apply wellFormed_fresh.
  - reflexivity.
  - reflexivity.
Defined.

(** X14.  In every state of a match where the AI is to move, every reply
    -- a rejected call, any tag, missing fields, a slot off the board, an
    empty slot, an occupied slot on a full board -- is resolved to one legal
    action of the specification, with the single exception of a reply that
    names an occupied slot while another slot is empty. *)
Theorem ai_turn_is_legal_but_for_an_occupied_slot st reply :
  Game.reachable st -> winner st = None -> turn st = P2 ->
  ~ (exists m z name,
       reply = Returned m /\ actionType m <> Some "DISCARD"%string
       /\ slotId m = Some z /\ is_Some (gateAt (board st) (Z.to_nat z))
       /\ (0 <= z <= 6)%Z
       /\ gateType m = Some name /\ name <> ""%string
       /\ exists j, j < BOARD_SIZE /\ gateAt (board st) j = None) ->
  exists a, Spec.legal st a
            /\ performAIMove st reply st = Spec.apply st a st.
Proof.
  intros Hr Hw Ht Hnot.
  destruct (reachable_wellFormed st Hr) as (Hb & _ & _ & _ & H2 & _).
  apply performAIMove_legal_otherwise; try done.
  destruct (handOf st P2); [discriminate H2|by eexists].
Qed.

Lemma ai_turn_is_legal_but_for_an_occupied_slot_witness :
  exists a,
    Spec.legal (after handleDiscardHand (snd (startGame true Scenario.newMatch))) a
    /\ performAIMove
         (after handleDiscardHand (snd (startGame true Scenario.newMatch)))
         Rejected
         (after handleDiscardHand (snd (startGame true Scenario.newMatch)))
       = Spec.apply
           (after handleDiscardHand (snd (startGame true Scenario.newMatch))) a
           (after handleDiscardHand (snd (startGame true Scenario.newMatch))).
Proof.
  apply (ai_turn_is_legal_but_for_an_occupied_slot
           (after handleDiscardHand (snd (startGame true Scenario.newMatch)))
           Rejected).
  - apply Game.reach_discard, Game.reach_start.
  - reflexivity.
  - reflexivity.
  - intros (m & z & name & H & _). discriminate H.
Defined.

(** [board.map(n => n.id)] on an array without holes. *)
Lemma ids_spec (l : Arr) :
  Forall is_Some l ->
  GameBoard.ids l = Ok ((fun c : Cell => c ≫= id) <$> l).
Proof.
  intros HF. induction HF as [|c l [n ->] _ IH]; [done|].
  cbn [GameBoard.ids]. rewrite IH. reflexivity.
Qed.

(** [l.filter(isValidSlot)] when the predicate throws on no element. *)
Lemma filterValid_spec b (l : list (option Z)) :
  (forall i, i ∈ l -> exists v, GameBoard.isValidSlot b i = Ok v) ->
  exists vs,
    GameBoard.filterValid b l = Ok vs
    /\ forall i, i ∈ vs <-> i ∈ l /\ GameBoard.isValidSlot b i = Ok true.
Proof.
  induction l as [|x l IH]; intros Hl.
  { exists []. split; [done|]. intros i.
    split; [intros H|intros [H _]]; by apply elem_of_nil in H. }
  destruct (Hl x ltac:(left)) as [v Hv].
  destruct IH as (vs & Hvs & Hin); [intros i Hi; apply Hl; by right|].
  cbn [GameBoard.filterValid]. rewrite Hv, Hvs.
  unfold mbind. cbn.
  destruct v.
  - exists (x :: vs). split; [done|]. intros i.
    rewrite !elem_of_cons, Hin. split.
    + intros [->|[? ?]]; auto.
    + intros [[->|?] ?]; auto.
  - exists vs. split; [done|]. intros i.
    rewrite elem_of_cons, Hin. split.
    + intros [? ?]; auto.
    + intros [[->|?] ?]; [congruence|auto].
Qed.

Lemma isValidSlot_on_board b j :
  isBoard b -> j < 7 ->
  GameBoard.isValidSlot b (Some (Z.of_nat j))
  = Ok (bool_decide (gateAt b j = None)).
Proof.
  intros Hb Hj. unfold GameBoard.isValidSlot.
  destruct (gateAt_cellAtZ b (Z.of_nat j) Hb ltac:(lia)) as (n & -> & Hg).
  rewrite Nat2Z.id in Hg. cbn. by rewrite Hg.
Qed.

(** The ids of a seven-slot board with its ids in place are 0..6. *)
Lemma ids_in_place b i :
  isBoard b -> Game.idsInPlace b ->
  i ∈ (fun c : Cell => c ≫= id) <$> b
  <-> exists j, j < 7 /\ i = Some (Z.of_nat j).
Proof.
  intros Hb Hid. rewrite list_elem_of_fmap. split.
  - intros (c & -> & Hc). apply list_elem_of_lookup in Hc as [j Hj].
    assert (Hjlt : j < 7).
    { apply lookup_lt_Some in Hj. by rewrite (proj1 Hb) in Hj. }
    destruct (node_at b j Hb Hid Hjlt) as (n & Hn & Hidn & _).
    rewrite Hj in Hn. injection Hn as ->. by exists j.
  - intros (j & Hj & ->).
    destruct (node_at b j Hb Hid Hj) as (n & Hn & Hidn & _).
    exists (Some n). split; [done|]. by eapply list_elem_of_lookup_2.
Qed.

(** X15.  Only an empty slot takes a click.  On a seven-slot board with
    its ids in place, [validSlots] returns normally and holds exactly the
    ids of the slots without a gate; the click handler of a drawn node does
    nothing at all when the node holds a gate, and is [handleSlotClick] with
    the number of the slot when it holds none. *)
Theorem only_empty_slots_take_a_click st :
  isBoard (board st) -> Game.idsInPlace (board st) ->
  exists vs,
    GameBoard.validSlots (board st) = Ok vs
    /\ (forall i, i ∈ vs <->
          exists j, j < 7 /\ i = Some (Z.of_nat j)
                    /\ gateAt (board st) j = None)
    /\ (forall j node,
          cellAt (board st) j = Some node ->
          (is_Some (gate node) ->
             GameBoard.onNodeClick st node st = (Ok tt, st))
          /\ (gate node = None ->
              GameBoard.onNodeClick st node st
              = handleSlotClick st (Z.of_nat j) st)).
Proof.
  intros Hb Hid.
  destruct (filterValid_spec (board st)
              ((fun c : Cell => c ≫= id) <$> board st))
    as (vs & Hvs & Hin).
  { intros i Hi. apply (ids_in_place _ _ Hb Hid) in Hi as (j & Hj & ->).
    rewrite isValidSlot_on_board by done. by eexists. }
  assert (Hvalid : GameBoard.validSlots (board st) = Ok vs).
  { unfold GameBoard.validSlots.
    by rewrite (ids_spec _ (isBoard_Forall _ Hb)). }
  assert (Hmem : forall i, i ∈ vs <->
            exists j, j < 7 /\ i = Some (Z.of_nat j)
                      /\ gateAt (board st) j = None).
  { intros i. rewrite Hin, (ids_in_place _ _ Hb Hid). split.
    - intros [(j & Hj & ->) Hv]. exists j.
      rewrite isValidSlot_on_board in Hv by done.
      injection Hv as Hv. by apply bool_decide_eq_true in Hv.
    - intros (j & Hj & -> & Hg). split; [by exists j|].
      rewrite isValidSlot_on_board by done.
      by rewrite bool_decide_eq_true_2. }
  exists vs. split; [done|]. split; [done|].
  intros j node Hnode.
  assert (Hjlt : j < 7).
  { unfold cellAt in Hnode. destruct (board st !! j) eqn:E; [|done].
    apply lookup_lt_Some in E. by rewrite (proj1 Hb) in E. }
  destruct (node_at _ j Hb Hid Hjlt) as (n & Hn & Hidn & Hgn).
  unfold cellAt in Hnode. rewrite Hn in Hnode. injection Hnode as ->.
  unfold GameBoard.onNodeClick. runM. rewrite Hvalid, Hidn. split.
  - intros [g Hg]. rewrite bool_decide_eq_false_2; [done|].
    rewrite Hmem. intros (j' & _ & [= Hj'] & Hfree).
    apply Nat2Z.inj in Hj' as <-. congruence.
  - intros Hg. rewrite bool_decide_eq_true_2; [done|].
    rewrite Hmem. exists j. by rewrite <- Hgn.
Qed.

Lemma only_empty_slots_take_a_click_witness :
  exists vs, GameBoard.validSlots (board Scenario.humanToMove) = Ok vs.
Proof.
  destruct (only_empty_slots_take_a_click Scenario.humanToMove) as (vs & H & _).
  - apply (bool_decide_unpack _); vm_compute; exact I.
  - intros i Hi. unfold BOARD_SIZE in Hi.
    do 7 (destruct i as [|i]; [reflexivity|]). lia.
  - by exists vs.
Defined.

End Moves.
